(** * A shallow embedding of the resource-sharing backend (main.py, schemas.py)

    The development follows the layout of the program:
    - Python values and dictionaries (documents, event payloads);
    - exceptions and a state-and-exception monad for handlers;
    - [Broadcaster]: the server-sent-events fan-out (subscribe, unsubscribe,
      broadcast) over a heap of [asyncio.Queue] objects;
    - the document store gateway ([find_one], [update_one], and the helpers
      imported from the [database] module);
    - the request handlers of the API layer.

    Definitions come first, the lemmas and theorems about them afterwards. *)

From stdpp Require Import base option list strings gmap fin_maps.
From Stdlib Require Import ZArith NArith Lia Ascii.

Local Open Scope string_scope.
Local Open Scope list_scope.

(** ** Python values *)

(** The values that occur in the documents and event payloads of the program:
    [None], booleans, integers, strings, lists of strings (the tags),
    [datetime] objects (seconds since the epoch) and bson [ObjectId]s:
    [VOid o] is one of twelve bytes, as the driver generates them (the 96-bit
    number they are); [VOidBytes b] is one that holds other bytes, which
    [ObjectId(str)] builds from a string with blanks (see [ObjectId]). *)
Inductive Value :=
  | VNone
  | VBool (b : bool)
  | VInt (z : Z)
  | VStr (s : string)
  | VList (l : list string)
  | VDate (t : Z)
  | VOid (o : N)
  | VOidBytes (binary : list N).

#[global] Instance Value_eq_dec : EqDecision Value.
Proof. solve_decision. Defined.

(** A Python [dict] with string keys. *)
Abbreviation Doc := (gmap string Value).

Definition opt_str (o : option string) : Value :=
  match o with Some s => VStr s | None => VNone end.

Definition opt_int (o : option Z) : Value :=
  match o with Some z => VInt z | None => VNone end.

(** ** Exceptions and the handler monad *)

Inductive Exn :=
  | HTTPException (status_code : Z) (detail : string)
  | TypeError
  | KeyError (key : string)
  | ValueError
  | InvalidId
  | ValidationError
  | StoreUnavailable
  | QueueFault.

#[global] Instance Exn_eq_dec : EqDecision Exn.
Proof. solve_decision. Defined.

Inductive Result (A : Type) :=
  | Ok (a : A)
  | Raise (e : Exn).
Arguments Ok {A} a.
Arguments Raise {A} e.

(** A computation over a mutable state [S] that returns or raises; the state
    reached when an exception is raised is kept, as in Python. *)
Definition M (S A : Type) : Type := S → Result A * S.

#[global] Instance M_ret {S} : MRet (M S) := λ A a s, (Ok a, s).

#[global] Instance M_bind {S} : MBind (M S) := λ A B f m s,
  match m s with
  | (Ok a, s') => f a s'
  | (Raise e, s') => (Raise e, s')
  end.

Definition raise {S A} (e : Exn) : M S A := λ s, (Raise e, s).

Definition get_state {S} : M S S := λ s, (Ok s, s).

Definition modify {S} (f : S → S) : M S () := λ s, (Ok (), f s).

(** [try: body except Exception as e: handler e]. Every exception of [Exn] is a
    subclass of [Exception]. *)
Definition try_except {S A} (body : M S A) (handler : Exn → M S A) : M S A :=
  λ s, match body s with
       | (Ok a, s') => (Ok a, s')
       | (Raise e, s') => handler e s'
       end.

(** [for x in l: body x] *)
Fixpoint for_each {S A} (l : list A) (body : A → M S ()) : M S () :=
  match l with
  | [] => mret ()
  | x :: l' => body x;; for_each l' body
  end.

(** [[f x for x in l]] where [f] may raise. *)
Fixpoint map_result {A B} (f : A → Result B) (l : list A) : Result (list B) :=
  match l with
  | [] => Ok []
  | x :: l' =>
      match f x with
      | Raise e => Raise e
      | Ok y => match map_result f l' with
                | Raise e => Raise e
                | Ok ys => Ok (y :: ys)
                end
      end
  end.

Definition lift_result {S A} (r : Result A) : M S A := λ s, (r, s).

(** ** The broadcaster (main.py, class Broadcaster) *)

(** [asyncio.Queue] objects live in a heap, addressed by the order of their
    allocation; [subscribers] is the Python list of the registered queues
    (references, compared by identity). *)
Record Hub := mkHub {
  subscribers : list nat;
  heap : gmap nat (list Doc);
  next_q : nat
}.

(** [Broadcaster()] *)
Definition Broadcaster_init : Hub :=
  {| subscribers := []; heap := ∅; next_q := 0 |}.

(** [{"event": "connected"}] *)
Definition connected : Doc := {[ "event" := VStr "connected" ]}.

(** [l.remove(x)]: drops the first occurrence, [None] stands for [ValueError]. *)
Fixpoint list_remove (x : nat) (l : list nat) : option (list nat) :=
  match l with
  | [] => None
  | y :: l' => if decide (x = y) then Some l' else (y ::.) <$> list_remove x l'
  end.

(** The items of queue [q] (empty for an address that was never allocated). *)
Definition queue_items (h : Hub) (q : nat) : list Doc := default [] (heap h !! q).

Section Broadcaster.

(** Fault injection for the enqueue: [put_raises q item] tells whether
    [await q.put(item)] raises. The queues of the program are created by
    [asyncio.Queue()] without a bound, for which [put] neither waits nor
    raises: that is the instance [asyncio_put] below. The general form is
    what the [try]/[except] of [broadcast] is written for. *)
Variable put_raises : nat → Doc → bool.

(** [asyncio.Queue()] *)
Definition Queue_new : M Hub nat := λ h,
  (Ok (next_q h),
   {| subscribers := subscribers h;
      heap := <[next_q h := []]> (heap h);
      next_q := S (next_q h) |}).

(** [await q.put(item)] *)
Definition Queue_put (q : nat) (item : Doc) : M Hub () := λ h,
  if put_raises q item then (Raise QueueFault, h)
  else (Ok (),
        {| subscribers := subscribers h;
           heap := alter (λ items, items ++ [item]) q (heap h);
           next_q := next_q h |}).

(** [await q.get()]: takes the oldest item; on an empty queue the consumer
    stays suspended, which is the result [None] with the state unchanged. *)
Definition Queue_get (q : nat) : M Hub (option Doc) := λ h,
  match heap h !! q with
  | Some (item :: items) =>
      (Ok (Some item),
       {| subscribers := subscribers h;
          heap := <[q := items]> (heap h);
          next_q := next_q h |})
  | _ => (Ok None, h)
  end.

(** [self.subscribers.append(q)] *)
Definition subscribers_append (q : nat) : M Hub () :=
  modify (λ h, {| subscribers := subscribers h ++ [q];
                  heap := heap h; next_q := next_q h |}).

(** [self.subscribers.remove(q)] *)
Definition subscribers_remove (q : nat) : M Hub () := λ h,
  match list_remove q (subscribers h) with
  | Some l => (Ok (), {| subscribers := l; heap := heap h; next_q := next_q h |})
  | None => (Raise ValueError, h)
  end.

(** main.py, lines 213-218 *)
Definition subscribe : M Hub nat :=
  q ← Queue_new;
  subscribers_append q;;
  Queue_put q connected;;
  mret q.

(** main.py, lines 220-224 *)
Definition unsubscribe (q : nat) : M Hub () :=
  try_except (subscribers_remove q)
    (λ e, match e with ValueError => mret () | _ => raise e end).

(** main.py, lines 226-231. [list(self.subscribers)] is evaluated once,
    before the loop. *)
Definition broadcast (message : Doc) : M Hub () :=
  h ← get_state;
  let snapshot := subscribers h in
  for_each snapshot (λ q,
    try_except (Queue_put q message) (λ _, mret ())).

(** *** Runs of the hub

    The operations that reach the broadcaster: a client opening the event
    stream ([subscribe]), its generator taking the next message ([q.get()]),
    its disconnection ([unsubscribe] in the [finally] block), and a handler
    broadcasting. *)
Inductive HubOp :=
  | OpSubscribe
  | OpUnsubscribe (q : nat)
  | OpBroadcast (message : Doc)
  | OpGet (q : nat).

Definition hub_step (op : HubOp) (h : Hub) : Hub :=
  match op with
  | OpSubscribe => (subscribe h).2
  | OpUnsubscribe q => (unsubscribe q h).2
  | OpBroadcast m => (broadcast m h).2
  | OpGet q => (Queue_get q h).2
  end.

Definition hub_run (ops : list HubOp) (h : Hub) : Hub :=
  foldl (λ h op, hub_step op h) h ops.

(** What the consumer of queue [c] takes at one operation. *)
Definition taken (c : nat) (op : HubOp) (h : Hub) : list Doc :=
  match op with
  | OpGet q =>
      if decide (q = c) then
        match (Queue_get q h).1 with
        | Ok (Some m) => [m]
        | _ => []
        end
      else []
  | _ => []
  end.

(** What one operation is due to enqueue onto queue [c]: the message of a
    [broadcast] called while [c] is registered, unless the enqueue raises. *)
Definition enqueued_by (c : nat) (op : HubOp) (h : Hub) : list Doc :=
  match op with
  | OpBroadcast m =>
      if decide (c ∈ subscribers h) then
        if put_raises c m then [] else [m]
      else []
  | _ => []
  end.

(** The messages the consumer of queue [c] has taken during a run, oldest
    first. *)
Fixpoint received (c : nat) (ops : list HubOp) (h : Hub) : list Doc :=
  match ops with
  | [] => []
  | op :: ops' => taken c op h ++ received c ops' (hub_step op h)
  end.

(** The messages of the [broadcast] calls made during a run while [c] was
    registered, in the order of the calls. *)
Fixpoint enqueued (c : nat) (ops : list HubOp) (h : Hub) : list Doc :=
  match ops with
  | [] => []
  | op :: ops' => enqueued_by c op h ++ enqueued c ops' (hub_step op h)
  end.

(** The messages of the [broadcast] calls of a run, in the order of the
    calls. *)
Definition broadcasts (ops : list HubOp) : list Doc :=
  omap (λ op, match op with OpBroadcast m => Some m | _ => None end) ops.

Definition unsubscribes (c : nat) (ops : list HubOp) : bool :=
  existsb (λ op, match op with
                 | OpUnsubscribe q => bool_decide (q = c)
                 | _ => false
                 end) ops.

End Broadcaster.

(** The enqueue of an unbounded [asyncio.Queue]: it never raises. *)
Definition asyncio_put : nat → Doc → bool := λ _ _, false.

(** The invariant of the hub: a queue is registered at most once, and every
    registered queue has been allocated. *)
Definition hub_wf (h : Hub) : Prop :=
  NoDup (subscribers h) ∧
  (∀ q, q ∈ subscribers h → q < next_q h) ∧
  (∀ q, is_Some (heap h !! q) ↔ q < next_q h).

(** The states of the hub that the program reaches. *)
Inductive hub_reachable (put_raises : nat → Doc → bool) : Hub → Prop :=
  | reach_init : hub_reachable put_raises Broadcaster_init
  | reach_step h op :
      hub_reachable put_raises h →
      hub_reachable put_raises (hub_step put_raises op h).

(** ** bson.ObjectId *)

(** An [ObjectId] of the driver holds 12 bytes; its text form is 24
    hexadecimal digits. *)
Definition hex_digit (d : N) : ascii :=
  default "0"%char (String.list_ascii_of_string "0123456789abcdef" !! N.to_nat d).

Definition hex_value (c : ascii) : option N :=
  let n := N_of_ascii c in
  if (48 <=? n)%N && (n <=? 57)%N then Some (n - 48)%N
  else if (97 <=? n)%N && (n <=? 102)%N then Some (n - 87)%N
  else if (65 <=? n)%N && (n <=? 70)%N then Some (n - 55)%N
  else None.

Fixpoint hex_digits (k : nat) (n : N) : list ascii :=
  match k with
  | O => []
  | S k' => hex_digits k' (n / 16)%N ++ [hex_digit (n mod 16)%N]
  end.

(** The whitespace that [bytes.fromhex] skips: the space and the characters
    from [\t] to [\r]. *)
Definition is_space (c : ascii) : bool :=
  let n := N_of_ascii c in
  ((9 <=? n)%N && (n <=? 13)%N) || (n =? 32)%N.

(** [bytes.fromhex(s)]: two hexadecimal digits for each byte, whitespace
    being skipped between the bytes (not inside one); [None] stands for
    [ValueError]. *)
Fixpoint fromhex (l : list ascii) : option (list N) :=
  match l with
  | [] => Some []
  | c :: l' =>
      if is_space c then fromhex l'
      else
        match hex_value c, l' with
        | Some top, c' :: l'' =>
            match hex_value c' with
            | Some bot => ((top * 16 + bot)%N ::.) <$> fromhex l''
            | None => None
            end
        | _, _ => None
        end
  end.

(** The number that bytes are, the first one the most significant. *)
Definition bytes_value (b : list N) : N :=
  foldl (λ acc x, (acc * 256 + x)%N) 0%N b.

(** [binascii.hexlify(b)], as text *)
Definition hexlify (b : list N) : string :=
  String.string_of_list_ascii
    (b ≫= λ x, [hex_digit (x / 16)%N; hex_digit (x mod 16)%N]).

(** [str(oid)] for an [ObjectId] of twelve bytes *)
Definition oid_str (o : N) : string := String.string_of_list_ascii (hex_digits 24 o).

(** [ObjectId(id_str)] for a string (bson/objectid.py, [__validate]):
    [InvalidId] unless the string has 24 characters and [bytes.fromhex] reads
    them. The bytes read are kept whatever their number: twelve when the
    characters are 24 digits, fewer when there are blanks between them. (A
    character outside ASCII is neither a digit nor whitespace, so that a
    string with one is refused whichever way its length is counted.) Two
    [ObjectId]s are equal when their bytes are, so that one of fewer than
    twelve bytes is the [_id] of no document. *)
Definition ObjectId (id_str : string) : Result Value :=
  let l := String.list_ascii_of_string id_str in
  if decide (length l = 24%nat) then
    match fromhex l with
    | Some b =>
        Ok (if decide (length b = 12%nat) then VOid (bytes_value b)
            else VOidBytes b)
    | None => Raise InvalidId
    end
  else Raise InvalidId.

(** The ids an [ObjectId] can hold. *)
Definition valid_oid (o : N) : Prop := (o < 2 ^ 96)%N.

(** ** The document store *)

(** A collection is the list of its documents in insertion order, each with
    its [_id] and its other fields; a database maps collection names to
    collections (a name that was never written is an empty collection). *)
Abbreviation Store := (gmap string (list (N * Doc))).

Definition collection (s : Store) (name : string) : list (N * Doc) :=
  default [] (s !! name).

(** The document as the driver returns it. *)
Definition full_doc (d : N * Doc) : Doc := <["_id" := VOid d.1]> d.2.

(** A filter of equalities [{k1: v1, ...}] holds of a document that has each
    of the values. *)
Definition matches (q d : Doc) : bool :=
  bool_decide (map_Forall (λ k v, d !! k = Some v) q).

(** The first document of a collection that a filter selects gets the fields
    of [{"$set": upd}]. *)
Fixpoint update_first (q upd : Doc) (l : list (N * Doc)) : list (N * Doc) :=
  match l with
  | [] => []
  | d :: l' =>
      if matches q (full_doc d) then (d.1, upd ∪ d.2) :: l'
      else d :: update_first q upd l'
  end.

(** ** The application state *)

(** The calls that write to the store or reach the broadcaster, recorded in
    the order they are made (instrumentation: the program keeps no such
    log). *)
Inductive Call :=
  | CallInsert (coll : string)
  | CallUpdate (coll : string)
  | CallBroadcast (message : Doc).

(** [db] is the module global imported from [database] ([None] when the store
    is not configured), [broadcaster] the module global of main.py. *)
Record App := mkApp {
  db : option Store;
  broadcaster : Hub;
  calls : list Call
}.

Definition App_init (d : option Store) : App :=
  {| db := d; broadcaster := Broadcaster_init; calls := [] |}.

Definition record (c : Call) : M App () :=
  modify (λ a, {| db := db a; broadcaster := broadcaster a;
                  calls := calls a ++ [c] |}).

(** Runs a computation of the broadcaster on the global [broadcaster]. *)
Definition on_broadcaster {A} (m : M Hub A) : M App A := λ a,
  let (r, h) := m (broadcaster a) in
  (r, {| db := db a; broadcaster := h; calls := calls a |}).

(** [db is None] *)
Definition db_is_None : M App bool := λ a,
  (Ok (match db a with None => true | Some _ => false end), a).

(** [db[name]]: a handle on the collection; subscripting [None] is a
    [TypeError]. *)
Definition db_getitem (name : string) : M App string := λ a,
  match db a with
  | None => (Raise TypeError, a)
  | Some _ => (Ok name, a)
  end.

(** [coll.find_one(q)]. A [datetime] is returned as it was stored; what the
    driver does when it decodes one (by default it gives a naive [datetime],
    cut to milliseconds) is left to [isoformat], the text of a time in a
    response. *)
Definition find_one (coll : string) (q : Doc) : M App (option Doc) := λ a,
  match db a with
  | None => (Raise TypeError, a)
  | Some s =>
      (Ok (full_doc <$> List.find (λ d, matches q (full_doc d)) (collection s coll)), a)
  end.

(** [coll.update_one(q, {"$set": upd})] *)
Definition update_one (coll : string) (q upd : Doc) : M App () := λ a,
  match db a with
  | None => (Raise TypeError, a)
  | Some s =>
      (Ok (),
       {| db := Some (<[coll := update_first q upd (collection s coll)]> s);
          broadcaster := broadcaster a;
          calls := calls a ++ [CallUpdate coll] |})
  end.

(** Modelled from the spec: the helper [create_document] of the [database]
    module, which is not among the sources. The gateway offers "generic
    create/find/update operations against named collections, keyed by an
    opaque identifier type": the document is added to the collection under a
    new identifier, whose text form is returned; [new_id] is the identifier
    the driver generates for it. A store that is not configured is the error
    [StoreUnavailable]. *)
Definition create_document (new_id : N) (coll : string) (data : Doc) : M App string :=
  λ a,
  match db a with
  | None => (Raise StoreUnavailable, a)
  | Some s =>
      (Ok (oid_str new_id),
       {| db := Some (<[coll := collection s coll ++ [(new_id, data)]]> s);
          broadcaster := broadcaster a;
          calls := calls a ++ [CallInsert coll] |})
  end.

(** Modelled from the spec: the helper [get_documents] of the [database]
    module, which is not among the sources: the documents of the collection
    that the filter selects, at most [limit] of them when a limit is given. *)
Definition get_documents (coll : string) (q : Doc) (limit : option Z) : M App (list Doc) :=
  λ a,
  match db a with
  | None => (Raise StoreUnavailable, a)
  | Some s =>
      let found := full_doc <$> List.filter (λ d, matches q (full_doc d)) (collection s coll) in
      (Ok (match limit with
           | Some n => take (Z.to_nat n) found
           | None => found
           end), a)
  end.

(** The status of the response for an exception that leaves a handler: the
    code of an [HTTPException]; service unavailable for [StoreUnavailable],
    as the error taxonomy of the specification has it; the framework's
    internal server error for any other exception. *)
Definition http_status (e : Exn) : Z :=
  match e with
  | HTTPException status_code _ => status_code
  | StoreUnavailable => 503
  | _ => 500
  end.

(** ** Request bodies (main.py) *)

Module LoginRequest.
Record t := mk {
  name : string;
  email : string;
  role : string;
  semester : option Z
}.
End LoginRequest.

Module CreateResourceRequest.
Record t := mk {
  title : string;
  description : option string;
  semester : Z;
  subject : string;
  tags : list string;
  file_url : option string;
  content_url : option string;
  uploaded_by : string;
  uploader_name : option string
}.
End CreateResourceRequest.

Module ApproveRequest.
Record t := mk { approved_by : string }.
End ApproveRequest.

(** ** Schemas (schemas.py) *)

(** [Resource(...).model_dump()] as [create_resource] calls it: the semester
    is checked against [ge=1, le=8]; [approved_by] and [approved_at] take
    their default [None]. *)
Definition ResourceSchema_dump (payload : CreateResourceRequest.t) (status : string)
  : Result Doc :=
  let sem := CreateResourceRequest.semester payload in
  if (1 <=? sem)%Z && (sem <=? 8)%Z then
    Ok (<["title" := VStr (CreateResourceRequest.title payload)]>
       (<["description" := opt_str (CreateResourceRequest.description payload)]>
       (<["semester" := VInt sem]>
       (<["subject" := VStr (CreateResourceRequest.subject payload)]>
       (<["tags" := VList (CreateResourceRequest.tags payload)]>
       (<["file_url" := opt_str (CreateResourceRequest.file_url payload)]>
       (<["content_url" := opt_str (CreateResourceRequest.content_url payload)]>
       (<["uploaded_by" := VStr (CreateResourceRequest.uploaded_by payload)]>
       (<["uploader_name" := opt_str (CreateResourceRequest.uploader_name payload)]>
       (<["status" := VStr status]>
       (<["approved_by" := VNone]>
       (<["approved_at" := VNone]> ∅))))))))))))
  else Raise ValidationError.

(** [Notification(...).model_dump()]: [semester] is an optional integer and
    [subject] an optional string. The values that the handlers pass for a
    resource of an upload are an integer and a string; of the other values
    only [None] is accepted here (pydantic would also convert a boolean or a
    string of digits to an integer). *)
Definition NotificationSchema_dump (type message : string) (resource_id : Value)
    (created_by : Value) (semester subject : Value) : Result Doc :=
  match semester, subject with
  | (VNone | VInt _), (VNone | VStr _) =>
      Ok (<["type" := VStr type]>
         (<["message" := VStr message]>
         (<["resource_id" := resource_id]>
         (<["created_by" := created_by]>
         (<["semester" := semester]>
         (<["subject" := subject]> ∅))))))
  | _, _ => Raise ValidationError
  end.

(** Truth value of [doc] in [if doc:] for a dictionary or [None]. *)
Definition truthy (doc : option Doc) : bool :=
  match doc with
  | Some d => bool_decide (d ≠ ∅)
  | None => false
  end.

(** [d[k]] *)
Definition getitem (d : Doc) (k : string) : Result Value :=
  match d !! k with
  | Some v => Ok v
  | None => Raise (KeyError k)
  end.

(** [d.get(k)] *)
Definition dict_get (d : Doc) (k : string) : Value := default VNone (d !! k).

Section Api.

(** The enqueue of the event queues (see [Broadcaster]). *)
Variable put_raises : nat → Doc → bool.

(** [datetime.isoformat] and the text Python's [str] gives for a value that
    is neither a string nor an [ObjectId]: library functions, left open. *)
Variable isoformat : Z → string.
Variable str_other : Value → string.

(** [str(v)] *)
Definition py_str (v : Value) : string :=
  match v with
  | VStr s => s
  | VOid o => oid_str o
  | VOidBytes b => hexlify b
  | _ => str_other v
  end.

(** main.py, lines 29-33 *)
Definition oid (id_str : string) : Result Value :=
  match ObjectId id_str with
  | Ok o => Ok o
  | Raise _ => Raise (HTTPException 400 "Invalid id")
  end.

(** main.py, lines 36-44, on a dictionary. *)
Definition clean_doc (doc : Doc) : Result Doc :=
  if decide (doc = ∅) then Ok doc
  else
    match doc !! "_id" with
    | None => Raise (KeyError "_id")
    | Some v =>
        Ok ((λ v, match v with VDate t => VStr (isoformat t) | _ => v end)
              <$> <["id" := VStr (py_str v)]> (delete "_id" doc))
    end.

(** main.py, lines 36-44: [None] is returned as it is. *)
Definition clean (doc : option Doc) : Result (option Doc) :=
  match doc with
  | None => Ok None
  | Some d =>
      match clean_doc d with
      | Ok d' => Ok (Some d')
      | Raise e => Raise e
      end
  end.

(** The dictionary [doc] that [login] builds (main.py, lines 64-72). *)
Definition user_doc (now : Z) (payload : LoginRequest.t) : Doc :=
  <["name" := VStr (LoginRequest.name payload)]>
  (<["email" := VStr (LoginRequest.email payload)]>
  (<["role" := VStr (LoginRequest.role payload)]>
  (<["semester" := opt_int (LoginRequest.semester payload)]>
  (<["department" := VStr "CSE"]>
  (<["is_active" := VBool true]>
  (<["updated_at" := VDate now]> ∅)))))).

(** main.py, lines 57-80. [now] is the value of [datetime.now], [new_id]
    the identifier the driver gives to an inserted document. *)
Definition login (now : Z) (new_id : N) (payload : LoginRequest.t)
  : M App (option Doc) :=
  unavailable ← db_is_None;
  if (unavailable : bool) then
    raise (HTTPException 503 "Database not configured")
  else
    users ← db_getitem "user";
    existing ← find_one users {[ "email" := VStr (LoginRequest.email payload) ]};
    let doc := user_doc now payload in
    match existing with
    | Some e =>
        if truthy existing then
          id ← lift_result (getitem e "_id");
          update_one users {[ "_id" := id ]} doc;;
          lift_result (clean (Some (doc ∪ e)))
        else
          created_id ← create_document new_id "user" doc;
          o ← lift_result (ObjectId created_id);
          new_doc ← find_one users {[ "_id" := o ]};
          lift_result (clean new_doc)
    | None =>
        created_id ← create_document new_id "user" doc;
        o ← lift_result (ObjectId created_id);
        new_doc ← find_one users {[ "_id" := o ]};
        lift_result (clean new_doc)
    end.

(** [await broadcaster.broadcast(message)] from a handler. *)
Definition call_broadcast (message : Doc) : M App () :=
  record (CallBroadcast message);;
  on_broadcaster (broadcast put_raises message).

(** main.py, lines 98-128. [rid_new] and [nid_new] are the identifiers the
    driver gives to the resource and to the notification. *)
Definition create_resource (rid_new nid_new : N) (payload : CreateResourceRequest.t)
  : M App (option Doc) :=
  data ← lift_result (ResourceSchema_dump payload "pending");
  rid ← create_document rid_new "resource" data;
  title ← lift_result (getitem data "title");
  uploaded_by ← lift_result (getitem data "uploaded_by");
  semester ← lift_result (getitem data "semester");
  subject ← lift_result (getitem data "subject");
  notif ← lift_result
    (NotificationSchema_dump "resource_created"
       ("New resource pending: " +:+ py_str title)
       (VStr rid) uploaded_by semester subject);
  create_document nid_new "notification" notif;;
  title' ← lift_result (getitem data "title");
  call_broadcast
    (<["event" := VStr "resource_created"]>
    (<["resource_id" := VStr rid]>
    (<["title" := title']> ∅)));;
  resources ← db_getitem "resource";
  o ← lift_result (ObjectId rid);
  doc ← find_one resources {[ "_id" := o ]};
  lift_result (clean doc).

(** The filter that [list_resources] builds (main.py, lines 141-149): a
    condition is added for a semester that is given and for a subject, a
    status and an uploader that are given and not the empty string. *)
Definition resources_query (semester : option Z) (subject : option string)
    (status : string) (uploaded_by : option string) : Doc :=
  let q : Doc := ∅ in
  let q := match semester with Some n => <["semester" := VInt n]> q | None => q end in
  let q := match subject with
           | Some s => if decide (s = "") then q else <["subject" := VStr s]> q
           | None => q
           end in
  let q := if decide (status = "") then q else <["status" := VStr status]> q in
  let q := match uploaded_by with
           | Some s => if decide (s = "") then q else <["uploaded_by" := VStr s]> q
           | None => q
           end in
  q.

(** main.py, lines 131-151 *)
Definition list_resources (semester : option Z) (subject : option string)
    (status : string) (uploaded_by : option string) (limit : option Z)
  : M App (list Doc) :=
  unavailable ← db_is_None;
  if (unavailable : bool) then
    raise (HTTPException 503 "Database not configured")
  else
    docs ← get_documents "resource"
             (resources_query semester subject status uploaded_by) limit;
    lift_result (map_result clean_doc docs).

(** The binding of the query parameters of [GET /resources]: [status] is
    ["approved"] when the request has none, [limit] is 100. *)
Definition list_resources_request (semester : option Z) (subject : option string)
    (status : option string) (uploaded_by : option string) (limit : option Z)
  : M App (list Doc) :=
  list_resources semester subject (default "approved" status) uploaded_by
    (Some (default 100%Z limit)).

(** main.py, lines 154-162 *)
Definition list_pending (semester : option Z) (subject : option string)
  : M App (list Doc) :=
  let q : Doc := {[ "status" := VStr "pending" ]} in
  let q := match semester with Some n => <["semester" := VInt n]> q | None => q end in
  let q := match subject with
           | Some s => if decide (s = "") then q else <["subject" := VStr s]> q
           | None => q
           end in
  docs ← get_documents "resource" q (Some 200%Z);
  lift_result (map_result clean_doc docs).

(** The fields that [approve_resource] sets (main.py, lines 181-186). *)
Definition approval (now1 now2 : Z) (payload : ApproveRequest.t) : Doc :=
  <["status" := VStr "approved"]>
  (<["approved_by" := VStr (ApproveRequest.approved_by payload)]>
  (<["approved_at" := VDate now1]>
  (<["updated_at" := VDate now2]> ∅))).

(** main.py, lines 169-203. [now1] and [now2] are the two readings of the
    clock, [nid_new] the identifier given to the notification. *)
Definition approve_resource (now1 now2 : Z) (nid_new : N) (resource_id : string)
    (payload : ApproveRequest.t) : M App (option Doc) :=
  rcol ← db_getitem "resource";
  o ← lift_result (oid resource_id);
  doc ← find_one rcol {[ "_id" := o ]};
  match doc with
  | None => raise (HTTPException 404 "Resource not found")
  | Some d =>
      if negb (truthy doc) then raise (HTTPException 404 "Resource not found")
      else if decide (d !! "status" = Some (VStr "approved")) then
        lift_result (clean doc)
      else
        id ← lift_result (getitem d "_id");
        update_one rcol {[ "_id" := id ]} (approval now1 now2 payload);;
        id' ← lift_result (getitem d "_id");
        updated ← find_one rcol {[ "_id" := id' ]};
        match updated with
        | None => raise TypeError
        | Some u =>
            title ← lift_result (getitem u "title");
            uid ← lift_result (getitem u "_id");
            notif ← lift_result
              (NotificationSchema_dump "resource_approved"
                 ("Resource approved: " +:+ py_str title)
                 (VStr (py_str uid))
                 (VStr (ApproveRequest.approved_by payload))
                 (dict_get u "semester") (dict_get u "subject"));
            create_document nid_new "notification" notif;;
            uid' ← lift_result (getitem u "_id");
            call_broadcast
              (<["event" := VStr "resource_approved"]>
              (<["resource_id" := VStr (py_str uid')]> ∅));;
            lift_result (clean updated)
        end
  end.

(** main.py, lines 237-248: the three moments of an event stream. The
    generator subscribes, then repeatedly takes the next message and yields
    it as a [data:] block, and unsubscribes in its [finally] clause. *)
Definition events_open : M App nat := on_broadcaster (subscribe put_raises).

Definition events_next (q : nat) : M App (option Doc) := on_broadcaster (Queue_get q).

Definition events_close (q : nat) : M App () := on_broadcaster (unsubscribe q).

(** main.py, lines 254-261 *)
Definition read_root : M App Doc :=
  mret {[ "message" := VStr "CSE Resource Sharing Platform API" ]}.

Definition hello : M App Doc :=
  mret {[ "message" := VStr "Hello from the backend API!" ]}.

(** main.py, lines 264-273: the list under the key ["models"]. *)
Definition get_schema : M App (list Doc) :=
  mret [ {[ "name" := VStr "user" ]};
         {[ "name" := VStr "resource" ]};
         {[ "name" := VStr "notification" ]} ].

(** main.py, lines 276-302. The handler fills the dictionary [response]
    step by step. A step returns ([None]) or raises an exception, of which
    the two [except] clauses use nothing but the text [str(e)]: [Some text].
    The dictionary is kept as it is when a step raises. *)
Definition Step : Type := Doc → option string * Doc.

(** [response[k] = v] *)
Definition setitem (k : string) (v : Value) : Step := λ r, (None, <[k := v]> r).

Definition raise_text (text : string) : Step := λ r, (Some text, r).

Definition step_seq (s1 s2 : Step) : Step := λ r,
  match s1 r with
  | (None, r') => s2 r'
  | (Some e, r') => (Some e, r')
  end.

(** [try: body except Exception as e: handler (str e)] *)
Definition step_try (body : Step) (handler : string → Step) : Step := λ r,
  match body r with
  | (None, r') => (None, r')
  | (Some e, r') => handler e r'
  end.

(** [text[:n]], on a text of ASCII characters (a character is a byte
    here). *)
Definition str_prefix (n : nat) (text : string) : string :=
  String.substring 0 n text.

Definition ascii_text (text : string) : Prop :=
  Forall (λ c, (N_of_ascii c < 128)%N) (String.list_ascii_of_string text).

(** [database_url] and [database_name] are what [os.getenv] returns for the
    two variables; [list_error] is [None] when [db.list_collection_names()]
    returns (the names of the collections), and the text of the exception
    when it raises. *)
Definition test_database (database_url database_name list_error : option string)
  : M App Doc := λ a,
  let set_or_not (v : option string) : Value :=
    match v with
    | Some x => if decide (x = "") then VStr "❌ Not Set" else VStr "✅ Set"
    | None => VStr "❌ Not Set"
    end in
  let response : Doc :=
    <["backend" := VStr "✅ Running"]>
    (<["database" := VStr "❌ Not Available"]>
    (<["database_url" := VNone]>
    (<["database_name" := VNone]>
    (<["connection_status" := VStr "Not Connected"]>
    (<["collections" := VList []]> ∅))))) in
  let body : Step :=
    step_try
      (match db a with
       | Some s =>
           step_seq (setitem "database" (VStr "✅ Available"))
          (step_seq (setitem "database_url" (set_or_not database_url))
          (step_seq (setitem "database_name" (set_or_not database_name))
          (step_seq (setitem "connection_status" (VStr "Connected"))
          (step_try
             (match list_error with
              | Some text => raise_text text
              | None =>
                  let collections := (map_to_list s).*1 in
                  step_seq (setitem "collections" (VList (take 10 collections)))
                           (setitem "database" (VStr "✅ Connected & Working"))
              end)
             (λ e, setitem "database"
                     (VStr ("⚠️  Connected but Error: " +:+ str_prefix 50 e)))))))
       | None => setitem "database" (VStr "⚠️  Available but not initialized")
       end)
      (λ e, setitem "database" (VStr ("❌ Error: " +:+ str_prefix 50 e))) in
  (Ok (body response).2, a).

(** *** Requests *)

Inductive Request :=
  | ReqLogin (now : Z) (new_id : N) (payload : LoginRequest.t)
  | ReqCreateResource (rid_new nid_new : N) (payload : CreateResourceRequest.t)
  | ReqListResources (semester : option Z) (subject : option string)
      (status : option string) (uploaded_by : option string) (limit : option Z)
  | ReqListPending (semester : option Z) (subject : option string)
  | ReqApprove (now1 now2 : Z) (nid_new : N) (resource_id : string)
      (payload : ApproveRequest.t)
  | ReqEventsOpen
  | ReqEventsNext (q : nat)
  | ReqEventsClose (q : nat)
  | ReqRoot
  | ReqHello
  | ReqSchema
  | ReqTest (database_url database_name list_error : option string).

(** The state after a request has been handled. *)
Definition handle (r : Request) (a : App) : App :=
  match r with
  | ReqLogin now new_id p => (login now new_id p a).2
  | ReqCreateResource rid nid p => (create_resource rid nid p a).2
  | ReqListResources sem subj st upl lim =>
      (list_resources_request sem subj st upl lim a).2
  | ReqListPending sem subj => (list_pending sem subj a).2
  | ReqApprove now1 now2 nid rid p => (approve_resource now1 now2 nid rid p a).2
  | ReqEventsOpen => (events_open a).2
  | ReqEventsNext q => (events_next q a).2
  | ReqEventsClose q => (events_close q a).2
  | ReqRoot => (read_root a).2
  | ReqHello => (hello a).2
  | ReqSchema => (get_schema a).2
  | ReqTest url name err => (test_database url name err a).2
  end.

(** The identifiers of the documents of a collection. *)
Definition ids (a : App) (coll : string) : list N :=
  match db a with
  | Some s => (collection s coll).*1
  | None => []
  end.

(** The driver gives an inserted document an identifier that no document of
    the collection has. *)
Definition fresh_ids (r : Request) (a : App) : Prop :=
  match r with
  | ReqLogin _ new_id _ => valid_oid new_id ∧ (new_id ∉ ids a "user")
  | ReqCreateResource rid nid _ =>
      valid_oid rid ∧ (rid ∉ ids a "resource") ∧
      valid_oid nid ∧ (nid ∉ ids a "notification")
  | ReqApprove _ _ nid _ _ => valid_oid nid ∧ (nid ∉ ids a "notification")
  | _ => True
  end.

(** The states the program reaches from a store without documents (or from
    no store at all). *)
Inductive app_reachable : App → Prop :=
  | app_init_unconfigured : app_reachable (App_init None)
  | app_init_empty : app_reachable (App_init (Some ∅))
  | app_step r a :
      app_reachable a → fresh_ids r a → app_reachable (handle r a).

End Api.

(** ** Invariants of the state *)

(** The two statuses that the program gives to a resource. *)
Definition status_ok (d : N * Doc) : Prop :=
  d.2 !! "status" = Some (VStr "pending") ∨
  d.2 !! "status" = Some (VStr "approved").

(** No two users and no two resources share an identifier, no two users
    share an e-mail address, and every resource is pending or approved. *)
Definition store_wf (s : Store) : Prop :=
  NoDup (collection s "user").*1 ∧
  NoDup ((λ d, d.2 !! "email") <$> collection s "user") ∧
  NoDup (collection s "resource").*1 ∧
  Forall status_ok (collection s "resource").

Definition app_wf (a : App) : Prop :=
  hub_wf (broadcaster a) ∧
  match db a with
  | Some s => store_wf s
  | None => True
  end.

(** How a request changes the users: not at all unless it is a login, which
    updates the first user of that e-mail address or, when there is none,
    adds one at the end. *)
Definition users_effect (r : Request) (s s' : Store) : Prop :=
  collection s' "user" = collection s "user" ∨
  (∃ now id p,
     r = ReqLogin now id p ∧
     collection s' "user" =
     match List.find
             (λ d, matches {[ "email" := VStr (LoginRequest.email p) ]}
                     (full_doc d))
             (collection s "user") with
     | Some d => update_first {[ "_id" := VOid d.1 ]} (user_doc now p)
                   (collection s "user")
     | None => collection s "user" ++ [(id, user_doc now p)]
     end).

(** How a request changes the resources: not at all, or it is an upload that
    adds one resource at the end, or it is the approval of a resource that is
    not yet approved. *)
Definition resources_effect (r : Request) (s s' : Store) : Prop :=
  collection s' "resource" = collection s "resource" ∨
  (∃ rid nid p data,
     r = ReqCreateResource rid nid p ∧
     ResourceSchema_dump p "pending" = Ok data ∧
     collection s' "resource" = collection s "resource" ++ [(rid, data)]) ∨
  (∃ now1 now2 nid rid p o d,
     r = ReqApprove now1 now2 nid rid p ∧
     ObjectId rid = Ok (VOid o) ∧
     List.find (λ d, matches {[ "_id" := VOid o ]} (full_doc d))
       (collection s "resource") = Some d ∧
     d.2 !! "status" ≠ Some (VStr "approved") ∧
     collection s' "resource" =
       update_first {[ "_id" := VOid d.1 ]} (approval now1 now2 p)
         (collection s "resource")).

(** The users stored under an e-mail address. *)
Definition users_with (e : string) (s : Store) : list (N * Doc) :=
  filter (λ d, d.2 !! "email" = Some (VStr e)) (collection s "user").

(** ** Example inputs *)

(** A clock rendering and a rendering of values for the examples. *)
Definition iso_example : Z → string := λ _, "2026-01-01T00:00:00+00:00".
Definition str_example : Value → string := λ _, "None".

Definition ev1 : Doc := {[ "event" := VStr "resource_approved" ]}.
Definition ev2 : Doc := {[ "event" := VStr "resource_created" ]}.

(** A hub with two subscribers, whose queues are 0 and 1. *)
Definition hub2 : Hub :=
  hub_run asyncio_put [OpSubscribe; OpSubscribe] Broadcaster_init.

Definition run_example : list HubOp :=
  [OpBroadcast ev1; OpGet 0; OpBroadcast ev2; OpSubscribe; OpGet 0; OpBroadcast ev1].

Definition upload_notes : CreateResourceRequest.t :=
  CreateResourceRequest.mk "Notes" None 3 "OS" [] None None "a@x.com" None.

Definition approve_by_t : ApproveRequest.t := ApproveRequest.mk "t@x.com".

Definition login_ann : LoginRequest.t :=
  LoginRequest.mk "Ann" "a@x.com" "student" (Some 3%Z).

Definition login_anna : LoginRequest.t :=
  LoginRequest.mk "Anna" "a@x.com" "teacher" None.

(** An empty store; the store after an upload; the store after the approval
    of the uploaded resource. *)
Definition app0 : App := App_init (Some ∅).

Definition app1 : App :=
  handle asyncio_put iso_example str_example
    (ReqCreateResource 1 2 upload_notes) app0.

Definition app2 : App :=
  handle asyncio_put iso_example str_example
    (ReqApprove 10 11 3 (oid_str 1) approve_by_t) app1.

Definition store_of (a : App) : Store := default ∅ (db a).

(** A store holding one resource of each status. *)
Definition app3 : App :=
  App_init (Some {[ "resource" :=
    [ (1%N, {[ "status" := VStr "pending" ]});
      (2%N, {[ "status" := VStr "approved" ]});
      (3%N, {[ "status" := VStr "rejected" ]}) ] ]}).

(** ** What the handlers write and send *)

(** The text of a stored value in a response: a [datetime] becomes its ISO
    text (main.py, lines 41-43). *)
Definition rendered (isoformat : Z → string) (v : Value) : Value :=
  match v with VDate t => VStr (isoformat t) | _ => v end.

(** The notification and the event of an upload (main.py, lines 116-125). *)
Definition created_notification (rid : N) (p : CreateResourceRequest.t) : Doc :=
  <["type" := VStr "resource_created"]>
  (<["message" := VStr ("New resource pending: " +:+ CreateResourceRequest.title p)]>
  (<["resource_id" := VStr (oid_str rid)]>
  (<["created_by" := VStr (CreateResourceRequest.uploaded_by p)]>
  (<["semester" := VInt (CreateResourceRequest.semester p)]>
  (<["subject" := VStr (CreateResourceRequest.subject p)]> ∅))))).

Definition created_event (rid : N) (p : CreateResourceRequest.t) : Doc :=
  <["event" := VStr "resource_created"]>
  (<["resource_id" := VStr (oid_str rid)]>
  (<["title" := VStr (CreateResourceRequest.title p)]> ∅)).

(** The notification and the event of an approval (main.py, lines 192-201). *)
Definition approved_notification (o : N) (title approved_by : string)
    (semester subject : Value) : Doc :=
  <["type" := VStr "resource_approved"]>
  (<["message" := VStr ("Resource approved: " +:+ title)]>
  (<["resource_id" := VStr (oid_str o)]>
  (<["created_by" := VStr approved_by]>
  (<["semester" := semester]>
  (<["subject" := subject]> ∅))))).

Definition approved_event (o : N) : Doc :=
  <["event" := VStr "resource_approved"]>
  (<["resource_id" := VStr (oid_str o)]> ∅).

(** The requests served by a [GET] handler that is no event stream. *)
Definition read_only (r : Request) : bool :=
  match r with
  | ReqListResources _ _ _ _ _ | ReqListPending _ _
  | ReqRoot | ReqHello | ReqSchema | ReqTest _ _ _ => true
  | _ => false
  end.

(** A hub that two clients joined and the first one left. *)
Definition hub_left : Hub :=
  hub_run asyncio_put [OpSubscribe; OpSubscribe; OpUnsubscribe 0] Broadcaster_init.

(** An upload whose semester is out of range. *)
Definition upload_semester_9 : CreateResourceRequest.t :=
  CreateResourceRequest.mk "Notes" None 9 "OS" [] None None "a@x.com" None.

(** The fields of the first resource of a state. *)
Definition first_resource (a : App) : Doc :=
  default ∅ (snd <$> head (collection (store_of a) "resource")).

(** What [clean] makes of a dictionary (empty when it raises). *)
Definition cleaned_example (d : Doc) : Doc :=
  match clean_doc iso_example str_example d with
  | Ok c => c
  | Raise _ => ∅
  end.

(** The store after a first login. *)
Definition app_ann : App :=
  handle asyncio_put iso_example str_example (ReqLogin 5 1 login_ann) app0.

(** A state with one open event stream, and one whose stream was closed. *)
Definition app_open : App :=
  handle asyncio_put iso_example str_example ReqEventsOpen app0.

Definition app_closed : App :=
  handle asyncio_put iso_example str_example (ReqEventsClose 0) app_open.

(** ** Runs of requests and the access to the broadcaster *)

(** The state after a sequence of requests, handled one after the other. *)
Definition handle_all (put_raises : nat → Doc → bool) (isoformat : Z → string)
    (str_other : Value → string) (rs : list Request) (a : App) : App :=
  foldl (λ a r, handle put_raises isoformat str_other r a) a rs.

(** A computation that does nothing to the broadcaster but call
    [broadcast], any number of times. *)
Definition broadcasts_only (put_raises : nat → Doc → bool) {A} (m : M App A) : Prop :=
  ∀ a, ∃ ms, broadcaster (m a).2 =
             hub_run put_raises (OpBroadcast <$> ms) (broadcaster a).

(** * Properties *)

(** ** The broadcaster *)

Lemma filter_ne_absent (x : nat) (l : list nat) :
  x ∉ l → filter (λ y, y ≠ x) l = l.
Proof.
  induction l as [|y l IH]; [done|].
  rewrite not_elem_of_cons. intros [Hxy Hl].
  rewrite filter_cons_True by congruence. by rewrite IH.
Qed.

Lemma list_remove_None x l : list_remove x l = None ↔ x ∉ l.
Proof.
  induction l as [|y l IH]; simpl.
  - split; [intros _; apply not_elem_of_nil | done].
  - case_decide as Hxy.
    + subst. split; [done | intros []; left].
    + rewrite fmap_None, IH, not_elem_of_cons. tauto.
Qed.

Lemma list_remove_Some x l l' :
  NoDup l → list_remove x l = Some l' →
  x ∈ l ∧ l' = filter (λ y, y ≠ x) l.
Proof.
  intros Hnd. revert l'.
  induction Hnd as [|y l Hy Hnd IH]; intros l'; simpl; [done|].
  case_decide as Hxy.
  - intros [= <-]. subst y. split; [left|].
    rewrite filter_cons_False by (intros H; by apply H).
    by rewrite filter_ne_absent.
  - destruct (list_remove x l) as [l0|] eqn:Hrm; [|done].
    intros [= <-]. destruct (IH l0 eq_refl) as [Hin ->].
    split; [by right|]. by rewrite filter_cons_True by congruence.
Qed.

Lemma for_each_cons {S A} (x : A) (l : list A) (body : A → M S ()) (s : S) :
  for_each (x :: l) body s =
  match body x s with
  | (Ok _, s') => for_each l body s'
  | (Raise e, s') => (Raise e, s')
  end.
Proof. reflexivity. Qed.

Lemma unsubscribe_unfold (q : nat) (h : Hub) :
  unsubscribe q h =
  (Ok (), match list_remove q (subscribers h) with
          | Some l => {| subscribers := l; heap := heap h; next_q := next_q h |}
          | None => h
          end).
Proof.
  unfold unsubscribe, try_except, subscribers_remove.
  by destruct (list_remove q (subscribers h)).
Qed.

Lemma unsubscribe_spec (c : nat) (h : Hub) :
  NoDup (subscribers h) →
  ∃ h1, unsubscribe c h = (Ok (), h1) ∧
        subscribers h1 = filter (λ q, q ≠ c) (subscribers h) ∧
        heap h1 = heap h ∧
        (c ∉ subscribers h → h1 = h).
Proof.
  intros Hnd. rewrite unsubscribe_unfold. eexists. split; [done|].
  destruct (list_remove c (subscribers h)) as [l|] eqn:Hrm; simpl.
  - apply list_remove_Some in Hrm as [Hin ->]; [|done]. by repeat split.
  - apply list_remove_None in Hrm. rewrite filter_ne_absent by done.
    by repeat split.
Qed.

(** The invariant holds of the initial hub and every operation keeps it. *)
Lemma hub_wf_init : hub_wf Broadcaster_init.
Proof.
  split; [constructor|]. split.
  - intros q Hq. by apply not_elem_of_nil in Hq.
  - intros q. simpl. rewrite lookup_empty. split; [by intros [? ?] | lia].
Qed.

Section BroadcasterFacts.

Variable put_raises : nat → Doc → bool.

(** One iteration of the loop of [broadcast]: the exception of the enqueue
    is swallowed. *)
Lemma try_put (q : nat) (m : Doc) (h : Hub) :
  try_except (Queue_put put_raises q m) (λ _, mret ()) h =
  (Ok (), if put_raises q m then h else
            {| subscribers := subscribers h;
               heap := alter (λ items, items ++ [m]) q (heap h);
               next_q := next_q h |}).
Proof. unfold try_except, Queue_put. by destruct (put_raises q m). Qed.

(** The loop of [broadcast] over a list of distinct queues: it returns, and
    each queue of the list gets the message appended once (nothing when its
    enqueue raises); nothing else changes. *)
Lemma fanout_spec (m : Doc) (l : list nat) (h : Hub) :
  NoDup l →
  ∃ h', for_each l (λ q, try_except (Queue_put put_raises q m) (λ _, mret ())) h
          = (Ok (), h') ∧
        subscribers h' = subscribers h ∧
        next_q h' = next_q h ∧
        ∀ c, heap h' !! c =
             if decide (c ∈ l)
             then (λ items, items ++ (if put_raises c m then [] else [m]))
                    <$> heap h !! c
             else heap h !! c.
Proof.
  intros Hnd. revert h.
  induction Hnd as [|q l Hq Hnd IH]; intros h.
  - exists h. by repeat split.
  - rewrite for_each_cons, try_put.
    match goal with |- context [for_each l _ ?h0] =>
      destruct (IH h0) as (h' & -> & Hs & Hn & Hh) end.
    exists h'. split; [done|].
    split; [rewrite Hs; by destruct (put_raises q m)|].
    split; [rewrite Hn; by destruct (put_raises q m)|].
    intros c. rewrite Hh.
    destruct (decide (c = q)) as [->|Hne].
    + rewrite decide_False by done. rewrite decide_True by left.
      destruct (put_raises q m); simpl.
      * destruct (heap h !! q); simpl; by rewrite ?app_nil_r.
      * by rewrite lookup_alter_eq.
    + assert (heap (if put_raises q m then h else
               {| subscribers := subscribers h;
                  heap := alter (λ items, items ++ [m]) q (heap h);
                  next_q := next_q h |}) !! c = heap h !! c) as ->.
      { destruct (put_raises q m); simpl; [done|]. by rewrite lookup_alter_ne. }
      destruct (decide (c ∈ l)) as [Hin|Hin].
      * by rewrite decide_True by (by right).
      * rewrite decide_False; [done|]. rewrite not_elem_of_cons. tauto.
Qed.

Lemma broadcast_spec (m : Doc) (h : Hub) :
  NoDup (subscribers h) →
  ∃ h', broadcast put_raises m h = (Ok (), h') ∧
        subscribers h' = subscribers h ∧
        next_q h' = next_q h ∧
        ∀ c, heap h' !! c =
             if decide (c ∈ subscribers h)
             then (λ items, items ++ (if put_raises c m then [] else [m]))
                    <$> heap h !! c
             else heap h !! c.
Proof.
  intros Hnd. unfold broadcast, mbind, M_bind, get_state.
  by apply fanout_spec.
Qed.

Lemma subscribe_unfold (h : Hub) :
  subscribe put_raises h =
  let q := next_q h in
  if put_raises q connected then
    (Raise QueueFault,
     {| subscribers := subscribers h ++ [q];
        heap := <[q := []]> (heap h);
        next_q := S q |})
  else
    (Ok q,
     {| subscribers := subscribers h ++ [q];
        heap := <[q := [connected]]> (heap h);
        next_q := S q |}).
Proof.
  unfold subscribe, mbind, M_bind, Queue_new, subscribers_append, modify,
    Queue_put. simpl.
  destruct (put_raises (next_q h) connected); [done|].
  unfold mret, M_ret. do 2 f_equal.
  apply map_eq. intros i. destruct (decide (i = next_q h)) as [->|Hne].
  - by rewrite lookup_alter_eq, !lookup_insert_eq.
  - by rewrite lookup_alter_ne, !lookup_insert_ne.
Qed.

Lemma hub_wf_step (op : HubOp) (h : Hub) :
  hub_wf h → hub_wf (hub_step put_raises op h).
Proof.
  intros (Hnd & Hsub & Hheap). destruct op as [|q|m|q]; simpl.
  - rewrite subscribe_unfold. simpl.
    assert (NoDup (subscribers h ++ [next_q h])) as Hnd'.
    { apply NoDup_app. split; [done|]. split; [|apply NoDup_singleton].
      intros x Hx ->%list_elem_of_singleton. apply Hsub in Hx. lia. }
    assert (∀ q, q ∈ subscribers h ++ [next_q h] → q < S (next_q h)) as Hsub'.
    { intros q [Hq| ->%list_elem_of_singleton]%elem_of_app; [|lia].
      apply Hsub in Hq. lia. }
    destruct (put_raises (next_q h) connected); simpl;
      (split; [done|]; split; [done|]); intros q; simpl;
      (destruct (decide (q = next_q h)) as [->|Hne];
       [rewrite lookup_insert_eq; split; [lia | by eauto]
       |rewrite lookup_insert_ne by done; rewrite Hheap; lia]).
  - rewrite unsubscribe_unfold. simpl.
    destruct (list_remove q (subscribers h)) as [l|] eqn:Hrm; [|done].
    apply list_remove_Some in Hrm as [_ ->]; [|done].
    split; [by apply NoDup_filter|]. split; [|done].
    intros x [_ Hx]%list_elem_of_filter. by apply Hsub.
  - destruct (broadcast_spec m h Hnd) as (h' & -> & Hs & Hn & Hh). simpl.
    split; [by rewrite Hs|]. split; [rewrite Hs, Hn; done|].
    intros q. rewrite Hn, <- Hheap, Hh.
    destruct (decide (q ∈ subscribers h)); [|done].
    by rewrite fmap_is_Some.
  - unfold Queue_get.
    destruct (heap h !! q) as [[|item items]|] eqn:Hq; simpl;
      try done.
    split; [done|]. split; [done|]. intros c. simpl.
    destruct (decide (c = q)) as [->|Hne].
    + rewrite lookup_insert_eq. rewrite <- Hheap, Hq. split; eauto.
    + rewrite lookup_insert_ne by done. apply Hheap.
Qed.

Lemma hub_wf_run (ops : list HubOp) (h : Hub) :
  hub_wf h → hub_wf (hub_run put_raises ops h).
Proof.
  revert h. induction ops as [|op ops IH]; intros h Hwf; [done|].
  simpl. apply IH. by apply hub_wf_step.
Qed.

Lemma hub_reachable_wf (h : Hub) : hub_reachable put_raises h → hub_wf h.
Proof.
  induction 1 as [|h op _ IH]; [apply hub_wf_init | by apply hub_wf_step].
Qed.

Lemma next_q_step (op : HubOp) (h : Hub) :
  hub_wf h → (next_q h ≤ next_q (hub_step put_raises op h))%nat.
Proof.
  intros (Hnd & _). destruct op as [|q|m|q]; simpl.
  - rewrite subscribe_unfold. simpl.
    destruct (put_raises (next_q h) connected); simpl; lia.
  - rewrite unsubscribe_unfold. simpl.
    by destruct (list_remove q (subscribers h)).
  - destruct (broadcast_spec m h Hnd) as (h' & -> & _ & Hn & _). simpl. lia.
  - unfold Queue_get. by destruct (heap h !! q) as [[|? ?]|].
Qed.

Lemma next_q_run (ops : list HubOp) (h : Hub) :
  hub_wf h → (next_q h ≤ next_q (hub_run put_raises ops h))%nat.
Proof.
  revert h. induction ops as [|op ops IH]; intros h Hwf; [done|].
  simpl. etrans; [by apply (next_q_step op)|].
  apply IH. by apply hub_wf_step.
Qed.

(** One operation seen from an existing queue [c]: what its consumer takes
    comes off the front, what is enqueued goes to the back. *)
Lemma queue_step (c : nat) (op : HubOp) (h : Hub) :
  hub_wf h → c < next_q h →
  taken c op h ++ queue_items (hub_step put_raises op h) c =
  queue_items h c ++ enqueued_by put_raises c op h.
Proof.
  intros (Hnd & Hsub & Hheap) Hc. unfold queue_items.
  destruct op as [|q|m|q]; simpl; rewrite ?app_nil_r.
  - rewrite subscribe_unfold. simpl.
    destruct (put_raises (next_q h) connected); simpl;
      by rewrite lookup_insert_ne by lia.
  - rewrite unsubscribe_unfold. simpl.
    by destruct (list_remove q (subscribers h)).
  - destruct (broadcast_spec m h Hnd) as (h' & -> & _ & _ & Hh). simpl.
    rewrite Hh. destruct (decide (c ∈ subscribers h)).
    + apply Hheap in Hc as [items ->]. done.
    + by rewrite app_nil_r.
  - unfold Queue_get. destruct (decide (q = c)) as [->|Hne].
    + destruct (heap h !! c) as [[|item items]|] eqn:Hq; simpl;
        rewrite ?Hq; try done.
      by rewrite lookup_insert_eq.
    + destruct (heap h !! q) as [[|item items]|] eqn:Hq; simpl; try done.
      by rewrite lookup_insert_ne.
Qed.

(** Over a whole run: the messages taken, followed by those still queued,
    are the initial content followed by the messages enqueued, in order. *)
Lemma queue_run (c : nat) (ops : list HubOp) (h : Hub) :
  hub_wf h → c < next_q h →
  received put_raises c ops h ++ queue_items (hub_run put_raises ops h) c =
  queue_items h c ++ enqueued put_raises c ops h.
Proof.
  revert h. induction ops as [|op ops IH]; intros h Hwf Hc; simpl.
  - by rewrite app_nil_r.
  - rewrite <- app_assoc, IH.
    + by rewrite !app_assoc, queue_step.
    + by apply hub_wf_step.
    + pose proof (next_q_step op h Hwf). lia.
Qed.

Lemma enqueued_sublist (c : nat) (ops : list HubOp) (h : Hub) :
  sublist (enqueued put_raises c ops h) (broadcasts ops).
Proof.
  revert h. induction ops as [|op ops IH]; intros h; simpl; [done|].
  unfold broadcasts. simpl. destruct op as [|q|m|q]; simpl; try apply IH.
  destruct (decide (c ∈ subscribers h)); simpl.
  - destruct (put_raises c m); simpl.
    + apply sublist_cons, IH.
    + apply sublist_skip, IH.
  - apply sublist_cons, IH.
Qed.

Lemma hub_reachable_run (ops : list HubOp) (h : Hub) :
  hub_reachable put_raises h → hub_reachable put_raises (hub_run put_raises ops h).
Proof.
  revert h. induction ops as [|op ops IH]; intros h Hr; [done|].
  simpl. apply IH. by constructor.
Qed.

(** A registered queue stays registered until it is unsubscribed. *)
Lemma subscribed_step (c : nat) (op : HubOp) (h : Hub) :
  hub_wf h → c ∈ subscribers h → op ≠ OpUnsubscribe c →
  c ∈ subscribers (hub_step put_raises op h).
Proof.
  intros Hwf Hc Hop. pose proof Hwf as (Hnd & _).
  destruct op as [|q|m|q]; simpl.
  - rewrite subscribe_unfold. simpl.
    destruct (put_raises (next_q h) connected); simpl;
      apply elem_of_app; by left.
  - rewrite unsubscribe_unfold. simpl.
    destruct (list_remove q (subscribers h)) as [l|] eqn:Hrm; [|done].
    apply list_remove_Some in Hrm as [_ ->]; [|done].
    apply list_elem_of_filter. split; [congruence | done].
  - destruct (broadcast_spec m h Hnd) as (h' & -> & Hs & _). simpl.
    by rewrite Hs.
  - unfold Queue_get. by destruct (heap h !! q) as [[|? ?]|].
Qed.

(** [broadcast] in terms of the queue contents. *)
Lemma broadcast_items (E : Doc) (h : Hub) :
  hub_wf h →
  ∃ h', broadcast put_raises E h = (Ok (), h') ∧
        subscribers h' = subscribers h ∧
        NoDup (subscribers h) ∧
        (∀ c, c ∈ subscribers h →
              queue_items h' c =
              queue_items h c ++ (if put_raises c E then [] else [E])) ∧
        (∀ c, c ∉ subscribers h → heap h' !! c = heap h !! c).
Proof.
  intros (Hnd & Hsub & Hheap).
  destruct (broadcast_spec E h Hnd) as (h' & Hb & Hs & _ & Hh).
  exists h'. repeat split; try done.
  - intros c Hc. unfold queue_items. rewrite Hh, decide_True by done.
    apply Hsub, Hheap in Hc as [items ->]. done.
  - intros c Hc. by rewrite Hh, decide_False.
Qed.

Lemma enqueued_subscribed (c : nat) (ops : list HubOp) (h : Hub) :
  hub_wf h → c ∈ subscribers h → unsubscribes c ops = false →
  enqueued put_raises c ops h =
  filter (λ m, put_raises c m = false) (broadcasts ops).
Proof.
  revert h. induction ops as [|op ops IH]; intros h Hwf Hc Hun; [done|].
  simpl in Hun. apply orb_false_iff in Hun as [Hop Hun].
  assert (op ≠ OpUnsubscribe c) as Hne.
  { intros ->. by rewrite bool_decide_eq_true_2 in Hop. }
  simpl. rewrite IH; [|by apply hub_wf_step|by apply subscribed_step|done].
  unfold broadcasts. destruct op as [|q|m|q]; simpl; try done.
  rewrite decide_True by done.
  destruct (put_raises c m) eqn:Hf.
  - rewrite filter_cons_False by congruence. done.
  - rewrite filter_cons_True by done. done.
Qed.

End BroadcasterFacts.

(** C1. From every reachable state of the hub, [broadcast(E)] returns without
    an exception and appends [E] exactly once to the queue of each subscriber
    registered when it was called (the snapshot); where the enqueue onto a
    queue raises, that queue alone misses [E]. The subscriber list and the
    queues outside the snapshot are unchanged. *)
Theorem broadcast_fanout (put_raises : nat → Doc → bool) (h : Hub) (E : Doc) :
  hub_reachable put_raises h →
  ∃ h', broadcast put_raises E h = (Ok (), h') ∧
        subscribers h' = subscribers h ∧
        NoDup (subscribers h) ∧
        (∀ c, c ∈ subscribers h →
              queue_items h' c =
              queue_items h c ++ (if put_raises c E then [] else [E])) ∧
        (∀ c, c ∉ subscribers h → heap h' !! c = heap h !! c).
Proof. intros Hr. apply hub_reachable_wf in Hr. by apply broadcast_items. Qed.

(** C2. For a registered queue [c] and any run of the hub: what the consumer
    of [c] has taken, followed by what is still queued, is the initial content
    of [c] followed by the messages enqueued during the run, and these are in
    the order of the [broadcast] calls; as long as [c] is not unsubscribed they
    are all the broadcast messages whose enqueue did not raise. *)
Theorem fifo_per_subscriber (put_raises : nat → Doc → bool) (h : Hub)
    (ops : list HubOp) (c : nat) :
  hub_reachable put_raises h →
  c ∈ subscribers h →
  received put_raises c ops h ++ queue_items (hub_run put_raises ops h) c =
    queue_items h c ++ enqueued put_raises c ops h ∧
  sublist (enqueued put_raises c ops h) (broadcasts ops) ∧
  (unsubscribes c ops = false →
   enqueued put_raises c ops h =
   filter (λ m, put_raises c m = false) (broadcasts ops)).
Proof.
  intros Hr Hc. apply hub_reachable_wf in Hr. pose proof Hr as (_ & Hsub & _).
  split; [apply queue_run; auto|].
  split; [apply enqueued_sublist|].
  by apply enqueued_subscribed.
Qed.

(** C3. [subscribe()] on a reachable hub returns a queue that did not exist
    before, appends it to the subscriber list and leaves [connected] as its
    only item. A queue created after [E] was broadcast is no queue of the
    state in which [E] was broadcast, and over any later run its messages
    are [connected] followed by messages broadcast after its creation. *)
Theorem subscribe_fresh_connected (h0 : Hub) (E : Doc) (ops1 ops2 : list HubOp) :
  hub_reachable asyncio_put h0 →
  let h1 := hub_run asyncio_put (OpBroadcast E :: ops1) h0 in
  ∃ q h2,
    subscribe asyncio_put h1 = (Ok q, h2) ∧
    heap h0 !! q = None ∧ heap h1 !! q = None ∧ (q ∉ subscribers h1) ∧
    subscribers h2 = subscribers h1 ++ [q] ∧
    queue_items h2 q = [connected] ∧
    (∀ c, c ≠ q → heap h2 !! c = heap h1 !! c) ∧
    received asyncio_put q ops2 h2 ++ queue_items (hub_run asyncio_put ops2 h2) q =
      connected :: enqueued asyncio_put q ops2 h2 ∧
    sublist (enqueued asyncio_put q ops2 h2) (broadcasts ops2).
Proof.
  intros Hr h1.
  assert (hub_wf h0) as Hwf0 by (by apply hub_reachable_wf in Hr).
  assert (hub_wf h1) as Hwf1 by (by apply hub_wf_run).
  assert (next_q h0 ≤ next_q h1)%nat as Hle by (by apply next_q_run).
  pose proof Hwf1 as (Hnd & Hsub & Hheap).
  pose proof Hwf0 as (_ & _ & Hheap0).
  set (h2 := {| subscribers := subscribers h1 ++ [next_q h1];
                heap := <[next_q h1:=[connected]]> (heap h1);
                next_q := S (next_q h1) |}).
  assert (subscribe asyncio_put h1 = (Ok (next_q h1), h2)) as Hsubscr
    by (by rewrite subscribe_unfold).
  assert (hub_wf h2) as Hwf2.
  { replace h2 with (hub_step asyncio_put OpSubscribe h1)
      by (unfold hub_step; by rewrite Hsubscr).
    by apply hub_wf_step. }
  assert (queue_items h2 (next_q h1) = [connected]) as Hq.
  { unfold queue_items. simpl. by rewrite lookup_insert_eq. }
  exists (next_q h1), h2.
  split; [done|].
  split. { apply eq_None_not_Some. rewrite Hheap0. lia. }
  split. { apply eq_None_not_Some. rewrite Hheap. lia. }
  split. { intros Hin%Hsub. lia. }
  split; [done|].
  split; [done|].
  split. { intros c Hc. simpl. by rewrite lookup_insert_ne. }
  split; [|apply enqueued_sublist].
  rewrite queue_run, Hq; [done | done | simpl; lia].
Qed.

(** C6. On a reachable hub, [unsubscribe(c)] returns without an exception and
    leaves exactly the other subscribers registered, touching no queue; when
    [c] is not registered it changes nothing at all. A [broadcast] after it
    returns without an exception, leaves the queue of [c] as it was and still
    delivers to every remaining subscriber. *)
Theorem unsubscribe_then_broadcast (put_raises : nat → Doc → bool) (h : Hub)
    (c : nat) (E : Doc) :
  hub_reachable put_raises h →
  ∃ h1 h2,
    unsubscribe c h = (Ok (), h1) ∧
    subscribers h1 = filter (λ q, q ≠ c) (subscribers h) ∧
    (c ∉ subscribers h1) ∧
    heap h1 = heap h ∧
    (c ∉ subscribers h → h1 = h) ∧
    broadcast put_raises E h1 = (Ok (), h2) ∧
    subscribers h2 = subscribers h1 ∧
    heap h2 !! c = heap h !! c ∧
    (∀ q, q ∈ subscribers h → q ≠ c →
          queue_items h2 q =
          queue_items h q ++ (if put_raises q E then [] else [E])).
Proof.
  intros Hr. apply hub_reachable_wf in Hr.
  pose proof (hub_wf_step put_raises (OpUnsubscribe c) h Hr) as Hwf1.
  destruct Hr as (Hnd & Hsub & Hheap).
  destruct (unsubscribe_spec c h Hnd) as (h1 & Hun & Hsubs & Hhp & Hsame).
  simpl in Hwf1. rewrite Hun in Hwf1. simpl in Hwf1.
  destruct (broadcast_items put_raises E h1 Hwf1)
    as (h2 & Hb & Hs2 & Hnd1 & Hin & Hout).
  assert (c ∉ subscribers h1) as Hc.
  { rewrite Hsubs. intros [Hne _]%list_elem_of_filter. done. }
  exists h1, h2. repeat split; try done.
  - by rewrite Hout, Hhp.
  - intros q Hq Hne. rewrite Hin.
    + unfold queue_items. by rewrite Hhp.
    + rewrite Hsubs. by apply list_elem_of_filter.
Qed.

(** ** The broadcaster: more on registration *)

Lemma not_subscribed_step (put_raises : nat → Doc → bool) (q : nat)
    (op : HubOp) (h : Hub) :
  hub_wf h → q < next_q h → q ∉ subscribers h →
  q ∉ subscribers (hub_step put_raises op h).
Proof.
  intros (Hnd & Hsub & Hheap) Hq Hout. destruct op as [|c|m|c]; simpl.
  - rewrite subscribe_unfold. simpl.
    destruct (put_raises (next_q h) connected); simpl;
      (intros [Hin| ->%list_elem_of_singleton]%elem_of_app; [done | lia]).
  - rewrite unsubscribe_unfold. simpl.
    destruct (list_remove c (subscribers h)) as [l|] eqn:Hrm; [|done].
    apply list_remove_Some in Hrm as [_ ->]; [|done].
    by intros [_ Hin]%list_elem_of_filter.
  - destruct (broadcast_spec put_raises m h Hnd) as (h' & -> & Hs & _). simpl.
    by rewrite Hs.
  - unfold Queue_get. by destruct (heap h !! c) as [[|? ?]|].
Qed.

Lemma hub_run_app (put_raises : nat → Doc → bool) (ops1 ops2 : list HubOp) (h : Hub) :
  hub_run put_raises (ops1 ++ ops2) h =
  hub_run put_raises ops2 (hub_run put_raises ops1 h).
Proof. apply foldl_app. Qed.

Lemma not_subscribed_run (put_raises : nat → Doc → bool) (q : nat)
    (ops : list HubOp) (h : Hub) :
  hub_wf h → q < next_q h → q ∉ subscribers h →
  (q ∉ subscribers (hub_run put_raises ops h)) ∧
  enqueued put_raises q ops h = [].
Proof.
  revert h. induction ops as [|op ops IH]; intros h Hwf Hq Hout; [done|].
  cbn [hub_run foldl enqueued].
  destruct (IH (hub_step put_raises op h)) as [H1 H2].
  - by apply hub_wf_step.
  - pose proof (next_q_step put_raises op h Hwf). lia.
  - by apply not_subscribed_step.
  - split; [exact H1|]. rewrite H2, app_nil_r.
    destruct op; cbn [enqueued_by]; try done. by rewrite decide_False.
Qed.

Lemma received_no_get (put_raises : nat → Doc → bool) (c : nat)
    (ops : list HubOp) (h : Hub) :
  Forall (λ op, op ≠ OpGet c) ops → received put_raises c ops h = [].
Proof.
  revert h. induction ops as [|op ops IH]; intros h Hops; [done|].
  apply Forall_cons in Hops as [Hop Hops]. cbn [received].
  rewrite IH by done. rewrite app_nil_r.
  destruct op as [| | |q]; try done. cbn [taken].
  rewrite decide_False; [done|]. by intros ->.
Qed.

(** X1. A queue that exists and is not registered (it was unsubscribed) is never
    registered again, whatever happens next: no later [broadcast] enqueues
    anything onto it, and what its consumer still takes comes from what was
    queued before. *)
Theorem unsubscribed_stays_out (put_raises : nat → Doc → bool) (h : Hub)
    (ops : list HubOp) (q : nat) :
  hub_reachable put_raises h →
  q < next_q h →
  q ∉ subscribers h →
  (q ∉ subscribers (hub_run put_raises ops h)) ∧
  enqueued put_raises q ops h = [] ∧
  received put_raises q ops h ++ queue_items (hub_run put_raises ops h) q =
    queue_items h q.
Proof.
  intros Hr Hq Hout. apply hub_reachable_wf in Hr.
  destruct (not_subscribed_run put_raises q ops h Hr Hq Hout) as [H1 H2].
  split; [done|]. split; [done|].
  by rewrite queue_run, H2, app_nil_r.
Qed.

(** X2. A client that connects and disconnects at once: on a reachable hub,
    [subscribe] followed by [unsubscribe] of the queue it returned leaves the
    subscriber list as it was and the other queues untouched; the queue
    itself still holds its [connected] message. *)
Theorem subscribe_then_unsubscribe (h : Hub) :
  hub_reachable asyncio_put h →
  ∃ q h1 h2,
    subscribe asyncio_put h = (Ok q, h1) ∧
    unsubscribe q h1 = (Ok (), h2) ∧
    subscribers h2 = subscribers h ∧
    heap h2 !! q = Some [connected] ∧
    (∀ c, c ≠ q → heap h2 !! c = heap h !! c).
Proof.
  intros Hr. apply hub_reachable_wf in Hr.
  set (h1 := {| subscribers := subscribers h ++ [next_q h];
                heap := <[next_q h:=[connected]]> (heap h);
                next_q := S (next_q h) |}).
  assert (subscribe asyncio_put h = (Ok (next_q h), h1)) as Hsubscr
    by (by rewrite subscribe_unfold).
  assert (hub_wf h1) as (Hnd1 & _).
  { replace h1 with (hub_step asyncio_put OpSubscribe h)
      by (unfold hub_step; by rewrite Hsubscr).
    by apply hub_wf_step. }
  destruct Hr as (Hnd & Hsub & Hheap).
  destruct (unsubscribe_spec (next_q h) h1 Hnd1) as (h2 & Hun & Hs & Hhp & _).
  exists (next_q h), h1, h2. split; [done|]. split; [exact Hun|].
  cbn [subscribers heap h1] in Hs, Hhp.
  split; [|split].
  - rewrite Hs, filter_app, filter_ne_absent.
    + rewrite filter_cons_False, filter_nil by (intros H; by apply H).
      by rewrite app_nil_r.
    + intros Hin%Hsub. lia.
  - by rewrite Hhp, lookup_insert_eq.
  - intros c Hc. by rewrite Hhp, lookup_insert_ne.
Qed.

(** ** The document store *)

Lemma collection_insert (s : Store) (c c' : string) (l : list (N * Doc)) :
  collection (<[c := l]> s) c' = if decide (c = c') then l else collection s c'.
Proof.
  unfold collection. case_decide as Hc.
  - subst. by rewrite lookup_insert_eq.
  - by rewrite lookup_insert_ne.
Qed.

Lemma full_doc_id (d : N * Doc) : full_doc d !! "_id" = Some (VOid d.1).
Proof. unfold full_doc. by rewrite lookup_insert_eq. Qed.

Lemma full_doc_field (d : N * Doc) (k : string) :
  k ≠ "_id" → full_doc d !! k = d.2 !! k.
Proof. intros Hk. unfold full_doc. by rewrite lookup_insert_ne. Qed.

Lemma full_doc_nonempty (d : N * Doc) : full_doc d ≠ ∅.
Proof. intros H. pose proof (full_doc_id d) as Hid. by rewrite H in Hid. Qed.

Lemma truthy_full_doc (d : N * Doc) : truthy (Some (full_doc d)) = true.
Proof. apply bool_decide_eq_true_2, full_doc_nonempty. Qed.

Lemma matches_singleton (k : string) (v : Value) (d : Doc) :
  matches {[ k := v ]} d = bool_decide (d !! k = Some v).
Proof.
  unfold matches. apply bool_decide_ext.
  apply (map_Forall_singleton (λ k v, d !! k = Some v)).
Qed.

Lemma matches_id (o : N) (d : N * Doc) :
  matches {[ "_id" := VOid o ]} (full_doc d) = bool_decide (d.1 = o).
Proof.
  rewrite matches_singleton, full_doc_id. apply bool_decide_ext.
  split; [by intros [= ->] | by intros ->].
Qed.

Lemma matches_field (k : string) (v : Value) (d : N * Doc) :
  k ≠ "_id" → matches {[ k := v ]} (full_doc d) = bool_decide (d.2 !! k = Some v).
Proof. intros Hk. by rewrite matches_singleton, full_doc_field. Qed.

Lemma update_first_ids (q upd : Doc) (l : list (N * Doc)) :
  (update_first q upd l).*1 = l.*1.
Proof.
  induction l as [|d l IH]; [done|]. cbn [update_first].
  destruct (matches q (full_doc d)); rewrite !fmap_cons; [done | by rewrite IH].
Qed.

Lemma update_first_length (q upd : Doc) (l : list (N * Doc)) :
  length (update_first q upd l) = length l.
Proof.
  induction l as [|d l IH]; [done|]. simpl.
  destruct (matches q (full_doc d)); simpl; [done | by rewrite IH].
Qed.

(** What [find] returns is the first element that the test selects. *)
Lemma find_split {A} (P : A → bool) (l : list A) (x : A) :
  List.find P l = Some x →
  ∃ l1 l2, l = l1 ++ x :: l2 ∧ P x = true ∧ Forall (λ y, P y = false) l1.
Proof.
  induction l as [|y l IH]; simpl; [done|].
  destruct (P y) eqn:Hy.
  - intros [= ->]. exists [], l. by repeat split.
  - intros (l1 & l2 & -> & Hx & Hl1)%IH.
    exists (y :: l1), l2. repeat split; try done. by constructor.
Qed.

Lemma find_none {A} (P : A → bool) (l : list A) :
  List.find P l = None → Forall (λ y, P y = false) l.
Proof.
  induction l as [|y l IH]; simpl; [by constructor|].
  destruct (P y) eqn:Hy; [done|]. intros H. constructor; auto.
Qed.

Lemma find_first {A} (P : A → bool) (l1 l2 : list A) (x : A) :
  Forall (λ y, P y = false) l1 → P x = true →
  List.find P (l1 ++ x :: l2) = Some x.
Proof.
  induction 1 as [|y l1 Hy _ IH]; intros Hx; simpl.
  - by rewrite Hx.
  - rewrite Hy. by apply IH.
Qed.

Lemma update_first_split (q upd : Doc) (l1 l2 : list (N * Doc)) (d : N * Doc) :
  Forall (λ y, matches q (full_doc y) = false) l1 →
  matches q (full_doc d) = true →
  update_first q upd (l1 ++ d :: l2) = l1 ++ (d.1, upd ∪ d.2) :: l2.
Proof.
  induction 1 as [|y l1 Hy _ IH]; intros Hd; simpl.
  - by rewrite Hd.
  - rewrite Hy. by rewrite IH.
Qed.

Lemma update_first_none (q upd : Doc) (l : list (N * Doc)) :
  Forall (λ y, matches q (full_doc y) = false) l → update_first q upd l = l.
Proof.
  induction 1 as [|y l Hy _ IH]; simpl; [done|]. by rewrite Hy, IH.
Qed.

(** In a collection without two documents of one identifier, the identifier
    of a document selects that document. *)
Lemma id_selects (l1 l2 : list (N * Doc)) (d : N * Doc) :
  NoDup (l1 ++ d :: l2).*1 →
  Forall (λ y, matches {[ "_id" := VOid d.1 ]} (full_doc y) = false) l1 ∧
  matches {[ "_id" := VOid d.1 ]} (full_doc d) = true.
Proof.
  rewrite fmap_app, fmap_cons. intros (_ & Hl1 & _)%NoDup_app.
  split.
  - apply Forall_forall. intros y Hy. rewrite matches_id.
    apply bool_decide_eq_false_2. intros Heq.
    apply (Hl1 y.1); [by apply list_elem_of_fmap_2 | rewrite Heq; left].
  - rewrite matches_id. by apply bool_decide_eq_true_2.
Qed.

(** ** ObjectId: the text form reads back *)

Lemma hex_value_digit (d : N) : (d < 16)%N → hex_value (hex_digit d) = Some d.
Proof.
  intros Hd. destruct d as [|p]; [reflexivity|].
  do 4 (try destruct p as [p|p|]); try reflexivity; lia.
Qed.

Lemma length_list_ascii (x : string) :
  length (String.list_ascii_of_string x) = String.length x.
Proof. induction x as [|c x IH]; [done|]. cbn. by rewrite IH. Qed.

Lemma hex_digit_not_space (d : N) : (d < 16)%N → is_space (hex_digit d) = false.
Proof.
  intros Hd. destruct d as [|p]; [reflexivity|].
  do 4 (try destruct p as [p|p|]); try reflexivity; lia.
Qed.

Lemma hex_value_lt (c : ascii) (d : N) : hex_value c = Some d → (d < 16)%N.
Proof.
  unfold hex_value. cbv zeta.
  destruct ((48 <=? N_of_ascii c)%N && (N_of_ascii c <=? 57)%N) eqn:H1.
  { intros [= <-]. apply andb_true_iff in H1 as [H1 H1'].
    apply N.leb_le in H1, H1'. lia. }
  destruct ((97 <=? N_of_ascii c)%N && (N_of_ascii c <=? 102)%N) eqn:H2.
  { intros [= <-]. apply andb_true_iff in H2 as [H2 H2'].
    apply N.leb_le in H2, H2'. lia. }
  destruct ((65 <=? N_of_ascii c)%N && (N_of_ascii c <=? 70)%N) eqn:H3;
    [|done].
  intros [= <-]. apply andb_true_iff in H3 as [H3 H3'].
  apply N.leb_le in H3, H3'. lia.
Qed.

Lemma hex_value_not_space (c : ascii) (d : N) :
  hex_value c = Some d → is_space c = false.
Proof.
  unfold hex_value, is_space. cbv zeta.
  repeat match goal with
         | |- context [(?x <=? ?y)%N] => destruct (N.leb_spec x y)
         end;
    destruct (N.eqb_spec (N_of_ascii c) 32); cbn [andb orb];
    intros; try done; lia.
Qed.

(** [bytes.fromhex] two characters at a time. *)
Lemma fromhex_ind (P : list ascii → option (list N) → Prop) :
  P [] (Some []) →
  (∀ c l r, is_space c = true → P l r → P (c :: l) r) →
  (∀ c, is_space c = false → P [c] None) →
  (∀ c c' l, is_space c = false →
     (hex_value c = None ∨ hex_value c' = None) → P (c :: c' :: l) None) →
  (∀ c c' l top bot r, is_space c = false →
     hex_value c = Some top → hex_value c' = Some bot → P l r →
     P (c :: c' :: l) ((λ b, (top * 16 + bot)%N :: b) <$> r)) →
  ∀ l, P l (fromhex l).
Proof.
  intros Hnil Hsp Hone Hbad Hpair l.
  assert (∀ n l, (length l ≤ n)%nat → P l (fromhex l)) as Hall.
  { clear l. induction n as [|n IH]; intros [|c l] Hl; cbn [length] in Hl;
      try exact Hnil; [lia|].
    cbn [fromhex]. destruct (is_space c) eqn:Hc.
    { apply Hsp; [done|]. apply IH. lia. }
    destruct l as [|c' l].
    { destruct (hex_value c); by apply Hone. }
    destruct (hex_value c) as [top|] eqn:Ht; [|apply Hbad; auto].
    destruct (hex_value c') as [bot|] eqn:Hb; [|apply Hbad; auto].
    apply Hpair; try done. apply IH. cbn [length] in Hl. lia. }
  by apply (Hall (length l)).
Qed.

Lemma fromhex_app (l1 l2 : list ascii) (b1 : list N) :
  fromhex l1 = Some b1 → fromhex (l1 ++ l2) = (b1 ++.) <$> fromhex l2.
Proof.
  revert b1. pattern l1, (fromhex l1). apply fromhex_ind; clear l1.
  - intros b1 [= <-]. cbn [app]. by destruct (fromhex l2).
  - intros c l r Hc IH b1 Hr. cbn [app fromhex]. rewrite Hc. by apply IH.
  - done.
  - done.
  - intros c c' l top bot r Hc Ht Hb IH b1 Hr.
    destruct r as [b|]; [|done]. injection Hr as <-.
    cbn [app fromhex]. rewrite Hc, Ht, Hb, (IH b eq_refl).
    by destruct (fromhex l2).
Qed.

(** The bytes read are below 256, and each takes two of the characters that
    are no whitespace. *)
Lemma fromhex_bytes (l : list ascii) (b : list N) :
  fromhex l = Some b →
  Forall (λ x, (x < 256)%N) b ∧
  (2 * length b + length (filter (λ c, is_space c = true) l) = length l)%nat.
Proof.
  revert b. pattern l, (fromhex l). apply fromhex_ind; clear l.
  - intros b [= <-]. by split.
  - intros c l r Hc IH b Hr. destruct (IH b Hr) as [Hb Hlen].
    split; [done|]. rewrite filter_cons_True by done. cbn [length]. lia.
  - done.
  - done.
  - intros c c' l top bot r Hc Ht Hb IH b Hr.
    destruct r as [b'|]; [|done]. injection Hr as <-.
    destruct (IH b' eq_refl) as [Hb' Hlen].
    apply hex_value_lt in Ht as Ht'. apply hex_value_lt in Hb as Hb''.
    split; [constructor; [lia | done]|].
    rewrite filter_cons_False by (by rewrite Hc).
    pose proof (hex_value_not_space c' bot Hb) as Hc'.
    rewrite filter_cons_False by (by rewrite Hc'). cbn [length]. lia.
Qed.

Lemma bytes_value_snoc (b : list N) (x : N) :
  bytes_value (b ++ [x]) = (bytes_value b * 256 + x)%N.
Proof. unfold bytes_value. by rewrite foldl_app. Qed.

Lemma bytes_value_lt (b : list N) :
  Forall (λ x, (x < 256)%N) b → (bytes_value b < 256 ^ N.of_nat (length b))%N.
Proof.
  induction b as [|x b IH] using rev_ind; [by intros; cbn; lia|].
  intros [Hb [Hx _]%Forall_cons]%Forall_app.
  rewrite bytes_value_snoc, length_app. cbn [length].
  replace (length b + 1)%nat with (S (length b)) by lia.
  rewrite Nat2N.inj_succ, N.pow_succ_r'. specialize (IH Hb). nia.
Qed.

Lemma hex_digits_two (k : nat) (n : N) :
  hex_digits (S (S k)) n =
  hex_digits k (n / 256)%N ++ [hex_digit ((n / 16) mod 16)%N; hex_digit (n mod 16)%N].
Proof.
  cbn [hex_digits]. rewrite <- app_assoc. cbn [app].
  by rewrite N.Div0.div_div.
Qed.

Lemma length_hex_digits (k : nat) (n : N) : length (hex_digits k n) = k.
Proof.
  revert n. induction k as [|k IH]; intros n; [done|].
  cbn [hex_digits]. rewrite length_app, IH. simpl. lia.
Qed.

(** The text of [k] bytes reads back as these bytes. *)
Lemma fromhex_hex_digits (k : nat) (n : N) :
  ∃ b, fromhex (hex_digits (2 * k) n) = Some b ∧ length b = k ∧
       bytes_value b = (n mod 256 ^ N.of_nat k)%N.
Proof.
  revert n. induction k as [|k IH]; intros n.
  - exists []. split; [done|]. split; [done|].
    change (256 ^ N.of_nat 0)%N with 1%N. by rewrite N.mod_1_r.
  - replace (2 * S k)%nat with (S (S (2 * k))) by lia.
    rewrite hex_digits_two.
    destruct (IH (n / 256)%N) as (b & Hb & Hlen & Hval).
    assert ((n / 16) mod 16 < 16)%N as H1 by (apply N.mod_lt; lia).
    assert (n mod 16 < 16)%N as H2 by (apply N.mod_lt; lia).
    exists (b ++ [(n mod 256)%N]). split; [|split].
    + rewrite (fromhex_app _ _ b Hb). cbn [fromhex].
      rewrite hex_digit_not_space, !hex_value_digit by done.
      cbn [fmap option_fmap option_map]. do 3 f_equal.
      change 256%N with (16 * 16)%N. rewrite (N.Div0.mod_mul_r n 16 16). lia.
    + rewrite length_app, Hlen. cbn [length]. lia.
    + rewrite bytes_value_snoc, Hval, Nat2N.inj_succ, N.pow_succ_r'.
      rewrite (N.Div0.mod_mul_r n 256 (256 ^ N.of_nat k)). lia.
Qed.

Lemma ObjectId_oid_str (o : N) : valid_oid o → ObjectId (oid_str o) = Ok (VOid o).
Proof.
  intros Ho. unfold ObjectId, oid_str.
  rewrite String.list_ascii_of_string_of_list_ascii, length_hex_digits.
  rewrite decide_True by done.
  destruct (fromhex_hex_digits 12 o) as (b & Hb & Hlen & Hval).
  change (2 * 12)%nat with 24%nat in Hb. rewrite Hb, decide_True by done.
  rewrite Hval, N.mod_small; [done|].
  unfold valid_oid in Ho. change (256 ^ N.of_nat 12)%N with (2 ^ 96)%N. done.
Qed.

Lemma ObjectId_length (x : string) :
  String.length x ≠ 24%nat → ObjectId x = Raise InvalidId.
Proof.
  intros Hx. unfold ObjectId.
  by rewrite decide_False by (by rewrite length_list_ascii).
Qed.

(** What [ObjectId] accepts: a string of 24 characters that [bytes.fromhex]
    reads; it is an identifier of twelve bytes when none of the characters is
    whitespace, and one of fewer bytes otherwise. *)
Lemma ObjectId_accepts (x : string) (v : Value) :
  ObjectId x = Ok v →
  length (String.list_ascii_of_string x) = 24%nat ∧
  ((∃ o, v = VOid o ∧ valid_oid o ∧
         Forall (λ c, is_space c = false) (String.list_ascii_of_string x)) ∨
   (∃ b, v = VOidBytes b ∧ (length b < 12)%nat ∧
         fromhex (String.list_ascii_of_string x) = Some b ∧
         Exists (λ c, is_space c = true) (String.list_ascii_of_string x))).
Proof.
  unfold ObjectId. cbv zeta. set (l := String.list_ascii_of_string x).
  case_decide as Hlen; [|done].
  destruct (fromhex l) as [b|] eqn:Hb; [|done].
  destruct (fromhex_bytes l b Hb) as [Hbytes Hcount].
  intros [= <-]. split; [done|]. case_decide as Hb12.
  - left. exists (bytes_value b). split; [done|]. split.
    + unfold valid_oid. apply bytes_value_lt in Hbytes. rewrite Hb12 in Hbytes.
      by change (256 ^ N.of_nat 12)%N with (2 ^ 96)%N in Hbytes.
    + assert (filter (λ c, is_space c = true) l = []) as Hnone
        by (apply length_zero_iff_nil; lia).
      apply Forall_forall. intros c Hc.
      destruct (is_space c) eqn:Hsp; [|done].
      assert (c ∈ filter (λ c, is_space c = true) l) as Hin
        by (by apply list_elem_of_filter).
      rewrite Hnone in Hin. by apply elem_of_nil in Hin.
  - right. exists b. split; [done|]. split; [lia|]. split; [done|].
    destruct (filter (λ c, is_space c = true) l) as [|c f] eqn:Hf.
    + cbn [length] in Hcount. lia.
    + assert (c ∈ filter (λ c, is_space c = true) l) as Hin
        by (rewrite Hf; left).
      apply list_elem_of_filter in Hin as [Hsp Hin].
      apply Exists_exists. by exists c.
Qed.

Lemma oid_value_cases (v : Value) : (∃ o, v = VOid o) ∨ (∀ o, v ≠ VOid o).
Proof. destruct v; eauto. Qed.

(** An [ObjectId] of other than twelve bytes is the [_id] of no document. *)
Lemma find_other_id (v : Value) (l : list (N * Doc)) :
  (∀ o, v ≠ VOid o) →
  List.find (λ d, matches {[ "_id" := v ]} (full_doc d)) l = None.
Proof.
  intros Hv. induction l as [|d l IH]; [done|]. cbn [List.find].
  rewrite matches_singleton, full_doc_id, bool_decide_eq_false_2; [done|].
  intros [= <-]. by apply (Hv d.1).
Qed.

(** ** The handlers *)

Lemma bind_unfold {S A B} (m : M S A) (f : A → M S B) (s : S) :
  (m ≫= f) s =
  match m s with
  | (Ok a, s') => f a s'
  | (Raise e, s') => (Raise e, s')
  end.
Proof. reflexivity. Qed.

(** Unfolds the monadic operations of a handler and the accesses to the
    state. *)
Ltac munfold :=
  unfold db_is_None, db_getitem, find_one, update_one, create_document,
    get_documents, lift_result, raise, record, modify, get_state,
    mbind, M_bind, mret, M_ret;
  cbn [db broadcaster calls fst snd].

Ltac mgo H :=
  repeat first
    [ rewrite H
    | progress cbn beta iota zeta delta [db broadcaster calls fst snd negb] ].

Ltac mrun H := munfold; mgo H.

(** Reads a collection back from a store that has just been written. *)
Ltac coll_simpl :=
  rewrite ?collection_insert; repeat (case_decide; try done).

(** The handlers by their global names, for use where the section below
    abbreviates them. *)
Ltac unfold_handler :=
  unfold login, create_resource, list_resources_request, list_resources,
    list_pending, approve_resource.
Ltac unfold_request := unfold list_resources_request.
Ltac unfold_clean := unfold clean, clean_doc.
Ltac handle_cases := cbn [handle].
Ltac destruct_clean :=
  match goal with
  | |- context [clean ?i ?s ?d] => destruct (clean i s d) as [?|?]
  end.

Section ApiFacts.

Variable put_raises : nat → Doc → bool.
Variable isoformat : Z → string.
Variable str_other : Value → string.

Local Abbreviation approve_resource := (approve_resource put_raises isoformat str_other).
Local Abbreviation create_resource := (create_resource put_raises isoformat str_other).
Local Abbreviation login := (login isoformat str_other).
Local Abbreviation list_resources := (list_resources isoformat str_other).
Local Abbreviation list_resources_request := (list_resources_request isoformat str_other).
Local Abbreviation list_pending := (list_pending isoformat str_other).
Local Abbreviation handle := (handle put_raises isoformat str_other).
Local Abbreviation clean := (clean isoformat str_other).
Local Abbreviation clean_doc := (clean_doc isoformat str_other).
Local Abbreviation call_broadcast := (call_broadcast put_raises).

(** The loop of [broadcast] returns whatever the subscriber list is. *)
Lemma fanout_returns (m : Doc) (l : list nat) (h : Hub) :
  (for_each l (λ q, try_except (Queue_put put_raises q m) (λ _, mret ())) h).1
  = Ok ().
Proof.
  revert h. induction l as [|q l IH]; intros h; [done|].
  rewrite for_each_cons, try_put. apply IH.
Qed.

Lemma call_broadcast_eq (m : Doc) (a : App) :
  call_broadcast m a =
  (Ok (), {| db := db a;
             broadcaster := hub_step put_raises (OpBroadcast m) (broadcaster a);
             calls := calls a ++ [CallBroadcast m] |}).
Proof.
  unfold call_broadcast, on_broadcaster. munfold.
  cbn [hub_step].
  pose proof (fanout_returns m (subscribers (broadcaster a)) (broadcaster a)) as Hr.
  unfold broadcast. munfold.
  destruct (for_each _ _ _) as [r h']. simpl in Hr. subst r. done.
Qed.

(** *** approve_resource *)

Lemma approve_invalid_id now1 now2 nid rid p a s :
  db a = Some s → (∀ o, ObjectId rid ≠ Ok o) →
  approve_resource now1 now2 nid rid p a =
  (Raise (HTTPException 400 "Invalid id"), a).
Proof.
  intros Hdb Hid. unfold approve_resource. mrun Hdb.
  unfold oid. destruct (ObjectId rid) as [o|e] eqn:Ho; [by destruct (Hid o)|].
  done.
Qed.

Lemma approve_not_found now1 now2 nid rid p a s v :
  db a = Some s → ObjectId rid = Ok v →
  List.find (λ d, matches {[ "_id" := v ]} (full_doc d))
    (collection s "resource") = None →
  approve_resource now1 now2 nid rid p a =
  (Raise (HTTPException 404 "Resource not found"), a).
Proof.
  intros Hdb Hid Hfind. unfold approve_resource, oid. rewrite Hid.
  mrun Hdb. rewrite Hfind. done.
Qed.

Lemma approve_already now1 now2 nid rid p a s o d :
  db a = Some s → ObjectId rid = Ok (VOid o) →
  List.find (λ d, matches {[ "_id" := VOid o ]} (full_doc d))
    (collection s "resource") = Some d →
  d.2 !! "status" = Some (VStr "approved") →
  approve_resource now1 now2 nid rid p a = (clean (Some (full_doc d)), a).
Proof.
  intros Hdb Hid Hfind Hst. unfold approve_resource, oid. rewrite Hid.
  mrun Hdb. rewrite Hfind. cbn [fmap option_fmap option_map].
  rewrite truthy_full_doc. cbn [negb].
  rewrite decide_True by (by rewrite full_doc_field). done.
Qed.

Lemma approve_updates now1 now2 nid rid p a s o d r a' :
  db a = Some s → ObjectId rid = Ok (VOid o) →
  List.find (λ d, matches {[ "_id" := VOid o ]} (full_doc d))
    (collection s "resource") = Some d →
  d.2 !! "status" ≠ Some (VStr "approved") →
  approve_resource now1 now2 nid rid p a = (r, a') →
  ∃ s', db a' = Some s' ∧
        collection s' "resource" =
          update_first {[ "_id" := VOid d.1 ]} (approval now1 now2 p)
            (collection s "resource") ∧
        collection s' "user" = collection s "user" ∧
        (hub_wf (broadcaster a) → hub_wf (broadcaster a')).
Proof.
  intros Hdb Hid Hfind Hst. unfold approve_resource, oid. rewrite Hid.
  mrun Hdb. rewrite Hfind. cbn [fmap option_fmap option_map].
  rewrite truthy_full_doc. cbn [negb].
  rewrite decide_False by (by rewrite full_doc_field).
  unfold getitem at 1 2. rewrite full_doc_id. mgo Hdb.
  rewrite collection_insert, decide_True by done.
  match goal with |- context [List.find ?P ?l] =>
    destruct (List.find P l) as [u|] end; cbn [fmap option_fmap option_map].
  2: { intros [= <- <-]. eexists. split; [done|]. by coll_simpl. }
  destruct (getitem (full_doc u) "title") as [title|e].
  2: { intros [= <- <-]. eexists. split; [done|]. by coll_simpl. }
  destruct (getitem (full_doc u) "_id") as [uid|e].
  2: { intros [= <- <-]. eexists. split; [done|]. by coll_simpl. }
  destruct (NotificationSchema_dump _ _ _ _ _ _) as [notif|e].
  2: { intros [= <- <-]. eexists. split; [done|]. by coll_simpl. }
  mgo Hdb. rewrite call_broadcast_eq. mgo Hdb.
  destruct_clean; mgo Hdb;
    (intros [= <- <-]; eexists; split; [done|]; coll_simpl;
     split; [done|]; split; [done|]; intros; cbn [broadcaster];
     by apply (hub_wf_step put_raises (OpBroadcast _))).
Qed.

(** *** create_resource *)

Lemma ResourceSchema_dump_fields p st data :
  ResourceSchema_dump p st = Ok data →
  data !! "title" = Some (VStr (CreateResourceRequest.title p)) ∧
  data !! "uploaded_by" = Some (VStr (CreateResourceRequest.uploaded_by p)) ∧
  data !! "semester" = Some (VInt (CreateResourceRequest.semester p)) ∧
  data !! "subject" = Some (VStr (CreateResourceRequest.subject p)) ∧
  data !! "status" = Some (VStr st).
Proof.
  unfold ResourceSchema_dump.
  destruct (_ && _); [|done]. intros [= <-].
  repeat split; vm_compute; reflexivity.
Qed.

Lemma id_absent (o : N) (l : list (N * Doc)) :
  o ∉ l.*1 →
  Forall (λ y, matches {[ "_id" := VOid o ]} (full_doc y) = false) l.
Proof.
  intros Ho. apply Forall_forall. intros y Hy. rewrite matches_id.
  apply bool_decide_eq_false_2. intros <-. apply Ho.
  by apply list_elem_of_fmap_2.
Qed.

Lemma create_resource_run rid nid p a s r a' :
  db a = Some s →
  create_resource rid nid p a = (r, a') →
  (ResourceSchema_dump p "pending" = Raise ValidationError ∧
   r = Raise ValidationError ∧ a' = a) ∨
  (∃ data s',
     ResourceSchema_dump p "pending" = Ok data ∧
     db a' = Some s' ∧
     collection s' "resource" = collection s "resource" ++ [(rid, data)] ∧
     collection s' "user" = collection s "user" ∧
     (hub_wf (broadcaster a) → hub_wf (broadcaster a')) ∧
     (valid_oid rid → rid ∉ (collection s "resource").*1 →
      r = clean (Some (full_doc (rid, data))))).
Proof.
  intros Hdb. unfold create_resource. mrun Hdb.
  destruct (ResourceSchema_dump p "pending") as [data|e] eqn:Hdump.
  2: { intros [= <- <-]. left. revert Hdump. unfold ResourceSchema_dump.
       destruct (_ && _); [done|]. by intros [= <-]. }
  destruct (ResourceSchema_dump_fields _ _ _ Hdump)
    as (Ht & Hu & Hsem & Hsub & Hst).
  unfold getitem. rewrite Ht, Hu, Hsem, Hsub.
  cbn [NotificationSchema_dump]. mgo Hdb.
  rewrite call_broadcast_eq. mgo Hdb.
  destruct (ObjectId (oid_str rid)) as [o'|e] eqn:Hoid.
  - mgo Hdb. coll_simpl.
    intros [= <- <-]. right. exists data. eexists.
    split; [done|]. split; [done|]. coll_simpl.
    split; [done|]. split; [done|].
    split. { intros. by apply (hub_wf_step put_raises (OpBroadcast _)). }
    intros Hv Hfresh. rewrite ObjectId_oid_str in Hoid by done.
    injection Hoid as <-.
    rewrite (find_first _ _ []);
      [done | by apply id_absent
      | by rewrite matches_id; apply bool_decide_eq_true_2].
  - intros [= <- <-]. right. exists data. eexists.
    split; [done|]. split; [done|]. coll_simpl.
    split; [done|]. split; [done|].
    split. { intros. by apply (hub_wf_step put_raises (OpBroadcast _)). }
    intros Hv. by rewrite ObjectId_oid_str in Hoid.
Qed.

(** *** login *)

Lemma login_run now id p a s r a' :
  db a = Some s →
  login now id p a = (r, a') →
  match List.find
          (λ d, matches {[ "email" := VStr (LoginRequest.email p) ]} (full_doc d))
          (collection s "user") with
  | Some d =>
      r = clean (Some (user_doc now p ∪ full_doc d)) ∧
      a' = {| db := Some (<["user" :=
                 update_first {[ "_id" := VOid d.1 ]} (user_doc now p)
                   (collection s "user")]> s);
              broadcaster := broadcaster a;
              calls := calls a ++ [CallUpdate "user"] |}
  | None =>
      a' = {| db := Some (<["user" :=
                 collection s "user" ++ [(id, user_doc now p)]]> s);
              broadcaster := broadcaster a;
              calls := calls a ++ [CallInsert "user"] |} ∧
      (valid_oid id → id ∉ (collection s "user").*1 →
       r = clean (Some (full_doc (id, user_doc now p))))
  end.
Proof.
  intros Hdb. unfold login. mrun Hdb.
  destruct (List.find _ _) as [d|]; cbn [fmap option_fmap option_map].
  - rewrite truthy_full_doc. unfold getitem. rewrite full_doc_id. mgo Hdb.
    by intros [= <- <-].
  - mgo Hdb. destruct (ObjectId (oid_str id)) as [o'|e] eqn:Hoid.
    + mgo Hdb. coll_simpl. intros [= <- <-]. split; [done|].
      intros Hv Hfresh. rewrite ObjectId_oid_str in Hoid by done.
      injection Hoid as <-.
      rewrite (find_first _ _ []);
        [done | by apply id_absent
        | by rewrite matches_id; apply bool_decide_eq_true_2].
    + intros [= <- <-]. split; [done|].
      intros Hv. by rewrite ObjectId_oid_str in Hoid.
Qed.

(** *** The handlers that only read *)

Lemma list_resources_state sem subj st upl lim a :
  (list_resources sem subj st upl lim a).2 = a.
Proof.
  unfold list_resources. destruct (db a) eqn:Hdb; mrun Hdb; reflexivity.
Qed.

Lemma list_pending_state sem subj a : (list_pending sem subj a).2 = a.
Proof.
  unfold list_pending. destruct (db a) eqn:Hdb; mrun Hdb; reflexivity.
Qed.

Lemma test_database_state url name err a : (test_database url name err a).2 = a.
Proof.
  reflexivity.
Qed.

(** *** The effect of a request on the store *)

Lemma on_broadcaster_state {A} (m : M Hub A) (a : App) :
  (on_broadcaster m a).2 =
  {| db := db a; broadcaster := (m (broadcaster a)).2; calls := calls a |}.
Proof. unfold on_broadcaster. by destruct (m (broadcaster a)). Qed.

Lemma hub_wf_on_broadcaster (op : HubOp) (a : App) :
  hub_wf (broadcaster a) →
  hub_wf (broadcaster
    {| db := db a; broadcaster := hub_step put_raises op (broadcaster a);
       calls := calls a |}).
Proof. intros. cbn [broadcaster]. by apply hub_wf_step. Qed.

Lemma handle_effect r a s :
  db a = Some s →
  ∃ s', db (handle r a) = Some s' ∧
    (hub_wf (broadcaster a) → hub_wf (broadcaster (handle r a))) ∧
    users_effect r s s' ∧ resources_effect r s s'.
Proof.
  intros Hdb. unfold users_effect, resources_effect.
  assert (∃ s', db a = Some s' ∧
    (hub_wf (broadcaster a) → hub_wf (broadcaster a)) ∧
    users_effect r s s' ∧ resources_effect r s s') as Hsame.
  { exists s. split; [done|]. split; [done|]. split; by left. }
  unfold users_effect, resources_effect in Hsame.
  destruct r; handle_cases; try exact Hsame.
  - destruct (login now new_id payload a) as [r a'] eqn:Hrun.
    apply (login_run _ _ _ _ _ _ _ Hdb) in Hrun. cbn [snd].
    destruct (List.find _ _) as [d|] eqn:Hfind; destruct Hrun as [? ?];
      subst a';
      (eexists; split; [done|]; split; [done|]; split;
       [right; exists now, new_id, payload; split; [done|];
        rewrite Hfind; by coll_simpl
       |left; by coll_simpl]).
  - destruct (create_resource rid_new nid_new payload a) as [r a'] eqn:Hrun.
    apply (create_resource_run _ _ _ _ _ _ _ Hdb) in Hrun
      as [(_ & _ & ->)|(data & s' & Hd & Hdb' & Hres & Husr & Hhub & _)];
      [exact Hsame|].
    exists s'. split; [done|]. split; [done|]. split; [by left|].
    right. left. by exists rid_new, nid_new, payload, data.
  - unfold_request. by rewrite list_resources_state.
  - by rewrite list_pending_state.
  - destruct (ObjectId resource_id) as [v|e] eqn:Hid.
    2: { by rewrite (approve_invalid_id _ _ _ _ _ _ _ Hdb) by congruence. }
    destruct (oid_value_cases v) as [[o ->]|Hv].
    2: { by rewrite (approve_not_found _ _ _ _ _ _ _ _ Hdb Hid
                       (find_other_id v _ Hv)). }
    destruct (List.find (λ d, matches {[ "_id" := VOid o ]} (full_doc d))
                (collection s "resource")) as [d|] eqn:Hfind.
    2: { by rewrite (approve_not_found _ _ _ _ _ _ _ _ Hdb Hid Hfind). }
    destruct (decide (d.2 !! "status" = Some (VStr "approved"))) as [Hst|Hst].
    { by rewrite (approve_already _ _ _ _ _ _ _ _ _ Hdb Hid Hfind Hst). }
    destruct (approve_resource now1 now2 nid_new resource_id payload a)
      as [r a'] eqn:Hrun.
    destruct (approve_updates _ _ _ _ _ _ _ _ _ _ _ Hdb Hid Hfind Hst Hrun)
      as (s' & Hdb' & Hres & Husr & Hhub).
    exists s'. split; [done|]. split; [done|]. split; [by left|]. right. right.
    by exists now1, now2, nid_new, resource_id, payload, o, d.
  - unfold events_open. rewrite on_broadcaster_state.
    exists s. split; [done|].
    split; [apply (hub_wf_on_broadcaster OpSubscribe)|]. split; by left.
  - unfold events_next. rewrite on_broadcaster_state.
    exists s. split; [done|].
    split; [apply (hub_wf_on_broadcaster (OpGet q))|]. split; by left.
  - unfold events_close. rewrite on_broadcaster_state.
    exists s. split; [done|].
    split; [apply (hub_wf_on_broadcaster (OpUnsubscribe q))|]. split; by left.
Qed.

(** *** The invariant *)

Lemma handle_unconfigured r a :
  db a = None →
  db (handle r a) = None ∧
  (hub_wf (broadcaster a) → hub_wf (broadcaster (handle r a))).
Proof.
  intros Hdb. destruct r; handle_cases.
  - unfold_handler. by mrun Hdb.
  - unfold_handler. mrun Hdb.
    by destruct (ResourceSchema_dump _ _); mgo Hdb.
  - unfold_request. by rewrite list_resources_state.
  - by rewrite list_pending_state.
  - unfold_handler. by mrun Hdb.
  - unfold events_open. rewrite on_broadcaster_state.
    split; [done|]. apply (hub_wf_on_broadcaster OpSubscribe).
  - unfold events_next. rewrite on_broadcaster_state.
    split; [done|]. apply (hub_wf_on_broadcaster (OpGet q)).
  - unfold events_close. rewrite on_broadcaster_state.
    split; [done|]. apply (hub_wf_on_broadcaster (OpUnsubscribe q)).
  - done.
  - done.
  - done.
  - by rewrite test_database_state.
Qed.

Lemma user_doc_email now p :
  user_doc now p !! "email" = Some (VStr (LoginRequest.email p)).
Proof. vm_compute. reflexivity. Qed.

Lemma approval_status now1 now2 p :
  approval now1 now2 p !! "status" = Some (VStr "approved").
Proof. vm_compute. reflexivity. Qed.

Lemma users_effect_wf r a s s' :
  db a = Some s → fresh_ids r a → users_effect r s s' →
  NoDup (collection s "user").*1 →
  NoDup ((λ d, d.2 !! "email") <$> collection s "user") →
  NoDup (collection s' "user").*1 ∧
  NoDup ((λ d, d.2 !! "email") <$> collection s' "user").
Proof.
  intros Hdb Hfresh [->|(now & id & p & -> & ->)] Hids Hemails; [done|].
  destruct (List.find _ _) as [d|] eqn:Hfind.
  - rewrite update_first_ids. split; [done|].
    apply find_split in Hfind as (l1 & l2 & Hl & Hd & Hl1).
    rewrite Hl in Hids |- *. destruct (id_selects _ _ _ Hids) as [Hn Hy].
    rewrite update_first_split by done.
    rewrite Hl in Hemails. revert Hemails.
    rewrite !fmap_app, !fmap_cons. cbn [snd].
    rewrite matches_field, bool_decide_eq_true in Hd by done.
    rewrite Hd.
    by rewrite (lookup_union_Some_l _ _ _ _ (user_doc_email now p)).
  - cbn [fresh_ids] in Hfresh. unfold ids in Hfresh. rewrite Hdb in Hfresh.
    destruct Hfresh as [_ Hfresh].
    rewrite !fmap_app. split.
    + apply NoDup_app. split; [done|]. split; [|apply NoDup_singleton].
      intros x Hx ->%list_elem_of_singleton. done.
    + apply NoDup_app. split; [done|]. split; [|apply NoDup_singleton].
      intros x Hx ->%list_elem_of_singleton. cbn [snd] in Hx.
      rewrite user_doc_email in Hx.
      apply list_elem_of_fmap in Hx as (y & Hy & Hin).
      apply find_none in Hfind.
      rewrite Forall_forall in Hfind. specialize (Hfind y Hin).
      rewrite matches_field, bool_decide_eq_false in Hfind by done.
      by apply Hfind.
Qed.

Lemma update_first_Forall (P : N * Doc → Prop) q upd l :
  (∀ d, P d → P (d.1, upd ∪ d.2)) →
  Forall P l → Forall P (update_first q upd l).
Proof.
  intros HP. induction 1 as [|d l Hd Hl IH]; cbn [update_first];
    [constructor|].
  destruct (matches q (full_doc d)); constructor; auto.
Qed.

Lemma resources_effect_wf r a s s' :
  db a = Some s → fresh_ids r a → resources_effect r s s' →
  NoDup (collection s "resource").*1 →
  Forall status_ok (collection s "resource") →
  NoDup (collection s' "resource").*1 ∧
  Forall status_ok (collection s' "resource").
Proof.
  intros Hdb Hfresh
    [->|[(rid & nid & p & data & -> & Hdump & ->)
        |(now1 & now2 & nid & rid & p & o & d & -> & _ & _ & _ & ->)]]
    Hids Hst; [done| |].
  - cbn [fresh_ids] in Hfresh. unfold ids in Hfresh. rewrite Hdb in Hfresh.
    destruct Hfresh as (_ & Hfresh & _).
    rewrite fmap_app. split.
    + apply NoDup_app. split; [done|]. split; [|apply NoDup_singleton].
      intros x Hx ->%list_elem_of_singleton. done.
    + apply Forall_app. split; [done|]. apply Forall_singleton. left.
      by destruct (ResourceSchema_dump_fields _ _ _ Hdump) as (_&_&_&_&?).
  - rewrite update_first_ids. split; [done|].
    apply update_first_Forall; [|done]. intros d0 _. right. cbn [snd].
    by rewrite (lookup_union_Some_l _ _ _ _ (approval_status now1 now2 p)).
Qed.

Lemma app_wf_init (d : option Store) :
  d = None ∨ d = Some ∅ → app_wf (App_init d).
Proof.
  intros [->| ->]; (split; [apply hub_wf_init|]); [done|].
  cbn [db App_init]. unfold store_wf, collection.
  rewrite !lookup_empty. cbn [default]. rewrite !fmap_nil.
  repeat split; constructor.
Qed.

Lemma app_wf_step r a : app_wf a → fresh_ids r a → app_wf (handle r a).
Proof.
  intros [Hhub Hstore] Hfresh. destruct (db a) as [s|] eqn:Hdb.
  - destruct (handle_effect r a s Hdb) as (s' & Hdb' & Hh & Hu & Hr).
    split; [auto|]. rewrite Hdb'.
    destruct Hstore as (Hui & Hue & Hri & Hrs).
    destruct (users_effect_wf _ _ _ _ Hdb Hfresh Hu Hui Hue).
    destruct (resources_effect_wf _ _ _ _ Hdb Hfresh Hr Hri Hrs).
    by repeat split.
  - destruct (handle_unconfigured r a Hdb) as [Hdb' Hh].
    split; [auto|]. by rewrite Hdb'.
Qed.

Lemma app_reachable_wf a :
  app_reachable put_raises isoformat str_other a → app_wf a.
Proof.
  induction 1 as [| |r a _ IH Hfresh].
  - apply app_wf_init. by left.
  - apply app_wf_init. by right.
  - by apply app_wf_step.
Qed.

(** *** The response *)

Lemma find_by_id (l : list (N * Doc)) (o : N) (f : Doc) :
  NoDup l.*1 → (o, f) ∈ l →
  List.find (λ d, matches {[ "_id" := VOid o ]} (full_doc d)) l = Some (o, f).
Proof.
  intros Hnd (l1 & l2 & ->)%list_elem_of_split.
  destruct (id_selects _ _ _ Hnd). by apply find_first.
Qed.

(** [clean] on a document of the store: [_id] becomes the text [id], the
    dates become text, the other fields are kept. *)
Lemma clean_full_doc (d : N * Doc) :
  ∃ c, clean (Some (full_doc d)) = Ok (Some c) ∧
       c !! "id" = Some (VStr (oid_str d.1)) ∧
       c !! "_id" = None ∧
       ∀ k, k ≠ "id" → k ≠ "_id" →
            c !! k = (λ v, match v with VDate t => VStr (isoformat t) | _ => v end)
                       <$> d.2 !! k.
Proof.
  unfold_clean.
  rewrite decide_False by apply full_doc_nonempty. rewrite full_doc_id.
  eexists. split; [done|]. repeat split.
  - by rewrite lookup_fmap, lookup_insert_eq.
  - by rewrite lookup_fmap, lookup_insert_ne, lookup_delete_eq.
  - intros k Hk1 Hk2.
    by rewrite lookup_fmap, lookup_insert_ne, lookup_delete_ne, full_doc_field.
Qed.

(** C4. On a reachable state with a store, when the resource that the path id
    designates is stored with status [approved], [approve_resource] returns
    the stored document (with [id] for [_id] and dates as text, its status
    still [approved]) and leaves the whole state as it was: the store, the
    hub and the record of the calls to the store and to [broadcast]. A second
    call, whatever its clock readings and its body, returns the same
    response. *)
Theorem approve_idempotent now1 now2 nid now1' now2' nid' rid p p' a s o f :
  app_reachable put_raises isoformat str_other a →
  db a = Some s →
  ObjectId rid = Ok (VOid o) →
  (o, f) ∈ collection s "resource" →
  f !! "status" = Some (VStr "approved") →
  ∃ c, approve_resource now1 now2 nid rid p a = (Ok (Some c), a) ∧
       approve_resource now1' now2' nid' rid p' a = (Ok (Some c), a) ∧
       clean (Some (full_doc (o, f))) = Ok (Some c) ∧
       c !! "status" = Some (VStr "approved") ∧
       c !! "id" = Some (VStr (oid_str o)).
Proof.
  intros Hr Hdb Hid Hin Hst.
  apply app_reachable_wf in Hr as [_ Hwf]. rewrite Hdb in Hwf.
  destruct Hwf as (_ & _ & Hids & _).
  pose proof (find_by_id _ _ _ Hids Hin) as Hfind.
  destruct (clean_full_doc (o, f)) as (c & Hc & Hcid & _ & Hck).
  exists c.
  rewrite !(approve_already _ _ _ _ _ _ _ _ _ Hdb Hid Hfind Hst), Hc.
  repeat split; try done.
  rewrite Hck by done. cbn [snd]. by rewrite Hst.
Qed.


(** C7 (what the code does). Without a store, [login] and [list_resources]
    raise the service-unavailable error 503, but [approve_resource] subscripts
    [None] and raises [TypeError], which leaves the handler as an internal
    server error 500, whatever the path id is. *)
Theorem approve_unconfigured now1 now2 nid rid p now id lp sem subj st upl lim h c :
  let a := {| db := None; broadcaster := h; calls := c |} in
  approve_resource now1 now2 nid rid p a = (Raise TypeError, a) ∧
  http_status TypeError = 500%Z ∧
  login now id lp a = (Raise (HTTPException 503 "Database not configured"), a) ∧
  list_resources sem subj st upl lim a =
    (Raise (HTTPException 503 "Database not configured"), a).
Proof. done. Qed.

(** *** list_resources *)

Lemma filter_all_true {A} (P : A → bool) (l : list A) :
  (∀ x, P x = true) → List.filter P l = l.
Proof.
  intros HP. induction l as [|x l IH]; [done|].
  cbn [List.filter]. by rewrite HP, IH.
Qed.

Lemma matches_insert_other (q d : Doc) (k : string) (v : Value) :
  q !! k = None → matches q (<[k := v]> d) = matches q d.
Proof.
  intros Hk. unfold matches. apply bool_decide_ext.
  split; intros H i x Hix; specialize (H i x Hix); cbn beta in *;
    (assert (k ≠ i) by (intros ->; by rewrite Hix in Hk));
    by rewrite lookup_insert_ne in *.
Qed.

Lemma matches_lookup (q d : Doc) (k : string) (v : Value) :
  q !! k = Some v → matches q d = true → d !! k = Some v.
Proof.
  intros Hk Hm. unfold matches in Hm. rewrite bool_decide_eq_true in Hm.
  by apply (Hm k v).
Qed.

Lemma resources_query_status sem subj st upl :
  resources_query sem subj st upl !! "status" =
  if decide (st = "") then None else Some (VStr st).
Proof.
  unfold resources_query.
  destruct sem as [n|], subj as [sj|], upl as [u|];
    repeat case_decide; by simplify_map_eq.
Qed.

Lemma resources_query_semester n subj st upl :
  resources_query (Some n) subj st upl !! "semester" = Some (VInt n).
Proof.
  unfold resources_query.
  destruct subj as [sj|], upl as [u|];
    repeat case_decide; by simplify_map_eq.
Qed.

(** C10. When [status] is the empty string the filter of [list_resources]
    has no condition on the status, and whether a resource is selected does
    not depend on its status: with no other condition, [GET /resources?status=]
    returns the first 100 resources of the collection, whatever their status.
    A status that is not empty is a condition of the filter, and every
    resource selected has it; a request without the parameter has the status
    [approved]. *)
Theorem empty_status_no_filter sem subj upl :
  resources_query sem subj "" upl !! "status" = None ∧
  (∀ d v, matches (resources_query sem subj "" upl) (<["status" := v]> d) =
          matches (resources_query sem subj "" upl) d) ∧
  (∀ a s, db a = Some s →
     list_resources_request None None (Some "") None None a =
     (map_result clean_doc (take 100 (full_doc <$> collection s "resource")), a)) ∧
  (∀ st, st ≠ "" →
     resources_query sem subj st upl !! "status" = Some (VStr st) ∧
     ∀ d, matches (resources_query sem subj st upl) d = true →
          d !! "status" = Some (VStr st)) ∧
  (∀ lim a,
     list_resources_request sem subj None upl lim a =
     list_resources sem subj "approved" upl (Some (default 100%Z lim)) a).
Proof.
  assert (resources_query sem subj "" upl !! "status" = None) as Hnone.
  { by rewrite resources_query_status, decide_True. }
  split; [done|]. split; [intros; by apply matches_insert_other|].
  split.
  { intros a s Hdb. unfold_handler.
    mrun Hdb. cbn [default].
    replace (resources_query None None "" None) with (∅ : Doc)
      by (unfold resources_query; by rewrite decide_True).
    rewrite filter_all_true; [done|]. intros d.
    apply bool_decide_eq_true_2, map_Forall_empty. }
  split; [|done].
  intros st Hst.
  assert (resources_query sem subj st upl !! "status" = Some (VStr st)) as Hq.
  { by rewrite resources_query_status, decide_False. }
  split; [done|]. intros d. by apply matches_lookup.
Qed.

(** *** The status of a resource *)

Lemma lookup_middle_other {A} (l1 l2 : list A) (x y : A) (i : nat) :
  i ≠ length l1 → (l1 ++ y :: l2) !! i = (l1 ++ x :: l2) !! i.
Proof.
  intros Hi. destruct (decide (i < length l1)).
  - by rewrite !lookup_app_l by lia.
  - rewrite !lookup_app_r by lia.
    destruct (i - length l1)%nat eqn:E; [lia | done].
Qed.

(** C5. On a reachable state with a store, whatever the request: every
    resource is pending or approved before and after it (none is rejected);
    a resource that was there keeps its place and its identifier, and its
    status is the same unless the request is the approval of that very
    resource, which takes it from pending to approved; a resource that was
    not there comes from an upload and is pending, and the upload answers
    with a document whose status is pending. *)
Theorem status_transitions r a s :
  app_reachable put_raises isoformat str_other a →
  db a = Some s →
  fresh_ids r a →
  ∃ s', db (handle r a) = Some s' ∧
    Forall status_ok (collection s "resource") ∧
    Forall status_ok (collection s' "resource") ∧
    (∀ i o f,
       collection s "resource" !! i = Some (o, f) →
       ∃ f', collection s' "resource" !! i = Some (o, f') ∧
         (f' !! "status" = f !! "status" ∨
          (f !! "status" = Some (VStr "pending") ∧
           f' !! "status" = Some (VStr "approved") ∧
           ∃ now1 now2 nid rid p,
             r = ReqApprove now1 now2 nid rid p ∧ ObjectId rid = Ok (VOid o)))) ∧
    (∀ i o f,
       collection s "resource" !! i = None →
       collection s' "resource" !! i = Some (o, f) →
       f !! "status" = Some (VStr "pending") ∧
       ∃ nid p, r = ReqCreateResource o nid p) ∧
    (∀ rid nid p resp a',
       r = ReqCreateResource rid nid p →
       create_resource rid nid p a = (Ok resp, a') →
       ∃ c, resp = Some c ∧ c !! "status" = Some (VStr "pending")).
Proof.
  intros Hr Hdb Hfresh.
  apply app_reachable_wf in Hr as [_ Hwf]. rewrite Hdb in Hwf.
  destruct Hwf as (_ & _ & Hids & Hst).
  destruct (handle_effect r a s Hdb) as (s' & Hdb' & _ & _ & Heff).
  destruct (resources_effect_wf _ _ _ _ Hdb Hfresh Heff Hids Hst) as [_ Hst'].
  exists s'. split; [done|]. split; [done|]. split; [done|].
  clear Hdb'. split; [|split].
  - intros i o f Hi.
    destruct Heff as [->|[(rid & nid & p & data & -> & Hdump & ->)
          |(now1 & now2 & nid & rid & p & o' & d & -> & Hid & Hfind & Hnot & ->)]].
    + exists f. split; [done | by left].
    + exists f. split; [|by left]. by apply lookup_app_l_Some.
    + apply find_split in Hfind as (l1 & l2 & Hl & Hd & Hl1).
      rewrite matches_id, bool_decide_eq_true in Hd. subst o'.
      rewrite Hl in Hi, Hids |- *. destruct (id_selects _ _ _ Hids) as [Hn Hy].
      rewrite update_first_split by done.
      destruct (decide (i = length l1)) as [->|Hne].
      * rewrite list_lookup_middle in Hi |- * by done.
        injection Hi as Hi. subst d. cbn [fst snd] in *.
        eexists. split; [done|]. right.
        rewrite (lookup_union_Some_l _ _ _ _ (approval_status now1 now2 p)).
        split; [|split; [reflexivity|]].
        2: { exists now1, now2, nid, rid, p. split; [reflexivity | exact Hid]. }
        rewrite Hl in Hst. apply Forall_app in Hst as [_ Hst].
        apply Forall_cons in Hst as [[Hp|Ha] _]; [done | by destruct Hnot].
      * rewrite (lookup_middle_other _ _ d) by done.
        exists f. split; [done | by left].
  - intros i o f Hnone.
    destruct Heff as [->|[(rid & nid & p & data & -> & Hdump & ->)
          |(now1 & now2 & nid & rid & p & o' & d & -> & Hid & Hfind & Hnot & ->)]];
      intros Hsome.
    + by rewrite Hnone in Hsome.
    + apply lookup_ge_None in Hnone.
      rewrite lookup_app_r in Hsome by done.
      destruct (i - length (collection s "resource"))%nat; [|done].
      injection Hsome as <- <-.
      destruct (ResourceSchema_dump_fields _ _ _ Hdump) as (_&_&_&_&?).
      split; [done|]. by exists nid, p.
    + apply lookup_ge_None in Hnone.
      apply lookup_lt_Some in Hsome. rewrite update_first_length in Hsome. lia.
  - intros rid nid p resp a' -> Hrun.
    cbn [fresh_ids] in Hfresh. unfold ids in Hfresh. rewrite Hdb in Hfresh.
    destruct Hfresh as (Hv & Hf & _).
    apply (create_resource_run _ _ _ _ _ _ _ Hdb) in Hrun
      as [(_ & [=] & _)|(data & s1 & Hdump & _ & _ & _ & _ & Hresp)].
    specialize (Hresp Hv Hf).
    destruct (clean_full_doc (rid, data)) as (c & Hc & _ & _ & Hck).
    rewrite Hc in Hresp. injection Hresp as ->.
    exists c. split; [done|]. rewrite Hck by done. cbn [snd].
    destruct (ResourceSchema_dump_fields _ _ _ Hdump) as (_&_&_&_&->). done.
Qed.

(** *** login, on a store whose users are known *)

Lemma filter_none {A} (P : A → Prop) `{!∀ x, Decision (P x)} (l : list A) :
  Forall (λ x, ¬ P x) l → filter P l = [].
Proof.
  induction 1 as [|x l Hx _ IH]; [done|]. by rewrite filter_cons_False.
Qed.

Lemma no_match_email (e : string) (l : list (N * Doc)) :
  Forall (λ y, matches {[ "email" := VStr e ]} (full_doc y) = false) l ↔
  Forall (λ y, y.2 !! "email" ≠ Some (VStr e)) l.
Proof.
  apply Forall_iff. intros y.
  by rewrite matches_field, bool_decide_eq_false.
Qed.

(** In a collection without two users of one address, the other users do not
    have the address of a given user. *)
Lemma email_unique (l1 l2 : list (N * Doc)) (d : N * Doc) (e : string) :
  NoDup ((λ d, d.2 !! "email") <$> (l1 ++ d :: l2)) →
  d.2 !! "email" = Some (VStr e) →
  Forall (λ y, y.2 !! "email" ≠ Some (VStr e)) l1 ∧
  Forall (λ y, y.2 !! "email" ≠ Some (VStr e)) l2.
Proof.
  rewrite fmap_app, fmap_cons. intros (_ & Hl1 & Hl2)%NoDup_app Hd.
  apply NoDup_cons in Hl2 as [Hl2 _]. rewrite Hd in Hl1, Hl2.
  split; apply Forall_forall; intros y Hy Hey.
  - apply (Hl1 (Some (VStr e))); [|left].
    rewrite <- Hey. by apply (list_elem_of_fmap_2 (λ d, d.2 !! "email")).
  - apply Hl2. rewrite <- Hey.
    by apply (list_elem_of_fmap_2 (λ d, d.2 !! "email")).
Qed.

Lemma login_existing now id p a s l1 l2 o f0 :
  db a = Some s →
  collection s "user" = l1 ++ (o, f0) :: l2 →
  NoDup (collection s "user").*1 →
  Forall (λ y, y.2 !! "email" ≠ Some (VStr (LoginRequest.email p))) l1 →
  f0 !! "email" = Some (VStr (LoginRequest.email p)) →
  login now id p a =
  (clean (Some (full_doc (o, user_doc now p ∪ f0))),
   {| db := Some (<["user" := l1 ++ (o, user_doc now p ∪ f0) :: l2]> s);
      broadcaster := broadcaster a;
      calls := calls a ++ [CallUpdate "user"] |}).
Proof.
  intros Hdb Hl Hids Hl1 Hf0.
  destruct (login now id p a) as [r a'] eqn:Hrun.
  apply (login_run _ _ _ _ _ _ _ Hdb) in Hrun. rewrite Hl in Hrun, Hids.
  rewrite find_first in Hrun;
    [|by apply no_match_email
     |by rewrite matches_field, bool_decide_eq_true].
  destruct Hrun as [-> ->]. destruct (id_selects _ _ _ Hids).
  rewrite update_first_split by done. cbn [fst snd]. do 3 f_equal.
  unfold full_doc. cbn [fst snd]. by rewrite insert_union_r.
Qed.

Lemma login_new now id p a s :
  db a = Some s →
  Forall (λ y, y.2 !! "email" ≠ Some (VStr (LoginRequest.email p)))
    (collection s "user") →
  valid_oid id → id ∉ (collection s "user").*1 →
  login now id p a =
  (clean (Some (full_doc (id, user_doc now p))),
   {| db := Some (<["user" := collection s "user" ++ [(id, user_doc now p)]]> s);
      broadcaster := broadcaster a;
      calls := calls a ++ [CallInsert "user"] |}).
Proof.
  intros Hdb Hl Hv Hfresh.
  destruct (login now id p a) as [r a'] eqn:Hrun.
  apply (login_run _ _ _ _ _ _ _ Hdb) in Hrun.
  destruct (List.find _ _) as [d|] eqn:Hfind.
  - apply find_split in Hfind as (l1 & l2 & Hl' & Hd & _).
    rewrite matches_field, bool_decide_eq_true in Hd by done.
    rewrite Forall_forall in Hl. destruct (Hl d); [|done].
    rewrite Hl'. apply elem_of_app. right. left.
  - destruct Hrun as [-> Hr]. by rewrite Hr.
Qed.

Lemma users_with_single (e : string) (s : Store) l1 l2 o f :
  Forall (λ y, y.2 !! "email" ≠ Some (VStr e)) l1 →
  Forall (λ y, y.2 !! "email" ≠ Some (VStr e)) l2 →
  f !! "email" = Some (VStr e) →
  users_with e (<["user" := l1 ++ (o, f) :: l2]> s) = [(o, f)].
Proof.
  intros Hl1 Hl2 Hf. unfold users_with. rewrite collection_insert, decide_True by done.
  rewrite filter_app, filter_cons_True by done.
  by rewrite !filter_none.
Qed.

(** Two logins with one e-mail address, the first on a store whose users are
    [l1 ++ (o, f1) :: l2] once it is done. *)
Lemma login_again now2 id2 p2 a1 s l1 l2 o f1 :
  db a1 = Some (<["user" := l1 ++ (o, f1) :: l2]> s) →
  NoDup (l1 ++ (o, f1) :: l2).*1 →
  Forall (λ y, y.2 !! "email" ≠ Some (VStr (LoginRequest.email p2))) l1 →
  Forall (λ y, y.2 !! "email" ≠ Some (VStr (LoginRequest.email p2))) l2 →
  f1 !! "email" = Some (VStr (LoginRequest.email p2)) →
  ∃ r2 a2 s2 f2,
    login now2 id2 p2 a1 = (Ok (Some r2), a2) ∧
    db a2 = Some s2 ∧
    users_with (LoginRequest.email p2) s2 = [(o, f2)] ∧
    user_doc now2 p2 ⊆ f2 ∧
    (collection s2 "user").*1 = (l1 ++ (o, f1) :: l2).*1 ∧
    clean (Some (full_doc (o, f2))) = Ok (Some r2).
Proof.
  intros Hdb Hids Hl1 Hl2 Hf1.
  destruct (clean_full_doc (o, user_doc now2 p2 ∪ f1)) as (r2 & Hc & _).
  exists r2. eexists. eexists. exists (user_doc now2 p2 ∪ f1).
  split.
  { rewrite (login_existing now2 id2 p2 a1 _ l1 l2 o f1 Hdb); try done.
    - by rewrite Hc.
    - by rewrite collection_insert, decide_True.
    - by rewrite collection_insert, decide_True. }
  split; [done|]. rewrite insert_insert_eq.
  split.
  { apply users_with_single; try done.
    by rewrite (lookup_union_Some_l _ _ _ _ (user_doc_email now2 p2)). }
  split; [apply map_union_subseteq_l|].
  split; [|done].
  rewrite collection_insert, decide_True by done.
  by rewrite !fmap_app, !fmap_cons.
Qed.

(** C8. On a reachable state with a store, two logins with one e-mail address
    both answer with a document, and after each of them exactly one user is
    stored under that address: the same record both times (same identifier),
    holding after the second login every field of the second call (name,
    role, semester, department, active flag, time). The second login adds no
    user. The first one adds a user, at the end, only when none was stored
    under the address. *)
Theorem login_upsert now1 now2 id1 id2 p1 p2 a s :
  app_reachable put_raises isoformat str_other a →
  db a = Some s →
  fresh_ids (ReqLogin now1 id1 p1) a →
  LoginRequest.email p2 = LoginRequest.email p1 →
  ∃ r1 a1 s1 r2 a2 s2 o f1 f2,
    login now1 id1 p1 a = (Ok (Some r1), a1) ∧ db a1 = Some s1 ∧
    login now2 id2 p2 a1 = (Ok (Some r2), a2) ∧ db a2 = Some s2 ∧
    users_with (LoginRequest.email p1) s1 = [(o, f1)] ∧
    users_with (LoginRequest.email p1) s2 = [(o, f2)] ∧
    user_doc now1 p1 ⊆ f1 ∧
    user_doc now2 p2 ⊆ f2 ∧
    (collection s2 "user").*1 = (collection s1 "user").*1 ∧
    (users_with (LoginRequest.email p1) s = [] →
     collection s1 "user" = collection s "user" ++ [(id1, user_doc now1 p1)]) ∧
    (users_with (LoginRequest.email p1) s ≠ [] →
     (collection s1 "user").*1 = (collection s "user").*1) ∧
    clean (Some (full_doc (o, f2))) = Ok (Some r2) ∧
    r2 !! "name" = Some (VStr (LoginRequest.name p2)).
Proof.
  intros Hr Hdb Hfresh He.
  apply app_reachable_wf in Hr as [_ Hwf]. rewrite Hdb in Hwf.
  destruct Hwf as (Hids & Hemails & _).
  cbn [fresh_ids] in Hfresh. unfold ids in Hfresh. rewrite Hdb in Hfresh.
  destruct Hfresh as [Hv Hf].
  assert (∃ l1 l2 o f1 r1,
    login now1 id1 p1 a =
      (Ok (Some r1),
       {| db := Some (<["user" := l1 ++ (o, f1) :: l2]> s);
          broadcaster := broadcaster a;
          calls := calls a ++
            [if decide (users_with (LoginRequest.email p1) s = [])
             then CallInsert "user" else CallUpdate "user"] |}) ∧
    NoDup (l1 ++ (o, f1) :: l2).*1 ∧
    Forall (λ y, y.2 !! "email" ≠ Some (VStr (LoginRequest.email p1))) l1 ∧
    Forall (λ y, y.2 !! "email" ≠ Some (VStr (LoginRequest.email p1))) l2 ∧
    f1 !! "email" = Some (VStr (LoginRequest.email p1)) ∧
    user_doc now1 p1 ⊆ f1 ∧
    (users_with (LoginRequest.email p1) s = [] →
     l1 ++ (o, f1) :: l2 = collection s "user" ++ [(id1, user_doc now1 p1)]) ∧
    (users_with (LoginRequest.email p1) s ≠ [] →
     (l1 ++ (o, f1) :: l2).*1 = (collection s "user").*1))
    as (l1 & l2 & o & f1 & r1 & Hrun1 & Hids1 & Hl1 & Hl2 & Hf1 & Hsub1 & Hnew & Hold).
  { destruct (List.find
      (λ d, matches {[ "email" := VStr (LoginRequest.email p1) ]} (full_doc d))
      (collection s "user")) as [d|] eqn:Hfind.
    - apply find_split in Hfind as (l1 & l2 & Hl & Hd & Hl1).
      rewrite matches_field, bool_decide_eq_true in Hd by done.
      apply no_match_email in Hl1. destruct d as [o f0]. cbn [snd] in Hd.
      assert (users_with (LoginRequest.email p1) s ≠ []) as Hne.
      { unfold users_with. rewrite Hl, filter_app, filter_cons_True by done.
        intros [_ [=]]%app_eq_nil. }
      destruct (clean_full_doc (o, user_doc now1 p1 ∪ f0)) as (r1 & Hc & _).
      exists l1, l2, o, (user_doc now1 p1 ∪ f0), r1.
      rewrite (login_existing now1 id1 p1 a s l1 l2 o f0) by done.
      rewrite Hc, decide_False by done.
      rewrite Hl in Hemails. destruct (email_unique _ _ _ _ Hemails Hd).
      rewrite Hl in Hids |- *.
      repeat split; try done.
      + by rewrite !fmap_app, !fmap_cons in *.
      + by rewrite (lookup_union_Some_l _ _ _ _ (user_doc_email now1 p1)).
      + apply map_union_subseteq_l.
      + by rewrite !fmap_app, !fmap_cons.
    - apply find_none, no_match_email in Hfind.
      assert (users_with (LoginRequest.email p1) s = []) as Hnil
        by (by apply filter_none).
      destruct (clean_full_doc (id1, user_doc now1 p1)) as (r1 & Hc & _).
      exists (collection s "user"), [], id1, (user_doc now1 p1), r1.
      rewrite (login_new now1 id1 p1 a s) by done.
      rewrite Hc, decide_True by done.
      repeat split; try done.
      rewrite fmap_app. apply NoDup_app. split; [done|].
      split; [|apply NoDup_singleton].
      intros x Hx ->%list_elem_of_singleton. done. }
  rewrite <- He in Hl1, Hl2, Hf1.
  match type of Hrun1 with _ = (_, ?x) => set (a1 := x) in * end.
  destruct (login_again now2 id2 p2 a1 s l1 l2 o f1 eq_refl Hids1 Hl1 Hl2 Hf1)
    as (r2 & a2 & s2 & f2 & Hrun2 & Hdb2 & Hu2 & Hsub2 & Hids2 & Hc2).
  rewrite He in Hl1, Hl2, Hf1, Hu2.
  exists r1, a1. eexists. exists r2, a2, s2, o, f1, f2.
  split; [exact Hrun1|]. split; [done|].
  split; [exact Hrun2|]. split; [done|].
  split; [by apply users_with_single|].
  split; [done|]. split; [done|]. split; [done|].
  rewrite collection_insert, decide_True by done.
  split; [done|]. split; [done|]. split; [done|]. split; [done|].
  destruct (clean_full_doc (o, f2)) as (c & Hc & _ & _ & Hck).
  rewrite Hc in Hc2. injection Hc2 as <-.
  rewrite Hck by done. cbn [snd].
  assert (user_doc now2 p2 !! "name" = Some (VStr (LoginRequest.name p2))) as Hn
    by (vm_compute; reflexivity).
  by rewrite (lookup_weaken _ _ _ _ Hn Hsub2).
Qed.

(** *** clean and oid *)

Lemma clean_doc_shape (d c : Doc) :
  clean_doc d = Ok c →
  c !! "_id" = None ∧ (∀ k t, c !! k ≠ Some (VDate t)) ∧ (d ≠ ∅ → c ≠ ∅).
Proof.
  unfold_clean. case_decide as Hd.
  - intros [= <-]. subst d. by repeat split.
  - destruct (d !! "_id") as [v|] eqn:Hid; [|done]. intros [= <-].
    split; [by rewrite lookup_fmap, lookup_insert_ne, lookup_delete_eq|].
    split.
    + intros k t. rewrite lookup_fmap.
      destruct (_ !! k) as [[]|]; done.
    + intros _ Hc. apply (f_equal (λ m : Doc, m !! "id")) in Hc.
      cbv beta in Hc.
      by rewrite lookup_fmap, lookup_insert_eq, lookup_empty in Hc.
Qed.

(** X3. What [clean] returns for a dictionary: no [_id] and no [datetime] is left;
    unless the dictionary was empty (it is then returned as it is), [id] is
    the text of what [_id] held, which replaces an [id] the document may have
    had; every other field is kept, a [datetime] as its ISO text. *)
Theorem clean_doc_result (d c : Doc) :
  clean_doc d = Ok c →
  c !! "_id" = None ∧
  (∀ k t, c !! k ≠ Some (VDate t)) ∧
  (d = ∅ → c = ∅) ∧
  (d ≠ ∅ → ∃ v, d !! "_id" = Some v ∧ c !! "id" = Some (VStr (py_str str_other v))) ∧
  (∀ k, k ≠ "id" → k ≠ "_id" → c !! k = rendered isoformat <$> d !! k).
Proof.
  unfold_clean. case_decide as Hd.
  - intros [= <-]. subst d. repeat split; try done;
      intros; by rewrite ?lookup_empty.
  - destruct (d !! "_id") as [v|] eqn:Hid; [|done]. intros [= <-].
    split; [by rewrite lookup_fmap, lookup_insert_ne, lookup_delete_eq|].
    split; [|split; [done|split]].
    + intros k t. rewrite lookup_fmap.
      destruct (_ !! k) as [[]|]; done.
    + intros _. exists v. split; [done|].
      by rewrite lookup_fmap, lookup_insert_eq.
    + intros k Hk1 Hk2.
      by rewrite lookup_fmap, lookup_insert_ne, lookup_delete_ne.
Qed.

(** X4. [clean] is to be applied once: on the result of a first [clean] of a
    dictionary that is not empty, a second [clean] raises [KeyError] for
    [_id], and so it does on any dictionary that is not empty and has no
    [_id]. *)
Theorem clean_doc_twice (d c : Doc) :
  d ≠ ∅ →
  (d !! "_id" = None → clean_doc d = Raise (KeyError "_id")) ∧
  (clean_doc d = Ok c → clean_doc c = Raise (KeyError "_id")).
Proof.
  intros Hd. split.
  - intros Hid. unfold_clean. by rewrite decide_False, Hid.
  - intros Hc. destruct (clean_doc_shape d c Hc) as (Hid & _ & Hne).
    unfold_clean. rewrite decide_False, Hid; [done|]. by apply Hne.
Qed.

(** X5. [oid] on the text of an identifier of twelve bytes gives the
    identifier; it refuses every string that has not 24 characters, and
    raises nothing but the client error 400. What it accepts has 24
    characters and is an identifier of twelve bytes when none of them is
    whitespace; otherwise it is one of fewer bytes (the whitespace that
    [bytes.fromhex] skips), whose text is two digits for a byte and so has
    fewer than 24 characters. *)
Theorem oid_round_trip :
  (∀ o, valid_oid o → oid (oid_str o) = Ok (VOid o)) ∧
  (∀ x, String.length x ≠ 24%nat →
        oid x = Raise (HTTPException 400 "Invalid id")) ∧
  (∀ x e, oid x = Raise e → e = HTTPException 400 "Invalid id") ∧
  (∀ x v, oid x = Ok v →
     String.length x = 24%nat ∧
     ((∃ o, v = VOid o ∧ valid_oid o ∧
            Forall (λ c, is_space c = false) (String.list_ascii_of_string x)) ∨
      (∃ b, v = VOidBytes b ∧ (length b < 12)%nat ∧
            Exists (λ c, is_space c = true) (String.list_ascii_of_string x) ∧
            String.length (py_str str_other v) = (2 * length b)%nat))).
Proof.
  split; [|split; [|split]].
  - intros o Ho. unfold oid. by rewrite ObjectId_oid_str.
  - intros x Hx. unfold oid. by rewrite ObjectId_length.
  - intros x e. unfold oid. destruct (ObjectId x); by intros [= <-].
  - intros x v. unfold oid.
    destruct (ObjectId x) as [v'|e] eqn:Hx; [|done]. intros [= <-].
    destruct (ObjectId_accepts x v' Hx) as [Hlen Hv].
    rewrite length_list_ascii in Hlen. split; [done|].
    destruct Hv as [(o & -> & Ho & Hsp)|(b & -> & Hb & _ & Hsp)].
    + left. by exists o.
    + right. exists b. split; [done|]. split; [done|]. split; [done|].
      cbn [py_str]. unfold hexlify.
      rewrite <- length_list_ascii, String.list_ascii_of_string_of_list_ascii.
      clear. induction b as [|y b IH]; [done|].
      cbn [mbind list_bind app length] in *. lia.
Qed.

(** *** create_resource, in full *)

Lemma ResourceSchema_dump_valid p st :
  (1 ≤ CreateResourceRequest.semester p ≤ 8)%Z →
  ∃ data, ResourceSchema_dump p st = Ok data.
Proof.
  intros [H1 H2]. unfold ResourceSchema_dump.
  apply Z.leb_le in H1, H2. rewrite H1, H2. cbn [andb]. by eexists.
Qed.

Lemma ResourceSchema_dump_invalid p st :
  ¬ (1 ≤ CreateResourceRequest.semester p ≤ 8)%Z →
  ResourceSchema_dump p st = Raise ValidationError.
Proof.
  intros Hn. unfold ResourceSchema_dump.
  destruct (_ && _) eqn:Hb; [|done].
  apply andb_true_iff in Hb as [H1 H2]. apply Z.leb_le in H1, H2. lia.
Qed.

(** The state after an upload whose body is valid. *)
Lemma create_resource_state rid nid p a s data r a' :
  db a = Some s →
  ResourceSchema_dump p "pending" = Ok data →
  create_resource rid nid p a = (r, a') →
  a' = {| db := Some (<["notification" :=
                         collection s "notification" ++
                         [(nid, created_notification rid p)]]>
                      (<["resource" := collection s "resource" ++ [(rid, data)]]> s));
          broadcaster :=
            hub_step put_raises (OpBroadcast (created_event rid p)) (broadcaster a);
          calls := calls a ++ [CallInsert "resource"; CallInsert "notification";
                               CallBroadcast (created_event rid p)] |}.
Proof.
  intros Hdb Hdump. unfold_handler. mrun Hdb. rewrite Hdump.
  destruct (ResourceSchema_dump_fields _ _ _ Hdump)
    as (Ht & Hu & Hsem & Hsub & Hst).
  unfold getitem. rewrite Ht, Hu, Hsem, Hsub.
  cbn [NotificationSchema_dump py_str]. mgo Hdb.
  rewrite call_broadcast_eq. mgo Hdb.
  rewrite <- !app_assoc. cbn [app].
  assert (collection (<["resource" := collection s "resource" ++ [(rid, data)]]> s)
            "notification" = collection s "notification") as ->
    by (by rewrite collection_insert, decide_False).
  unfold created_notification, created_event.
  destruct (ObjectId (oid_str rid)) as [o'|e]; mgo Hdb;
    [destruct_clean|]; by intros [= _ <-].
Qed.

(** X6. An upload with a semester from 1 to 8, on a reachable state with a store:
    it answers with the stored resource, pending, under its new [id]; it adds
    the resource at the end of the resources and one [resource_created]
    notification at the end of the notifications, and it calls [broadcast]
    once with the event, which every subscriber gets appended to its queue;
    these three calls are all it makes. *)
Theorem create_resource_success rid nid p a s :
  app_reachable put_raises isoformat str_other a →
  db a = Some s →
  fresh_ids (ReqCreateResource rid nid p) a →
  (1 ≤ CreateResourceRequest.semester p ≤ 8)%Z →
  ∃ data c a',
    ResourceSchema_dump p "pending" = Ok data ∧
    create_resource rid nid p a = (Ok (Some c), a') ∧
    db a' = Some (<["notification" :=
                      collection s "notification" ++
                      [(nid, created_notification rid p)]]>
                   (<["resource" := collection s "resource" ++ [(rid, data)]]> s)) ∧
    calls a' = calls a ++ [CallInsert "resource"; CallInsert "notification";
                           CallBroadcast (created_event rid p)] ∧
    subscribers (broadcaster a') = subscribers (broadcaster a) ∧
    (∀ q, q ∈ subscribers (broadcaster a) →
          queue_items (broadcaster a') q =
          queue_items (broadcaster a) q ++
          (if put_raises q (created_event rid p) then [] else [created_event rid p])) ∧
    c !! "_id" = None ∧
    c !! "id" = Some (VStr (oid_str rid)) ∧
    c !! "status" = Some (VStr "pending") ∧
    c !! "title" = Some (VStr (CreateResourceRequest.title p)).
Proof.
  intros Hr Hdb Hfresh Hsem.
  apply app_reachable_wf in Hr as [Hhub _].
  cbn [fresh_ids] in Hfresh. unfold ids in Hfresh. rewrite Hdb in Hfresh.
  destruct Hfresh as (Hv & Hf & _).
  destruct (ResourceSchema_dump_valid p "pending" Hsem) as [data Hdump].
  destruct (create_resource rid nid p a) as [r a'] eqn:Hrun.
  pose proof (create_resource_state _ _ _ _ _ _ _ _ Hdb Hdump Hrun) as Ha'.
  apply (create_resource_run _ _ _ _ _ _ _ Hdb) in Hrun
    as [(Hbad & _)|(data' & s1 & Hdump' & _ & _ & _ & _ & Hresp)];
    [by rewrite Hdump in Hbad|].
  rewrite Hdump in Hdump'. injection Hdump' as <-.
  specialize (Hresp Hv Hf).
  destruct (clean_full_doc (rid, data)) as (c & Hc & Hcid & Hc_id & Hck).
  rewrite Hc in Hresp. subst r.
  destruct (ResourceSchema_dump_fields _ _ _ Hdump) as (Ht & _ & _ & _ & Hst).
  destruct (broadcast_items put_raises (created_event rid p) _ Hhub)
    as (h' & Hb & Hs & _ & Hin & _).
  exists data, c, a'. split; [done|]. split; [done|].
  rewrite Ha'. cbn [db calls broadcaster hub_step]. rewrite Hb. cbn [snd].
  repeat split; try done.
  - rewrite Hck by done. cbn [snd]. by rewrite Hst.
  - rewrite Hck by done. cbn [snd]. by rewrite Ht.
Qed.

(** X7. An upload whose semester is not from 1 to 8 is refused before anything
    is done: [ValidationError], with the state as it was, whether or not
    there is a store. *)
Theorem create_resource_invalid_semester rid nid p a :
  ¬ (1 ≤ CreateResourceRequest.semester p ≤ 8)%Z →
  create_resource rid nid p a = (Raise ValidationError, a).
Proof.
  intros Hsem. unfold_handler. munfold.
  by rewrite ResourceSchema_dump_invalid.
Qed.

(** *** approve_resource, in full *)

Lemma approval_other now1 now2 p (f : Doc) (k : string) :
  k ≠ "status" → k ≠ "approved_by" → k ≠ "approved_at" → k ≠ "updated_at" →
  (approval now1 now2 p ∪ f) !! k = f !! k.
Proof.
  intros. apply lookup_union_r. unfold approval.
  by rewrite !lookup_insert_ne, lookup_empty.
Qed.

(** The approval of a stored resource that is not approved yet, up to the
    point where the updated document has been read back. *)
Lemma approve_reads_back now1 now2 nid rid p a s o f :
  db a = Some s →
  ObjectId rid = Ok (VOid o) →
  NoDup (collection s "resource").*1 →
  (o, f) ∈ collection s "resource" →
  f !! "status" ≠ Some (VStr "approved") →
  let u := (o, approval now1 now2 p ∪ f) in
  let a1 := {| db := Some (<["resource" :=
                  update_first {[ "_id" := VOid o ]} (approval now1 now2 p)
                    (collection s "resource")]> s);
               broadcaster := broadcaster a;
               calls := calls a ++ [CallUpdate "resource"] |} in
  u ∈ update_first {[ "_id" := VOid o ]} (approval now1 now2 p)
        (collection s "resource") ∧
  approve_resource now1 now2 nid rid p a =
  (title ← lift_result (getitem (full_doc u) "title");
   uid ← lift_result (getitem (full_doc u) "_id");
   notif ← lift_result
     (NotificationSchema_dump "resource_approved"
        ("Resource approved: " +:+ py_str str_other title)
        (VStr (py_str str_other uid))
        (VStr (ApproveRequest.approved_by p))
        (dict_get (full_doc u) "semester") (dict_get (full_doc u) "subject"));
   create_document nid "notification" notif;;
   uid' ← lift_result (getitem (full_doc u) "_id");
   call_broadcast
     (<["event" := VStr "resource_approved"]>
     (<["resource_id" := VStr (py_str str_other uid')]> ∅));;
   lift_result (clean (Some (full_doc u)))) a1.
Proof.
  intros Hdb Hid Hnd Hin Hst u a1.
  pose proof (find_by_id _ _ _ Hnd Hin) as Hfind.
  apply list_elem_of_split in Hin as (l1 & l2 & Hl).
  assert (update_first {[ "_id" := VOid o ]} (approval now1 now2 p)
            (collection s "resource") = l1 ++ u :: l2) as Hupd.
  { rewrite Hl in Hnd |- *. destruct (id_selects _ _ _ Hnd).
    by rewrite update_first_split. }
  split; [rewrite Hupd; apply elem_of_app; right; left|].
  assert (List.find (λ d, matches {[ "_id" := VOid o ]} (full_doc d))
            (update_first {[ "_id" := VOid o ]} (approval now1 now2 p)
               (collection s "resource")) = Some u) as Hfind'.
  { apply (find_by_id _ o (approval now1 now2 p ∪ f)).
    - by rewrite update_first_ids.
    - rewrite Hupd. apply elem_of_app. right. left. }
  unfold_handler. unfold oid. rewrite Hid.
  mrun Hdb. rewrite Hfind. cbn [fmap option_fmap option_map].
  rewrite truthy_full_doc. cbn [negb].
  rewrite decide_False by (by rewrite full_doc_field).
  unfold getitem at 1 2. rewrite full_doc_id. cbn [fst]. mgo Hdb.
  rewrite collection_insert, decide_True by done.
  rewrite Hfind'. reflexivity.
Qed.

(** X8. The approval of a pending resource as an upload stores it (with a title,
    a semester and a subject), on a reachable state with a store: it answers
    with the resource, approved, with the approver and the two times as ISO
    text; the stored resource has these fields and keeps its others; one
    [resource_approved] notification is added at the end of the
    notifications and [broadcast] is called once with the event, which every
    subscriber gets appended to its queue; these three calls are all it
    makes. The identifier in the event is the canonical text of the
    [ObjectId], whatever the case of the path id. *)
Theorem approve_resource_success now1 now2 nid rid p a s o f t n sj :
  app_reachable put_raises isoformat str_other a →
  db a = Some s →
  ObjectId rid = Ok (VOid o) →
  (o, f) ∈ collection s "resource" →
  f !! "status" = Some (VStr "pending") →
  f !! "title" = Some (VStr t) →
  f !! "semester" = Some (VInt n) →
  f !! "subject" = Some (VStr sj) →
  ∃ c a',
    approve_resource now1 now2 nid rid p a = (Ok (Some c), a') ∧
    db a' = Some (<["notification" :=
                      collection s "notification" ++
                      [(nid, approved_notification o t (ApproveRequest.approved_by p)
                               (VInt n) (VStr sj))]]>
                   (<["resource" :=
                      update_first {[ "_id" := VOid o ]} (approval now1 now2 p)
                        (collection s "resource")]> s)) ∧
    (o, approval now1 now2 p ∪ f) ∈
      update_first {[ "_id" := VOid o ]} (approval now1 now2 p)
        (collection s "resource") ∧
    calls a' = calls a ++ [CallUpdate "resource"; CallInsert "notification";
                           CallBroadcast (approved_event o)] ∧
    subscribers (broadcaster a') = subscribers (broadcaster a) ∧
    (∀ q, q ∈ subscribers (broadcaster a) →
          queue_items (broadcaster a') q =
          queue_items (broadcaster a) q ++
          (if put_raises q (approved_event o) then [] else [approved_event o])) ∧
    c !! "id" = Some (VStr (oid_str o)) ∧
    c !! "status" = Some (VStr "approved") ∧
    c !! "approved_by" = Some (VStr (ApproveRequest.approved_by p)) ∧
    c !! "approved_at" = Some (VStr (isoformat now1)) ∧
    c !! "updated_at" = Some (VStr (isoformat now2)) ∧
    c !! "title" = Some (VStr t).
Proof.
  intros Hr Hdb Hid Hin Hst Ht Hsem Hsub.
  apply app_reachable_wf in Hr as [Hhub Hwf]. rewrite Hdb in Hwf.
  destruct Hwf as (_ & _ & Hids & _).
  destruct (approve_reads_back now1 now2 nid rid p a s o f Hdb Hid Hids Hin)
    as [Hu Hrun]; [by rewrite Hst|].
  destruct (clean_full_doc (o, approval now1 now2 p ∪ f))
    as (c & Hc & Hcid & _ & Hck).
  destruct (broadcast_items put_raises (approved_event o) _ Hhub)
    as (h' & Hb & Hs & _ & Hq & _).
  unfold approved_event, approved_notification in *.
  exists c. eexists. split.
  { rewrite Hrun. munfold. unfold getitem, dict_get.
    rewrite full_doc_id, !full_doc_field by done. cbn [snd fst].
    rewrite !approval_other by done. rewrite Ht, Hsem, Hsub.
    cbn [default from_option id NotificationSchema_dump py_str]. mgo Hdb.
    rewrite call_broadcast_eq. mgo Hdb. rewrite Hc.
    rewrite collection_insert, decide_False by done.
    rewrite <- !app_assoc. cbn [app]. reflexivity. }
  cbn [db calls broadcaster hub_step]. rewrite Hb. cbn [snd].
  split; [done|]. split; [done|]. split; [done|]. split; [done|]. split; [done|].
  split; [done|].
  assert (∀ k v, approval now1 now2 p !! k = Some v →
                 k ≠ "id" → k ≠ "_id" →
                 c !! k = Some (rendered isoformat v)) as Happ.
  { intros k v Hk ? ?. rewrite Hck by done. cbn [snd].
    by rewrite (lookup_union_Some_l _ _ _ _ Hk). }
  split; [by apply (Happ "status" (VStr "approved"))|].
  split; [by apply (Happ "approved_by" (VStr (ApproveRequest.approved_by p)))|].
  split; [by apply (Happ "approved_at" (VDate now1))|].
  split; [by apply (Happ "updated_at" (VDate now2))|].
  rewrite Hck by done. cbn [snd]. by rewrite approval_other, Ht.
Qed.

(** X9. The approval is not atomic: for a stored resource that is not approved
    and has no [title] (no upload stores such a one; the store may hold it),
    in a collection without two resources of one identifier,
    [approve_resource] raises [KeyError] for [title]
    after it has written the approval; the resource is then stored as
    approved, while no notification has been added and nothing has been
    broadcast. *)
Theorem approve_resource_without_title now1 now2 nid rid p a s o f :
  NoDup (collection s "resource").*1 →
  db a = Some s →
  ObjectId rid = Ok (VOid o) →
  (o, f) ∈ collection s "resource" →
  f !! "status" ≠ Some (VStr "approved") →
  f !! "title" = None →
  approve_resource now1 now2 nid rid p a =
  (Raise (KeyError "title"),
   {| db := Some (<["resource" :=
            update_first {[ "_id" := VOid o ]} (approval now1 now2 p)
              (collection s "resource")]> s);
      broadcaster := broadcaster a;
      calls := calls a ++ [CallUpdate "resource"] |}) ∧
  (o, approval now1 now2 p ∪ f) ∈
    update_first {[ "_id" := VOid o ]} (approval now1 now2 p)
      (collection s "resource") ∧
  (approval now1 now2 p ∪ f) !! "status" = Some (VStr "approved").
Proof.
  intros Hids Hdb Hid Hin Hst Ht.
  destruct (approve_reads_back now1 now2 nid rid p a s o f Hdb Hid Hids Hin Hst)
    as [Hu Hrun].
  split; [|split; [done|]].
  - rewrite Hrun. munfold. unfold getitem.
    rewrite full_doc_field by done. cbn [snd].
    by rewrite approval_other, Ht.
  - by rewrite (lookup_union_Some_l _ _ _ _ (approval_status now1 now2 p)).
Qed.

(** *** login, the response *)

Lemma clean_doc_full (d : N * Doc) :
  ∃ c, clean_doc (full_doc d) = Ok c ∧
       c !! "id" = Some (VStr (oid_str d.1)) ∧
       c !! "_id" = None ∧
       (∀ k t, c !! k ≠ Some (VDate t)) ∧
       ∀ k, k ≠ "id" → k ≠ "_id" → c !! k = rendered isoformat <$> d.2 !! k.
Proof.
  destruct (clean_full_doc d) as (c & Hc & Hid & H_id & Hk).
  revert Hc. unfold_clean. fold (clean_doc (full_doc d)).
  destruct (clean_doc (full_doc d)) as [c'|e] eqn:Hcd; [|done].
  intros [= ->]. exists c. split; [done|].
  destruct (clean_doc_shape _ _ Hcd) as (_ & Hdates & _).
  by repeat split.
Qed.

Lemma user_doc_field now p (k : string) (v : Value) :
  k ≠ "updated_at" → user_doc now p !! k = Some v → rendered isoformat v = v.
Proof.
  intros Hk. unfold user_doc.
  repeat (rewrite lookup_insert_Some; intros [[<- <-]|[_ H]]; [|revert H]);
    try done.
  by destruct (LoginRequest.semester p).
Qed.

(** X10. A login on a store, with a new identifier at hand: it answers with
    the user stored under the e-mail address, with [id] for [_id] and the
    fields of the call (the department [CSE], the active flag) as they are;
    it makes one call to the store, leaves the other collections as they are
    and does not reach the broadcaster. When a user has the address the call
    is an update, and the time of the answer is the text of the [datetime]
    that the handler made (the answer is built from the dictionary in
    memory); when none has it the call is an insertion and the answer is
    the document read back from the store, of whose time it is only stated
    that it is text. *)
Theorem login_response now id p a s :
  db a = Some s →
  valid_oid id →
  id ∉ (collection s "user").*1 →
  ∃ c a' s' o,
    login now id p a = (Ok (Some c), a') ∧
    db a' = Some s' ∧
    broadcaster a' = broadcaster a ∧
    (∀ name, name ≠ "user" → collection s' name = collection s name) ∧
    o ∈ (collection s' "user").*1 ∧
    c !! "_id" = None ∧
    c !! "id" = Some (VStr (oid_str o)) ∧
    (∀ k v, k ≠ "updated_at" → user_doc now p !! k = Some v → c !! k = Some v) ∧
    c !! "email" = Some (VStr (LoginRequest.email p)) ∧
    c !! "department" = Some (VStr "CSE") ∧
    (∃ text, c !! "updated_at" = Some (VStr text)) ∧
    (users_with (LoginRequest.email p) s ≠ [] →
       calls a' = calls a ++ [CallUpdate "user"] ∧
       c !! "updated_at" = Some (VStr (isoformat now))) ∧
    (users_with (LoginRequest.email p) s = [] →
       calls a' = calls a ++ [CallInsert "user"]).
Proof.
  intros Hdb Hv Hfresh.
  assert (user_doc now p !! "_id" = None) as Hno_id by (vm_compute; reflexivity).
  assert (user_doc now p !! "id" = None) as Hnoid by (vm_compute; reflexivity).
  assert (∀ (c f : Doc),
    (∀ k, k ≠ "id" → k ≠ "_id" →
          c !! k = rendered isoformat <$> (user_doc now p ∪ f) !! k) →
    (∀ k v, k ≠ "updated_at" → user_doc now p !! k = Some v → c !! k = Some v) ∧
    c !! "email" = Some (VStr (LoginRequest.email p)) ∧
    c !! "department" = Some (VStr "CSE") ∧
    c !! "updated_at" = Some (VStr (isoformat now))) as Hfields.
  { intros c f Hck.
    assert (∀ k v, user_doc now p !! k = Some v →
                   c !! k = Some (rendered isoformat v)) as H.
    { intros k v Hk. rewrite Hck.
      - by rewrite (lookup_union_Some_l _ _ _ _ Hk).
      - intros ->. by rewrite Hnoid in Hk.
      - intros ->. by rewrite Hno_id in Hk. }
    split.
    { intros k v Hk Hkv. by rewrite (H k v Hkv), (user_doc_field now p k v). }
    split; [apply (H "email" (VStr (LoginRequest.email p))); vm_compute; reflexivity|].
    split; [apply (H "department" (VStr "CSE")); vm_compute; reflexivity|].
    apply (H "updated_at" (VDate now)); vm_compute; reflexivity. }
  destruct (login now id p a) as [r a'] eqn:Hrun.
  apply (login_run _ _ _ _ _ _ _ Hdb) in Hrun.
  destruct (List.find _ _) as [d|] eqn:Hfind.
  - destruct Hrun as [-> ->].
    replace (user_doc now p ∪ full_doc d)
      with (full_doc (d.1, user_doc now p ∪ d.2))
      by (unfold full_doc; cbn [fst snd]; by rewrite insert_union_r).
    destruct (clean_full_doc (d.1, user_doc now p ∪ d.2))
      as (c & Hc & Hcid & Hc_id & Hck).
    destruct (Hfields c d.2 Hck) as (Hf1 & Hf2 & Hf3 & Hf4).
    rewrite Hc. exists c. eexists. eexists. exists d.1.
    split; [done|]. split; [done|]. split; [done|].
    split; [intros name Hname; by rewrite collection_insert, decide_False|].
    split.
    { rewrite collection_insert, decide_True, update_first_ids by done.
      apply find_split in Hfind as (l1 & l2 & -> & _).
      rewrite fmap_app, fmap_cons. apply elem_of_app. right. left. }
    split; [done|]. split; [done|]. split; [done|]. split; [done|].
    split; [done|]. split; [by exists (isoformat now)|]. split; [done|].
    intros Hnone. exfalso.
    apply find_split in Hfind as (l1 & l2 & Hl & Hd & _).
    rewrite matches_field, bool_decide_eq_true in Hd by done.
    assert (d ∈ users_with (LoginRequest.email p) s) as Hin.
    { apply list_elem_of_filter. split; [done|].
      rewrite Hl. apply elem_of_app. right. left. }
    rewrite Hnone in Hin. by apply elem_of_nil in Hin.
  - destruct Hrun as [-> Hr]. rewrite (Hr Hv Hfresh).
    destruct (clean_full_doc (id, user_doc now p))
      as (c & Hc & Hcid & Hc_id & Hck).
    destruct (Hfields c ∅) as (Hf1 & Hf2 & Hf3 & Hf4).
    { intros k ? ?. rewrite Hck by done. cbn [snd].
      by rewrite (right_id_L ∅ (∪)). }
    rewrite Hc. exists c. eexists. eexists. exists id.
    split; [done|]. split; [done|]. split; [done|].
    split; [intros name Hname; by rewrite collection_insert, decide_False|].
    split.
    { rewrite collection_insert, decide_True by done.
      rewrite fmap_app. apply elem_of_app. right. left. }
    split; [done|]. split; [done|]. split; [done|]. split; [done|].
    split; [done|]. split; [by exists (isoformat now)|]. split; [|done].
    intros Hsome. destruct Hsome. apply filter_none.
    by apply no_match_email, find_none.
Qed.

(** *** The listings *)

Lemma map_result_clean (docs : list (N * Doc)) :
  ∃ cs, map_result clean_doc (full_doc <$> docs) = Ok cs ∧
        Forall2 (λ d c, clean_doc (full_doc d) = Ok c) docs cs.
Proof.
  induction docs as [|d docs (cs & Hcs & Hall)].
  - exists []. split; [done | constructor].
  - destruct (clean_doc_full d) as (c & Hc & _).
    exists (c :: cs). rewrite fmap_cons. cbn [map_result].
    rewrite Hc, Hcs. split; [done | by constructor].
Qed.

Lemma Forall_filter_bool {A} (f : A → bool) (l : list A) :
  Forall (λ x, x ∈ l ∧ f x = true) (List.filter f l).
Proof.
  induction l as [|x l IH]; [constructor|]. cbn [List.filter].
  destruct (f x) eqn:Hx.
  - constructor; [split; [left | done]|].
    eapply Forall_impl; [exact IH|]. intros y [? ?]. split; [by right | done].
  - eapply Forall_impl; [exact IH|]. intros y [? ?]. split; [by right | done].
Qed.

(** What a listing of the resources returns for a filter [q] and a limit:
    documents of the collection that the filter selects, cleaned. *)
Lemma listing_spec (q : Doc) (lim : option Z) (a : App) (s : Store) :
  db a = Some s →
  ∃ docs cs,
    (docs' ← get_documents "resource" q lim;
     lift_result (map_result clean_doc docs')) a = (Ok cs, a) ∧
    Forall2 (λ d c, clean_doc (full_doc d) = Ok c) docs cs ∧
    Forall (λ d, d ∈ collection s "resource" ∧ matches q (full_doc d) = true) docs ∧
    (∀ n, lim = Some n → (length docs ≤ Z.to_nat n)%nat).
Proof.
  intros Hdb.
  set (found := List.filter (λ d, matches q (full_doc d)) (collection s "resource")).
  set (docs := match lim with Some n => take (Z.to_nat n) found | None => found end).
  destruct (map_result_clean docs) as (cs & Hcs & Hall).
  exists docs, cs. split; [|split; [done|split]].
  - mrun Hdb. fold found.
    replace (match lim with
             | Some n => take (Z.to_nat n) (full_doc <$> found)
             | None => full_doc <$> found
             end) with (full_doc <$> docs)
      by (unfold docs; destruct lim; by rewrite ?fmap_take).
    by rewrite Hcs.
  - pose proof (Forall_filter_bool (λ d, matches q (full_doc d))
                  (collection s "resource")) as Hf. fold found in Hf.
    unfold docs. destruct lim; [by apply Forall_take | done].
  - intros n ->. unfold docs. rewrite length_take. lia.
Qed.

(** X11. [GET /resources] on a store (with [get_documents] as the specification
    describes it): it returns, leaving the state as it was, at most [limit]
    documents, each a resource of the collection with [id] for [_id] and no
    [datetime] left; each has the status asked for unless that is the empty
    string, and the semester asked for if one is given. *)
Theorem list_resources_result sem subj st upl lim a s :
  db a = Some s →
  ∃ l, list_resources sem subj st upl lim a = (Ok l, a) ∧
       (∀ n, lim = Some n → (length l ≤ Z.to_nat n)%nat) ∧
       Forall (λ c, c !! "_id" = None ∧
                    (∃ o, o ∈ (collection s "resource").*1 ∧
                          c !! "id" = Some (VStr (oid_str o))) ∧
                    (∀ k t, c !! k ≠ Some (VDate t)) ∧
                    (st ≠ "" → c !! "status" = Some (VStr st)) ∧
                    (∀ n, sem = Some n → c !! "semester" = Some (VInt n))) l.
Proof.
  intros Hdb.
  destruct (listing_spec (resources_query sem subj st upl) lim a s Hdb)
    as (docs & cs & Hrun & Hall & Hdocs & Hlen).
  exists cs. split; [|split].
  - unfold_handler. revert Hrun. mrun Hdb. done.
  - intros n Hn. rewrite <- (Forall2_length _ _ _ Hall). by apply Hlen.
  - clear Hrun Hlen. induction Hall as [|d c docs cs Hc _ IH]; [constructor|].
    apply Forall_cons in Hdocs as [[Hin Hm] Hdocs].
    constructor; [|by apply IH].
    destruct (clean_doc_full d) as (c' & Hc' & Hid & H_id & Hdates & Hk).
    rewrite Hc in Hc'. injection Hc' as <-.
    split; [done|]. split; [|split; [done|split]].
    + exists d.1. split; [by apply list_elem_of_fmap_2 | done].
    + intros Hst. rewrite Hk by done.
      assert (full_doc d !! "status" = Some (VStr st)) as Hs.
      { apply (matches_lookup _ _ _ _ (eq_trans (resources_query_status _ _ _ _)
                                         (decide_False _ _ Hst)) Hm). }
      rewrite full_doc_field in Hs by done. by rewrite Hs.
    + intros n ->. rewrite Hk by done.
      assert (full_doc d !! "semester" = Some (VInt n)) as Hs.
      { apply (matches_lookup _ _ _ _ (resources_query_semester _ _ _ _) Hm). }
      rewrite full_doc_field in Hs by done. by rewrite Hs.
Qed.

(** X12. [GET /resources/pending] on a store (with [get_documents] as the
    specification describes it): it returns, leaving the state as it was, at
    most 200 documents, each a pending resource of the collection with [id]
    for [_id], of the semester asked for if one is given. *)
Theorem list_pending_result sem subj a s :
  db a = Some s →
  ∃ l, list_pending sem subj a = (Ok l, a) ∧
       (length l ≤ 200)%nat ∧
       Forall (λ c, c !! "_id" = None ∧
                    (∃ o, o ∈ (collection s "resource").*1 ∧
                          c !! "id" = Some (VStr (oid_str o))) ∧
                    c !! "status" = Some (VStr "pending") ∧
                    (∀ n, sem = Some n → c !! "semester" = Some (VInt n))) l.
Proof.
  intros Hdb. unfold_handler. cbv zeta.
  match goal with |- context [get_documents "resource" ?q0 _] => set (q := q0) end.
  assert (q !! "status" = Some (VStr "pending")) as Hqs.
  { unfold q. destruct sem as [n|], subj as [sj|];
      repeat case_decide; by simplify_map_eq. }
  assert (∀ n, sem = Some n → q !! "semester" = Some (VInt n)) as Hqn.
  { intros n ->. unfold q. destruct subj as [sj|];
      repeat case_decide; by simplify_map_eq. }
  destruct (listing_spec q (Some 200%Z) a s Hdb)
    as (docs & cs & Hrun & Hall & Hdocs & Hlen).
  exists cs. split; [done|]. split.
  - rewrite <- (Forall2_length _ _ _ Hall). by apply (Hlen 200%Z).
  - clear Hrun Hlen. induction Hall as [|d c docs cs Hc _ IH]; [constructor|].
    apply Forall_cons in Hdocs as [[Hin Hm] Hdocs].
    constructor; [|by apply IH].
    destruct (clean_doc_full d) as (c' & Hc' & Hid & H_id & Hdates & Hk).
    rewrite Hc in Hc'. injection Hc' as <-.
    split; [done|]. split; [|split].
    + exists d.1. split; [by apply list_elem_of_fmap_2 | done].
    + rewrite Hk by done.
      pose proof (matches_lookup _ _ _ _ Hqs Hm) as Hs.
      rewrite full_doc_field in Hs by done. by rewrite Hs.
    + intros n Hn. rewrite Hk by done.
      pose proof (matches_lookup _ _ _ _ (Hqn n Hn) Hm) as Hs.
      rewrite full_doc_field in Hs by done. by rewrite Hs.
Qed.

(** X13. The [GET] handlers other than the event stream (the two listings, the
    banner, the greeting, the schema, the self-check) leave the state as it
    was: store, hub and record of calls. *)
Theorem read_only_requests r a :
  read_only r = true → handle r a = a.
Proof.
  destruct r; try discriminate; intros _; handle_cases.
  - unfold_request. apply list_resources_state.
  - apply list_pending_state.
  - done.
  - done.
  - done.
  - apply test_database_state.
Qed.

(** *** Nothing is removed *)

Lemma approve_notifications now1 now2 nid rid p a s r a' :
  db a = Some s →
  approve_resource now1 now2 nid rid p a = (r, a') →
  ∃ s' k, db a' = Some s' ∧
          collection s' "notification" = collection s "notification" ++ k ∧
          (length k ≤ 1)%nat.
Proof.
  intros Hdb.
  assert (∃ s' k, db a = Some s' ∧
            collection s' "notification" = collection s "notification" ++ k ∧
            (length k ≤ 1)%nat) as Hsame.
  { exists s, []. rewrite app_nil_r. repeat split; [done | cbn; lia]. }
  destruct (ObjectId rid) as [v|e] eqn:Hid.
  2: { rewrite (approve_invalid_id _ _ _ _ _ _ _ Hdb) by congruence.
       by intros [= <- <-]. }
  destruct (oid_value_cases v) as [[o ->]|Hv].
  2: { rewrite (approve_not_found _ _ _ _ _ _ _ _ Hdb Hid (find_other_id v _ Hv)).
       by intros [= <- <-]. }
  destruct (List.find (λ d, matches {[ "_id" := VOid o ]} (full_doc d))
              (collection s "resource")) as [d|] eqn:Hfind.
  2: { rewrite (approve_not_found _ _ _ _ _ _ _ _ Hdb Hid Hfind).
       by intros [= <- <-]. }
  destruct (decide (d.2 !! "status" = Some (VStr "approved"))) as [Hst|Hst].
  { rewrite (approve_already _ _ _ _ _ _ _ _ _ Hdb Hid Hfind Hst).
    by intros [= <- <-]. }
  clear Hsame. unfold_handler. unfold oid. rewrite Hid.
  mrun Hdb. rewrite Hfind. cbn [fmap option_fmap option_map].
  rewrite truthy_full_doc. cbn [negb].
  rewrite decide_False by (by rewrite full_doc_field).
  unfold getitem at 1 2. rewrite full_doc_id. mgo Hdb.
  rewrite collection_insert, decide_True by done.
  match goal with |- context [List.find ?P ?l] =>
    destruct (List.find P l) as [u|] end; cbn [fmap option_fmap option_map].
  2: { intros [= <- <-]. eexists _, []. split; [done|]. rewrite app_nil_r.
       split; [by coll_simpl | cbn; lia]. }
  destruct (getitem (full_doc u) "title") as [title|e].
  2: { intros [= <- <-]. eexists _, []. split; [done|]. rewrite app_nil_r.
       split; [by coll_simpl | cbn; lia]. }
  destruct (getitem (full_doc u) "_id") as [uid|e].
  2: { intros [= <- <-]. eexists _, []. split; [done|]. rewrite app_nil_r.
       split; [by coll_simpl | cbn; lia]. }
  destruct (NotificationSchema_dump _ _ _ _ _ _) as [notif|e].
  2: { intros [= <- <-]. eexists _, []. split; [done|]. rewrite app_nil_r.
       split; [by coll_simpl | cbn; lia]. }
  mgo Hdb. rewrite call_broadcast_eq. mgo Hdb.
  destruct_clean; mgo Hdb;
    (intros [= <- <-]; eexists _, [_]; split; [done|];
     split; [by coll_simpl | cbn; lia]).
Qed.

Lemma handle_notifications r a s :
  db a = Some s →
  ∃ s' k, db (handle r a) = Some s' ∧
          collection s' "notification" = collection s "notification" ++ k ∧
          (length k ≤ 1)%nat.
Proof.
  intros Hdb.
  assert (∃ s' k, db a = Some s' ∧
            collection s' "notification" = collection s "notification" ++ k ∧
            (length k ≤ 1)%nat) as Hsame.
  { exists s, []. rewrite app_nil_r. repeat split; [done | cbn; lia]. }
  destruct r; handle_cases; try exact Hsame.
  - destruct (login now new_id payload a) as [r a'] eqn:Hrun.
    apply (login_run _ _ _ _ _ _ _ Hdb) in Hrun. cbn [snd].
    destruct (List.find _ _) as [d|]; destruct Hrun as [? ?]; subst a';
      (eexists _, []; split; [done|]; rewrite app_nil_r;
       split; [by coll_simpl | cbn; lia]).
  - destruct (create_resource rid_new nid_new payload a) as [r a'] eqn:Hrun.
    destruct (ResourceSchema_dump payload "pending") as [data|e] eqn:Hdump.
    + rewrite (create_resource_state _ _ _ _ _ _ _ _ Hdb Hdump Hrun).
      eexists _, [_]. split; [done|]. split; [by coll_simpl | cbn; lia].
    + apply (create_resource_run _ _ _ _ _ _ _ Hdb) in Hrun
        as [(_ & _ & ->)|(data & ? & Hd & _)]; [exact Hsame|].
      by rewrite Hdump in Hd.
  - unfold_request. by rewrite list_resources_state.
  - by rewrite list_pending_state.
  - destruct (approve_resource now1 now2 nid_new resource_id payload a)
      as [r a'] eqn:Hrun.
    by apply (approve_notifications _ _ _ _ _ _ _ _ _ Hdb Hrun).
  - unfold events_open. by rewrite on_broadcaster_state.
  - unfold events_next. by rewrite on_broadcaster_state.
  - unfold events_close. by rewrite on_broadcaster_state.
Qed.

(** X14. On a store, whatever the request, no document is removed and none
    changes its place: the identifiers of the users and of the resources
    before the request are the first ones after it, the notifications before
    it are the first ones after it, unchanged, and each of the three
    collections grows by one document at most. *)
Theorem documents_never_removed r a s :
  db a = Some s →
  ∃ s', db (handle r a) = Some s' ∧
    (collection s "user").*1 `prefix_of` (collection s' "user").*1 ∧
    (collection s "resource").*1 `prefix_of` (collection s' "resource").*1 ∧
    collection s "notification" `prefix_of` collection s' "notification" ∧
    (length (collection s' "user") ≤ S (length (collection s "user")))%nat ∧
    (length (collection s' "resource") ≤ S (length (collection s "resource")))%nat ∧
    (length (collection s' "notification") ≤
       S (length (collection s "notification")))%nat.
Proof.
  intros Hdb.
  destruct (handle_effect r a s Hdb) as (s' & Hdb' & _ & Hu & Hr).
  destruct (handle_notifications r a s Hdb) as (s'' & k & Hdb'' & Hn & Hk).
  rewrite Hdb' in Hdb''. injection Hdb'' as <-.
  exists s'. split; [done|].
  assert ((collection s "user").*1 `prefix_of` (collection s' "user").*1 ∧
          (length (collection s' "user") ≤ S (length (collection s "user")))%nat)
    as [? ?].
  { destruct Hu as [->|(now & id & p & _ & ->)]; [split; [done | lia]|].
    destruct (List.find _ _).
    - rewrite update_first_ids, update_first_length. split; [done | lia].
    - rewrite fmap_app, length_app. split; [by apply prefix_app_r | cbn; lia]. }
  assert ((collection s "resource").*1 `prefix_of` (collection s' "resource").*1 ∧
          (length (collection s' "resource") ≤ S (length (collection s "resource")))%nat)
    as [? ?].
  { destruct Hr as [->|[(rid & nid & p & data & _ & _ & ->)
          |(now1 & now2 & nid & rid & p & o & d & _ & _ & _ & _ & ->)]].
    - split; [done | lia].
    - rewrite fmap_app, length_app. split; [by apply prefix_app_r | cbn; lia].
    - rewrite update_first_ids, update_first_length. split; [done | lia]. }
  repeat split; try done.
  - rewrite Hn. by apply prefix_app_r.
  - rewrite Hn, length_app. lia.
Qed.

End ApiFacts.

(** ** The event stream, end to end *)

Lemma events_next_take (q : nat) (m : Doc) (items : list Doc) (a : App) :
  heap (broadcaster a) !! q = Some (m :: items) →
  events_next q a =
  (Ok (Some m),
   {| db := db a;
      broadcaster := {| subscribers := subscribers (broadcaster a);
                        heap := <[q := items]> (heap (broadcaster a));
                        next_q := next_q (broadcaster a) |};
      calls := calls a |}).
Proof.
  intros Hq. unfold events_next, on_broadcaster, Queue_get. by rewrite Hq.
Qed.

(** X15. A client that opens the event stream before an upload (with the queues of
    the program, whose [put] does not raise): the first message its generator
    takes is [connected], the second the [resource_created] event of the
    upload, with the identifier and the title of the resource, and then the
    queue is empty and the generator waits. *)
Theorem stream_receives_upload isoformat str_other rid nid p a s :
  app_reachable asyncio_put isoformat str_other a →
  db a = Some s →
  (1 ≤ CreateResourceRequest.semester p ≤ 8)%Z →
  ∃ q a1 r a2 a3 a4,
    events_open asyncio_put a = (Ok q, a1) ∧
    create_resource asyncio_put isoformat str_other rid nid p a1 = (r, a2) ∧
    events_next q a2 = (Ok (Some connected), a3) ∧
    events_next q a3 = (Ok (Some (created_event rid p)), a4) ∧
    events_next q a4 = (Ok None, a4).
Proof.
  intros Hr Hdb Hsem.
  apply app_reachable_wf in Hr as [Hhub _].
  set (h := broadcaster a) in *.
  set (h1 := {| subscribers := subscribers h ++ [next_q h];
                heap := <[next_q h:=[connected]]> (heap h);
                next_q := S (next_q h) |}).
  set (a1 := {| db := db a; broadcaster := h1; calls := calls a |}).
  assert (subscribe asyncio_put h = (Ok (next_q h), h1)) as Hsubscr
    by (by rewrite subscribe_unfold).
  assert (events_open asyncio_put a = (Ok (next_q h), a1)) as Hopen.
  { unfold events_open, on_broadcaster. fold h. by rewrite Hsubscr. }
  assert (hub_wf h1) as Hwf1.
  { replace h1 with (hub_step asyncio_put OpSubscribe h)
      by (unfold hub_step; by rewrite Hsubscr).
    by apply hub_wf_step. }
  destruct (ResourceSchema_dump_valid p "pending" Hsem) as [data Hdump].
  destruct (create_resource asyncio_put isoformat str_other rid nid p a1)
    as [r a2] eqn:Hrun.
  pose proof (create_resource_state asyncio_put isoformat str_other
                rid nid p a1 s data r a2 Hdb Hdump Hrun) as Ha2.
  destruct Hwf1 as (Hnd1 & _).
  destruct (broadcast_spec asyncio_put (created_event rid p) h1 Hnd1)
    as (h2 & Hb & Hs2 & _ & Hh2).
  assert (heap (broadcaster a2) !! next_q h = Some [connected; created_event rid p])
    as Hq2.
  { rewrite Ha2. cbn [broadcaster hub_step].
    change (broadcaster a1) with h1. rewrite Hb. cbn [snd].
    rewrite Hh2, decide_True.
    - cbn [heap h1]. by rewrite lookup_insert_eq.
    - cbn [subscribers h1]. apply elem_of_app. right. left. }
  exists (next_q h), a1, r, a2. eexists. eexists.
  split; [exact Hopen|]. split; [done|].
  split; [by apply events_next_take|].
  split.
  { apply events_next_take. cbn [broadcaster heap]. by rewrite lookup_insert_eq. }
  unfold events_next, on_broadcaster, Queue_get. cbn [broadcaster heap].
  rewrite lookup_insert_eq. cbn [db calls subscribers next_q].
  by rewrite insert_insert_eq.
Qed.

(** ** The self-check *)

Lemma str_prefix_length (n : nat) (text : string) :
  (String.length (str_prefix n text) ≤ n)%nat.
Proof.
  unfold str_prefix. revert text.
  induction n as [|n IH]; intros [|c text]; cbn; try lia.
  specialize (IH text). lia.
Qed.

Lemma str_prefix_short (n : nat) (text : string) :
  (String.length text ≤ n)%nat → str_prefix n text = text.
Proof.
  unfold str_prefix. revert text.
  induction n as [|n IH]; intros [|c text]; cbn; try done; try lia.
  intros Hlen. f_equal. apply IH. lia.
Qed.

(** X16. [GET /test] always answers, leaving the state as it was, also when
    [db.list_collection_names()] raises: the back end is reported as running;
    the first value of [database] (not available) is never what is returned,
    and neither is the text of the outer [except] clause, which nothing
    reaches. Without a store the answer keeps its first values but for
    [database]. With a store it reports the connection and, for each of the
    two environment variables, whether it is set to a string that is not
    empty; when the listing returns, it reports a working store and at most
    ten names, each of a collection of the store; when the listing raises (an
    exception with a text of ASCII characters), it reports the error with the
    first 50 characters of the text, and no collections. *)
Theorem test_database_response url name err a :
  ∃ r, test_database url name err a = (Ok r, a) ∧
    r !! "backend" = Some (VStr "✅ Running") ∧
    r !! "database" ≠ Some (VStr "❌ Not Available") ∧
    (∀ text, r !! "database" ≠ Some (VStr ("❌ Error: " +:+ text))) ∧
    (db a = None →
       r !! "database" = Some (VStr "⚠️  Available but not initialized") ∧
       r !! "connection_status" = Some (VStr "Not Connected") ∧
       r !! "database_url" = Some VNone ∧
       r !! "database_name" = Some VNone ∧
       r !! "collections" = Some (VList [])) ∧
    (∀ s, db a = Some s →
       r !! "connection_status" = Some (VStr "Connected") ∧
       (r !! "database_url" = Some (VStr "✅ Set") ↔
          ∃ x, url = Some x ∧ x ≠ "") ∧
       (r !! "database_name" = Some (VStr "✅ Set") ↔
          ∃ x, name = Some x ∧ x ≠ "") ∧
       (err = None →
          r !! "database" = Some (VStr "✅ Connected & Working") ∧
          ∃ l, r !! "collections" = Some (VList l) ∧ (length l ≤ 10)%nat ∧
               ∀ c, c ∈ l → is_Some (s !! c)) ∧
       (∀ text, err = Some text → ascii_text text →
          r !! "database" =
            Some (VStr ("⚠️  Connected but Error: " +:+ str_prefix 50 text)) ∧
          (String.length (str_prefix 50 text) ≤ 50)%nat ∧
          ((String.length text ≤ 50)%nat → str_prefix 50 text = text) ∧
          r !! "collections" = Some (VList []))).
Proof.
  pose (setv := λ v : option string,
          match v with
          | Some x => if decide (x = "") then VStr "❌ Not Set" else VStr "✅ Set"
          | None => VStr "❌ Not Set"
          end).
  assert (∀ v, setv v = VStr "✅ Set" ↔ ∃ x, v = Some x ∧ x ≠ "") as Hset.
  { intros [x|]; unfold setv; split.
    - case_decide; [done|]. by exists x.
    - intros (y & [= <-] & Hy). by rewrite decide_False.
    - done.
    - by intros (y & Hy & _). }
  assert (∀ (r : Doc) v,
            r !! "database_url" = Some (setv v) →
            (r !! "database_url" = Some (VStr "✅ Set") ↔ ∃ x, v = Some x ∧ x ≠ ""))
    as Hurl.
  { intros r v ->. rewrite <- Hset. split; [by intros [= ?] | by intros ->]. }
  assert (∀ (r : Doc) v,
            r !! "database_name" = Some (setv v) →
            (r !! "database_name" = Some (VStr "✅ Set") ↔ ∃ x, v = Some x ∧ x ≠ ""))
    as Hname.
  { intros r v ->. rewrite <- Hset. split; [by intros [= ?] | by intros ->]. }
  unfold test_database. cbv zeta.
  destruct (db a) as [s|]; [destruct err as [text|]|];
    (eexists; split; [reflexivity|]).
  - split; [reflexivity|]. split; [by intros [= ?]|].
    split; [by intros text' [= ?]|]. split; [done|].
    intros s' [= <-]. split; [reflexivity|].
    split; [by apply Hurl|]. split; [by apply Hname|].
    split; [done|]. intros text' [= <-] _.
    split; [reflexivity|]. split; [apply str_prefix_length|].
    split; [apply str_prefix_short | reflexivity].
  - split; [reflexivity|]. split; [by intros [= ?]|].
    split; [by intros text' [= ?]|]. split; [done|].
    intros s' [= <-]. split; [reflexivity|].
    split; [by apply Hurl|]. split; [by apply Hname|].
    split; [|done]. intros _. split; [reflexivity|].
    exists (take 10 (map_to_list s).*1).
    split; [reflexivity|]. split; [rewrite length_take; lia|].
    intros c Hc. apply subseteq_take in Hc.
    apply list_elem_of_fmap in Hc as ([k v] & -> & Hkv).
    apply elem_of_map_to_list in Hkv. by exists v.
  - split; [reflexivity|]. split; [by intros [= ?]|].
    split; [by intros text' [= ?]|]. split; [|done].
    intros _. by repeat split.
Qed.

(** ** The handlers and the broadcaster *)

Section HubAccess.

Variable put_raises : nat → Doc → bool.
Variable isoformat : Z → string.
Variable str_other : Value → string.

Lemma broadcasts_only_same {A} (m : M App A) :
  (∀ a, broadcaster (m a).2 = broadcaster a) → broadcasts_only put_raises m.
Proof. intros Hm a. exists []. by rewrite Hm. Qed.

Lemma broadcasts_only_bind {A B} (m : M App A) (f : A → M App B) :
  broadcasts_only put_raises m → (∀ x, broadcasts_only put_raises (f x)) →
  broadcasts_only put_raises (m ≫= f).
Proof.
  intros Hm Hf a. destruct (Hm a) as [ms1 H1].
  unfold mbind, M_bind. destruct (m a) as [[x|e] a1]; cbn [snd] in *.
  - destruct (Hf x a1) as [ms2 H2]. exists (ms1 ++ ms2).
    by rewrite fmap_app, hub_run_app, <- H1.
  - by exists ms1.
Qed.

Lemma broadcasts_only_call (m : Doc) :
  broadcasts_only put_raises (call_broadcast put_raises m).
Proof.
  intros a. exists [m]. unfold call_broadcast, record, modify, on_broadcaster,
    mbind, M_bind. cbn.
  by destruct (broadcast put_raises m (broadcaster a)).
Qed.

Ltac hub_same :=
  apply broadcasts_only_same; intros ?;
  unfold db_is_None, db_getitem, find_one, update_one, create_document,
    get_documents, lift_result, raise, record, modify, get_state, mret, M_ret;
  try match goal with |- context [db ?a] => destruct (db a) end;
  reflexivity.

Ltac hub_walk :=
  repeat first
    [ apply broadcasts_only_call
    | apply broadcasts_only_bind; [|intros ?]
    | hub_same
    | match goal with
      | |- broadcasts_only _ (match ?x with _ => _ end) => destruct x
      end ].

Lemma login_broadcasts_only now id p :
  broadcasts_only put_raises (login isoformat str_other now id p).
Proof. unfold login. hub_walk. Qed.

Lemma create_resource_broadcasts_only rid nid p :
  broadcasts_only put_raises (create_resource put_raises isoformat str_other rid nid p).
Proof. unfold create_resource. hub_walk. Qed.

Lemma approve_resource_broadcasts_only now1 now2 nid rid p :
  broadcasts_only put_raises
    (approve_resource put_raises isoformat str_other now1 now2 nid rid p).
Proof. unfold approve_resource. hub_walk. Qed.

Lemma list_resources_broadcasts_only sem subj st upl lim :
  broadcasts_only put_raises (list_resources isoformat str_other sem subj st upl lim).
Proof. unfold list_resources. hub_walk. Qed.

Lemma list_pending_broadcasts_only sem subj :
  broadcasts_only put_raises (list_pending isoformat str_other sem subj).
Proof. unfold list_pending. cbv zeta. hub_walk. Qed.

Lemma test_database_broadcasts_only url name err :
  broadcasts_only put_raises (test_database url name err).
Proof.
  apply broadcasts_only_same. intros a. reflexivity.
Qed.

Lemma handle_hub (r : Request) (a : App) :
  ∃ ops, broadcaster (handle put_raises isoformat str_other r a) =
         hub_run put_raises ops (broadcaster a) ∧
         ∀ q, r ≠ ReqEventsNext q → Forall (λ op, op ≠ OpGet q) ops.
Proof.
  assert (∀ A (m : M App A), broadcasts_only put_raises m →
            ∃ ops, broadcaster (m a).2 = hub_run put_raises ops (broadcaster a) ∧
                   ∀ q, r ≠ ReqEventsNext q → Forall (λ op, op ≠ OpGet q) ops)
    as Hb.
  { intros A m Hm. destruct (Hm a) as [ms Hms].
    exists (OpBroadcast <$> ms). split; [done|]. intros q _.
    apply Forall_fmap, Forall_true. done. }
  destruct r; cbn [handle].
  - apply Hb, login_broadcasts_only.
  - apply Hb, create_resource_broadcasts_only.
  - apply Hb, list_resources_broadcasts_only.
  - apply Hb, list_pending_broadcasts_only.
  - apply Hb, approve_resource_broadcasts_only.
  - exists [OpSubscribe]. unfold events_open. rewrite on_broadcaster_state.
    split; [done|]. intros. by repeat constructor.
  - exists [OpGet q]. unfold events_next. rewrite on_broadcaster_state.
    split; [done|]. intros q' Hq'. repeat constructor. by intros [= ->].
  - exists [OpUnsubscribe q]. unfold events_close. rewrite on_broadcaster_state.
    split; [done|]. intros. by repeat constructor.
  - exists []. split; [done|]. intros. constructor.
  - exists []. split; [done|]. intros. constructor.
  - exists []. split; [done|]. intros. constructor.
  - apply Hb, test_database_broadcasts_only.
Qed.

Lemma handle_all_hub (rs : list Request) (a : App) :
  ∃ ops, broadcaster (handle_all put_raises isoformat str_other rs a) =
         hub_run put_raises ops (broadcaster a) ∧
         ∀ q, Forall (λ r, r ≠ ReqEventsNext q) rs →
              Forall (λ op, op ≠ OpGet q) ops.
Proof.
  revert a. induction rs as [|r rs IH]; intros a.
  - exists []. split; [done|]. intros. constructor.
  - destruct (handle_hub r a) as (ops1 & H1 & Hg1).
    destruct (IH (handle put_raises isoformat str_other r a)) as (ops2 & H2 & Hg2).
    exists (ops1 ++ ops2). split.
    + unfold handle_all in *. cbn [foldl]. by rewrite H2, H1, hub_run_app.
    + intros q [Hr Hrs]%Forall_cons. apply Forall_app. split; [by apply Hg1 | by apply Hg2].
Qed.

(** X17. Once the stream of a client is closed (its queue exists and is not
    registered), no sequence of requests registers the queue again or
    delivers anything to it: what it holds afterwards is the end of what it
    held, and exactly what it held when no request of the sequence takes a
    message from it. *)
Theorem closed_stream_gets_nothing (rs : list Request) (a : App) (q : nat) :
  app_reachable put_raises isoformat str_other a →
  q < next_q (broadcaster a) →
  q ∉ subscribers (broadcaster a) →
  (q ∉ subscribers (broadcaster (handle_all put_raises isoformat str_other rs a))) ∧
  queue_items (broadcaster (handle_all put_raises isoformat str_other rs a)) q
    `suffix_of` queue_items (broadcaster a) q ∧
  (Forall (λ r, r ≠ ReqEventsNext q) rs →
   queue_items (broadcaster (handle_all put_raises isoformat str_other rs a)) q =
   queue_items (broadcaster a) q).
Proof.
  intros Hr Hq Hout. apply app_reachable_wf in Hr as [Hwf _].
  destruct (handle_all_hub rs a) as (ops & -> & Hget).
  destruct (not_subscribed_run put_raises q ops _ Hwf Hq Hout) as [Hsub Henq].
  pose proof (queue_run put_raises q ops _ Hwf Hq) as Hrun.
  rewrite Henq, app_nil_r in Hrun.
  split; [done|]. split.
  - rewrite <- Hrun. by eexists.
  - intros Hrs. by rewrite <- Hrun, (received_no_get put_raises q ops _ (Hget q Hrs)).
Qed.

End HubAccess.


(** ** The theorems at concrete inputs *)

Lemma hub2_reachable : hub_reachable asyncio_put hub2.
Proof. apply hub_reachable_run. constructor. Qed.

Lemma broadcast_fanout_witness :
  hub_reachable asyncio_put hub2 ∧
  ∃ h', broadcast asyncio_put ev1 hub2 = (Ok (), h') ∧
        queue_items h' 0 = [connected; ev1] ∧
        queue_items h' 1 = [connected; ev1].
Proof.
  split; [exact hub2_reachable|].
  destruct (broadcast_fanout asyncio_put hub2 ev1 hub2_reachable)
    as (h' & Hb & _ & _ & Hin & _).
  exists h'. split; [exact Hb|].
  split; (rewrite Hin; [vm_compute; reflexivity | compute_done]).
Defined.

Lemma fifo_per_subscriber_witness :
  hub_reachable asyncio_put hub2 ∧ 0 ∈ subscribers hub2 ∧
  unsubscribes 0 run_example = false ∧
  received asyncio_put 0 run_example hub2 ++
    queue_items (hub_run asyncio_put run_example hub2) 0 =
  connected :: broadcasts run_example.
Proof.
  split; [exact hub2_reachable|]. split; [compute_done|]. split; [reflexivity|].
  destruct (fifo_per_subscriber asyncio_put hub2 run_example 0 hub2_reachable)
    as (Hq & _ & Hall); [compute_done|].
  rewrite Hq, Hall by reflexivity. vm_compute. reflexivity.
Defined.

Lemma subscribe_fresh_connected_witness :
  hub_reachable asyncio_put hub2 ∧
  ∃ q h2,
    subscribe asyncio_put (hub_run asyncio_put [OpBroadcast ev1] hub2) = (Ok q, h2) ∧
    heap hub2 !! q = None ∧
    queue_items h2 q = [connected] ∧
    received asyncio_put q run_example h2 ++
      queue_items (hub_run asyncio_put run_example h2) q =
    connected :: enqueued asyncio_put q run_example h2.
Proof.
  split; [exact hub2_reachable|].
  destruct (subscribe_fresh_connected hub2 ev1 [] run_example hub2_reachable)
    as (q & h2 & Hs & Hfresh & _ & _ & _ & Hq & _ & Hrun & _).
  by exists q, h2.
Defined.

Lemma unsubscribe_then_broadcast_witness :
  hub_reachable asyncio_put hub2 ∧
  ∃ h1 h2,
    unsubscribe 0 hub2 = (Ok (), h1) ∧
    subscribers h1 = [1] ∧
    broadcast asyncio_put ev1 h1 = (Ok (), h2) ∧
    heap h2 !! 0 = Some [connected] ∧
    queue_items h2 1 = [connected; ev1].
Proof.
  split; [exact hub2_reachable|].
  destruct (unsubscribe_then_broadcast asyncio_put hub2 0 ev1 hub2_reachable)
    as (h1 & h2 & Hu & Hs & _ & _ & _ & Hb & _ & Hc & Hq).
  exists h1, h2. split; [exact Hu|]. split; [by rewrite Hs|].
  split; [exact Hb|]. split; [by rewrite Hc|].
  rewrite Hq; [vm_compute; reflexivity | compute_done | done].
Defined.

Lemma app1_reachable : app_reachable asyncio_put iso_example str_example app1.
Proof.
  apply app_step; [apply app_init_empty|].
  cbn [fresh_ids]. repeat split; try reflexivity; compute_done.
Qed.

Lemma app2_reachable : app_reachable asyncio_put iso_example str_example app2.
Proof.
  apply app_step; [apply app1_reachable|].
  cbn [fresh_ids]. repeat split; try reflexivity; compute_done.
Qed.

Lemma approve_idempotent_witness :
  app_reachable asyncio_put iso_example str_example app2 ∧
  ∃ c,
    approve_resource asyncio_put iso_example str_example 20 21 4 (oid_str 1)
      approve_by_t app2 = (Ok (Some c), app2) ∧
    approve_resource asyncio_put iso_example str_example 30 31 5 (oid_str 1)
      approve_by_t app2 = (Ok (Some c), app2) ∧
    c !! "status" = Some (VStr "approved").
Proof.
  split; [exact app2_reachable|].
  destruct (approve_idempotent asyncio_put iso_example str_example
              20 21 4 30 31 5 (oid_str 1) approve_by_t approve_by_t
              app2 (store_of app2) 1
              (default ∅ (snd <$> head (collection (store_of app2) "resource")))
              app2_reachable)
    as (c & H1 & H2 & _ & Hst & _).
  - reflexivity.
  - reflexivity.
  - compute_done.
  - reflexivity.
  - exists c; split; [exact H1|]; split; [exact H2 | exact Hst].
Defined.

Lemma status_transitions_witness :
  app_reachable asyncio_put iso_example str_example app1 ∧
  ∃ s', db app2 = Some s' ∧
        Forall status_ok (collection s' "resource") ∧
        ∃ f', collection s' "resource" !! 0%nat = Some (1%N, f').
Proof.
  split; [exact app1_reachable|].
  destruct (status_transitions asyncio_put iso_example str_example
              (ReqApprove 10 11 3 (oid_str 1) approve_by_t) app1 (store_of app1)
              app1_reachable)
    as (s' & Hdb & _ & Hok & Hold & _).
  - reflexivity.
  - cbn [fresh_ids]; split; [reflexivity | compute_done].
  - exists s'. split; [exact Hdb|]. split; [exact Hok|].
    destruct (Hold 0%nat 1%N
                (default ∅ (snd <$> head (collection (store_of app1) "resource"))))
      as (f' & Hf' & _).
    + reflexivity.
    + exists f'. exact Hf'.
Defined.

Lemma login_upsert_witness :
  app_reachable asyncio_put iso_example str_example app0 ∧
  ∃ r1 a1 r2 a2 s2 o f2,
    login iso_example str_example 5 1 login_ann app0 = (Ok (Some r1), a1) ∧
    login iso_example str_example 6 2 login_anna a1 = (Ok (Some r2), a2) ∧
    db a2 = Some s2 ∧
    users_with "a@x.com" s2 = [(o, f2)] ∧
    user_doc 6 login_anna ⊆ f2 ∧
    r2 !! "name" = Some (VStr "Anna").
Proof.
  split; [apply app_init_empty|].
  destruct (login_upsert asyncio_put iso_example str_example 5 6 1 2
              login_ann login_anna app0 ∅)
    as (r1 & a1 & s1 & r2 & a2 & s2 & o & f1 & f2 &
        H1 & _ & H2 & Hdb2 & _ & Hu2 & _ & Hsub & _ & _ & _ & _ & Hname).
  - apply app_init_empty.
  - reflexivity.
  - cbn [fresh_ids]; split; [reflexivity | compute_done].
  - reflexivity.
  - exists r1, a1, r2, a2, s2, o, f2.
    split; [exact H1|]. split; [exact H2|]. split; [exact Hdb2|].
    split; [exact Hu2|]. split; [exact Hsub | exact Hname].
Defined.


Lemma empty_status_no_filter_witness :
  db app3 = Some (store_of app3) ∧
  ∃ l, list_resources_request iso_example str_example None None (Some "") None None app3
       = (Ok l, app3) ∧
       (λ d : Doc, d !! "status") <$> l =
       [Some (VStr "pending"); Some (VStr "approved"); Some (VStr "rejected")] ∧
       resources_query None None "approved" None !! "status" = Some (VStr "approved").
Proof.
  split; [reflexivity|].
  destruct (empty_status_no_filter iso_example str_example None None None)
    as (_ & _ & Hall & Hst & _).
  exists (match (list_resources_request iso_example str_example None None (Some "") None None app3).1
          with Ok l => l | Raise _ => [] end).
  split; [|split].
  - rewrite (Hall app3 (store_of app3)) by reflexivity.
    reflexivity.
  - reflexivity.
  - destruct (Hst "approved") as [Hq _]; [discriminate | exact Hq].
Defined.

Lemma hub_left_reachable : hub_reachable asyncio_put hub_left.
Proof. apply hub_reachable_run. constructor. Qed.

Lemma unsubscribed_stays_out_witness :
  hub_reachable asyncio_put hub_left ∧ 0 < next_q hub_left ∧
  (0 ∉ subscribers hub_left) ∧
  enqueued asyncio_put 0 run_example hub_left = [] ∧
  received asyncio_put 0 run_example hub_left ++
    queue_items (hub_run asyncio_put run_example hub_left) 0 = [connected].
Proof.
  assert (0 < next_q hub_left) as Hq by compute_done.
  assert (0 ∉ subscribers hub_left) as Hout by compute_done.
  split; [exact hub_left_reachable|]. split; [exact Hq|]. split; [exact Hout|].
  destruct (unsubscribed_stays_out asyncio_put hub_left run_example 0
              hub_left_reachable Hq Hout) as (_ & He & Hr).
  split; [exact He|]. rewrite Hr. reflexivity.
Defined.

Lemma subscribe_then_unsubscribe_witness :
  hub_reachable asyncio_put hub2 ∧
  ∃ q h1 h2,
    subscribe asyncio_put hub2 = (Ok q, h1) ∧
    unsubscribe q h1 = (Ok (), h2) ∧
    subscribers h2 = [0; 1].
Proof.
  split; [exact hub2_reachable|].
  destruct (subscribe_then_unsubscribe hub2 hub2_reachable)
    as (q & h1 & h2 & Hs & Hu & Hsub & _).
  exists q, h1, h2. split; [exact Hs|]. split; [exact Hu|].
  rewrite Hsub. reflexivity.
Defined.

Lemma clean_doc_result_witness :
  clean_doc iso_example str_example (full_doc (7%N, {[ "approved_at" := VDate 5 ]}))
    = Ok (cleaned_example (full_doc (7%N, {[ "approved_at" := VDate 5 ]}))) ∧
  cleaned_example (full_doc (7%N, {[ "approved_at" := VDate 5 ]})) !! "_id" = None ∧
  cleaned_example (full_doc (7%N, {[ "approved_at" := VDate 5 ]})) !! "approved_at"
    = Some (VStr (iso_example 5)).
Proof.
  assert (clean_doc iso_example str_example (full_doc (7%N, {[ "approved_at" := VDate 5 ]}))
          = Ok (cleaned_example (full_doc (7%N, {[ "approved_at" := VDate 5 ]}))))
    as Hc by reflexivity.
  split; [exact Hc|].
  destruct (clean_doc_result iso_example str_example _ _ Hc)
    as (Hid & _ & _ & _ & Hk).
  split; [exact Hid|].
  rewrite (Hk "approved_at") by discriminate. reflexivity.
Defined.

Lemma clean_doc_twice_witness :
  full_doc (7%N, ∅) ≠ ∅ ∧
  clean_doc iso_example str_example (cleaned_example (full_doc (7%N, ∅)))
    = Raise (KeyError "_id") ∧
  clean_doc iso_example str_example {[ "title" := VStr "Notes" ]}
    = Raise (KeyError "_id").
Proof.
  split; [apply full_doc_nonempty|]. split.
  - destruct (clean_doc_twice iso_example str_example (full_doc (7%N, ∅))
                (cleaned_example (full_doc (7%N, ∅)))
                (full_doc_nonempty (7%N, ∅))) as [_ H].
    apply H. reflexivity.
  - destruct (clean_doc_twice iso_example str_example
                {[ "title" := VStr "Notes" ]} ∅) as [H _]; [compute_done|].
    apply H. reflexivity.
Defined.

Lemma oid_round_trip_witness :
  valid_oid 255 ∧ oid (oid_str 255) = Ok (VOid 255) ∧
  oid "abc" = Raise (HTTPException 400 "Invalid id") ∧
  oid "0000000000000000000001  " = Ok (VOidBytes [0; 0; 0; 0; 0; 0; 0; 0; 0; 0; 1]%N) ∧
  String.length (py_str str_example (VOidBytes [0; 0; 0; 0; 0; 0; 0; 0; 0; 0; 1]%N)) = 22%nat.
Proof.
  destruct (oid_round_trip str_example) as (Hrt & Hlen & _ & Hok).
  split; [reflexivity|]. split; [|split; [|split]].
  - apply Hrt. reflexivity.
  - apply Hlen. discriminate.
  - reflexivity.
  - destruct (Hok "0000000000000000000001  " (VOidBytes [0; 0; 0; 0; 0; 0; 0; 0; 0; 0; 1]%N) eq_refl)
      as [_ [(o & Ho & _)|(b & Hb & _ & _ & Hb2)]]; [discriminate|].
    injection Hb as <-. exact Hb2.
Defined.

Lemma app_open_reachable : app_reachable asyncio_put iso_example str_example app_open.
Proof. apply app_step; [apply app_init_empty | exact I]. Qed.

Lemma create_resource_success_witness :
  app_reachable asyncio_put iso_example str_example app_open ∧
  ∃ c a',
    create_resource asyncio_put iso_example str_example 1 2 upload_notes app_open
      = (Ok (Some c), a') ∧
    calls a' = [CallInsert "resource"; CallInsert "notification";
                CallBroadcast (created_event 1 upload_notes)] ∧
    queue_items (broadcaster a') 0 = [connected; created_event 1 upload_notes] ∧
    c !! "id" = Some (VStr "000000000000000000000001") ∧
    c !! "status" = Some (VStr "pending").
Proof.
  split; [exact app_open_reachable|].
  destruct (create_resource_success asyncio_put iso_example str_example
              1 2 upload_notes app_open ∅ app_open_reachable)
    as (data & c & a' & _ & Hrun & _ & Hcalls & _ & Hq & _ & Hid & Hst & _).
  - reflexivity.
  - cbn [fresh_ids]. repeat split; try reflexivity; compute_done.
  - compute_done.
  - exists c, a'. split; [exact Hrun|]. split; [exact Hcalls|].
    split; [|split; [exact Hid | exact Hst]].
    rewrite (Hq 0%nat) by compute_done. reflexivity.
Defined.

Lemma create_resource_invalid_semester_witness :
  ¬ (1 ≤ CreateResourceRequest.semester upload_semester_9 ≤ 8)%Z ∧
  create_resource asyncio_put iso_example str_example 1 2 upload_semester_9 app0
    = (Raise ValidationError, app0).
Proof.
  assert (¬ (1 ≤ CreateResourceRequest.semester upload_semester_9 ≤ 8)%Z) as H
    by compute_done.
  split; [exact H|].
  exact (create_resource_invalid_semester asyncio_put iso_example str_example
           1 2 upload_semester_9 app0 H).
Defined.

Lemma approve_resource_success_witness :
  app_reachable asyncio_put iso_example str_example app1 ∧
  ∃ c a',
    approve_resource asyncio_put iso_example str_example 10 11 3 (oid_str 1)
      approve_by_t app1 = (Ok (Some c), a') ∧
    calls a' = calls app1 ++ [CallUpdate "resource"; CallInsert "notification";
                              CallBroadcast (approved_event 1)] ∧
    c !! "status" = Some (VStr "approved") ∧
    c !! "approved_by" = Some (VStr "t@x.com") ∧
    c !! "title" = Some (VStr "Notes").
Proof.
  split; [exact app1_reachable|].
  destruct (approve_resource_success asyncio_put iso_example str_example
              10 11 3 (oid_str 1) approve_by_t app1 (store_of app1) 1
              (first_resource app1) "Notes" 3 "OS" app1_reachable)
    as (c & a' & Hrun & _ & _ & Hcalls & _ & _ & _ & Hst & Hby & _ & _ & Ht).
  - reflexivity.
  - reflexivity.
  - compute_done.
  - reflexivity.
  - reflexivity.
  - reflexivity.
  - reflexivity.
  - exists c, a'. split; [exact Hrun|]. split; [exact Hcalls|].
    split; [exact Hst|]. split; [exact Hby | exact Ht].
Defined.

Lemma approve_resource_without_title_witness :
  NoDup (collection (store_of app3) "resource").*1 ∧
  ∃ a', approve_resource asyncio_put iso_example str_example 10 11 3 (oid_str 1)
          approve_by_t app3 = (Raise (KeyError "title"), a') ∧
        calls a' = [CallUpdate "resource"] ∧
        ∃ s' f', db a' = Some s' ∧
                 collection s' "resource" !! 0%nat = Some (1%N, f') ∧
                 f' !! "status" = Some (VStr "approved") ∧
                 collection s' "notification" = [].
Proof.
  assert (NoDup (collection (store_of app3) "resource").*1) as Hnd by compute_done.
  split; [exact Hnd|].
  destruct (approve_resource_without_title asyncio_put iso_example str_example
              10 11 3 (oid_str 1) approve_by_t app3 (store_of app3) 1
              {[ "status" := VStr "pending" ]} Hnd)
    as (Hrun & _ & _).
  - reflexivity.
  - reflexivity.
  - compute_done.
  - discriminate.
  - reflexivity.
  - eexists. split; [exact Hrun|]. split; [reflexivity|].
    eexists. eexists. split; [reflexivity|]. split; [reflexivity|].
    split; reflexivity.
Defined.

Lemma login_response_witness :
  db app_ann = Some (store_of app_ann) ∧ valid_oid 2 ∧
  ∃ c a',
    login iso_example str_example 6 2 login_anna app_ann = (Ok (Some c), a') ∧
    calls a' = [CallInsert "user"; CallUpdate "user"] ∧
    c !! "name" = Some (VStr "Anna") ∧
    c !! "id" = Some (VStr (oid_str 1)) ∧
    c !! "updated_at" = Some (VStr (iso_example 6)).
Proof.
  split; [reflexivity|]. split; [reflexivity|].
  destruct (login_response iso_example str_example 6 2 login_anna app_ann
              (store_of app_ann))
    as (c & a' & s' & o & Hrun & _ & _ & _ & _ & _ & _ & Hk & _ & _ & _ & Hupd & _).
  - reflexivity.
  - reflexivity.
  - compute_done.
  - destruct Hupd as [Hcalls Htime]; [discriminate|].
    exists c, a'. split; [exact Hrun|]. split; [exact Hcalls|].
    split; [apply Hk; [discriminate | reflexivity]|].
    split; [|exact Htime].
    pose proof (f_equal (λ x, match x.1 with
                              | Ok (Some c) => c !! "id"
                              | _ => None
                              end) Hrun) as Hid.
    cbv beta in Hid. cbn [fst] in Hid. rewrite <- Hid. reflexivity.
Defined.

Lemma list_resources_result_witness :
  db app2 = Some (store_of app2) ∧
  ∃ l, list_resources iso_example str_example (Some 3%Z) None "approved" None
         (Some 100%Z) app2 = (Ok l, app2) ∧
       (length l ≤ 100)%nat ∧
       Forall (λ c, c !! "status" = Some (VStr "approved") ∧
                    c !! "semester" = Some (VInt 3)) l.
Proof.
  split; [reflexivity|].
  destruct (list_resources_result iso_example str_example (Some 3%Z) None
              "approved" None (Some 100%Z) app2 (store_of app2))
    as (l & Hrun & Hlen & Hall); [reflexivity|].
  exists l. split; [exact Hrun|]. split; [exact (Hlen 100%Z eq_refl)|].
  apply (Forall_impl _ _ _ Hall). intros c (_ & _ & _ & Hst & Hsem).
  split; [apply Hst; discriminate | apply Hsem; reflexivity].
Defined.

Lemma list_pending_result_witness :
  db app1 = Some (store_of app1) ∧
  ∃ l, list_pending iso_example str_example (Some 3%Z) None app1 = (Ok l, app1) ∧
       (length l ≤ 200)%nat ∧
       Forall (λ c, c !! "status" = Some (VStr "pending")) l.
Proof.
  split; [reflexivity|].
  destruct (list_pending_result iso_example str_example (Some 3%Z) None
              app1 (store_of app1))
    as (l & Hrun & Hlen & Hall); [reflexivity|].
  exists l. split; [exact Hrun|]. split; [exact Hlen|].
  apply (Forall_impl _ _ _ Hall). intros c (_ & _ & Hst & _). exact Hst.
Defined.

Lemma read_only_requests_witness :
  read_only (ReqListPending (Some 3%Z) None) = true ∧
  handle asyncio_put iso_example str_example (ReqListPending (Some 3%Z) None) app1
    = app1.
Proof.
  split; [reflexivity|].
  exact (read_only_requests asyncio_put iso_example str_example
           (ReqListPending (Some 3%Z) None) app1 eq_refl).
Defined.

Lemma documents_never_removed_witness :
  db app1 = Some (store_of app1) ∧
  ∃ s', db app2 = Some s' ∧
        (collection (store_of app1) "resource").*1 `prefix_of`
          (collection s' "resource").*1 ∧
        collection (store_of app1) "notification" `prefix_of`
          collection s' "notification".
Proof.
  split; [reflexivity|].
  destruct (documents_never_removed asyncio_put iso_example str_example
              (ReqApprove 10 11 3 (oid_str 1) approve_by_t) app1 (store_of app1))
    as (s' & Hdb & _ & Hr & Hn & _); [reflexivity|].
  exists s'. split; [exact Hdb|]. split; [exact Hr | exact Hn].
Defined.

Lemma stream_receives_upload_witness :
  app_reachable asyncio_put iso_example str_example app0 ∧
  ∃ q a1 r a2 a3 a4,
    events_open asyncio_put app0 = (Ok q, a1) ∧
    create_resource asyncio_put iso_example str_example 1 2 upload_notes a1
      = (r, a2) ∧
    events_next q a2 = (Ok (Some connected), a3) ∧
    events_next q a3 = (Ok (Some (created_event 1 upload_notes)), a4) ∧
    events_next q a4 = (Ok None, a4).
Proof.
  split; [apply app_init_empty|].
  apply (stream_receives_upload iso_example str_example 1 2 upload_notes app0 ∅).
  - apply app_init_empty.
  - reflexivity.
  - compute_done.
Defined.

Lemma test_database_response_witness :
  db app1 = Some (store_of app1) ∧ ascii_text "timed out" ∧
  ∃ r, test_database (Some "mongodb://db") (Some "") (Some "timed out") app1
         = (Ok r, app1) ∧
       r !! "database" = Some (VStr "⚠️  Connected but Error: timed out") ∧
       r !! "connection_status" = Some (VStr "Connected") ∧
       r !! "database_url" = Some (VStr "✅ Set") ∧
       r !! "database_name" ≠ Some (VStr "✅ Set") ∧
       r !! "collections" = Some (VList []).
Proof.
  assert (ascii_text "timed out") as Hascii by (repeat constructor).
  split; [reflexivity|]. split; [exact Hascii|].
  destruct (test_database_response (Some "mongodb://db") (Some "")
              (Some "timed out") app1)
    as (r & Hrun & _ & _ & _ & _ & Hs).
  destruct (Hs (store_of app1) eq_refl) as (Hc & Hu & Hn & _ & Herr).
  destruct (Herr "timed out" eq_refl Hascii) as (Hd & _ & _ & Hl).
  exists r. split; [exact Hrun|]. split; [exact Hd|]. split; [exact Hc|].
  split; [|split; [|exact Hl]].
  - apply Hu. exists "mongodb://db". split; [reflexivity | discriminate].
  - intros (x & Hx & Hne)%Hn. injection Hx as <-. by apply Hne.
Defined.

Lemma app_closed_reachable :
  app_reachable asyncio_put iso_example str_example app_closed.
Proof. repeat (apply app_step; [|exact I]). apply app_init_empty. Qed.

Lemma closed_stream_gets_nothing_witness :
  app_reachable asyncio_put iso_example str_example app_closed ∧
  0 < next_q (broadcaster app_closed) ∧
  (0 ∉ subscribers (broadcaster app_closed)) ∧
  queue_items
    (broadcaster
       (handle_all asyncio_put iso_example str_example
          [ReqCreateResource 1 2 upload_notes;
           ReqApprove 10 11 3 (oid_str 1) approve_by_t] app_closed)) 0
  = [connected].
Proof.
  assert (0 < next_q (broadcaster app_closed)) as Hq by compute_done.
  assert (0 ∉ subscribers (broadcaster app_closed)) as Hout by compute_done.
  split; [exact app_closed_reachable|]. split; [exact Hq|]. split; [exact Hout|].
  destruct (closed_stream_gets_nothing asyncio_put iso_example str_example
              [ReqCreateResource 1 2 upload_notes;
               ReqApprove 10 11 3 (oid_str 1) approve_by_t] app_closed 0
              app_closed_reachable Hq Hout) as (_ & _ & Heq).
  rewrite Heq; [reflexivity|]. repeat constructor; discriminate.
Defined.
